(** * Report management API: optimistic locking, status validation, task queue

    A shallow embedding of the core of the report API:
    - the report model ([models/Report.ts]),
    - the status-transition validator ([services/reportValidator.ts]),
    - the controllers [createReport], [updateReport] and [uploadAttachment]
      ([controllers/reportController.ts]),
    - the asynchronous task queue ([services/asyncTaskQueue.ts]) together
      with the part of the JavaScript run time it relies on (task objects
      held by reference, [setTimeout] timers and the clock).

    Conventions.  JavaScript numbers that hold counters, versions, sizes and
    times are integers of [Z]; they are taken to stay inside the range where
    doubles represent integers exactly.  [Date] values are milliseconds
    since the epoch.  A request-body field that may be absent ([undefined])
    is an [option].  Console output is not part of the state. *)

From Stdlib Require Import ZArith Lia.
From stdpp Require Import base option list gmap strings pretty.

Local Open Scope Z_scope.

(** ** Report model *)

Inductive ReportStatus := DRAFT | PUBLISHED | ARCHIVED.

Inductive Priority := LOW | MEDIUM | HIGH.

Inductive ConfidentialityLevel := public | internal | confidential.

#[global] Instance ReportStatus_eq_dec : EqDecision ReportStatus.
Proof. solve_decision. Defined.

#[global] Instance Priority_eq_dec : EqDecision Priority.
Proof. solve_decision. Defined.

Module Comment.
Record t := mk {
  id : string;
  text : string;
  author : string;
  createdAt : Z
}.
End Comment.

Module ReportEntry.
Record t := mk {
  id : string;
  content : string;
  priority : Priority;
  createdAt : Z;
  updatedAt : Z;
  tags : list string;
  comments : list Comment.t
}.
End ReportEntry.

Module ReportMetadata.
Record t := mk {
  department : string;
  confidentialityLevel : ConfidentialityLevel;
  estimatedReadTime : Z;
  lastReviewedBy : option string;
  lastReviewedAt : option Z
}.

(** [Partial<ReportMetadata>]: every field may be missing. *)
Record partial := mkPartial {
  p_department : option string;
  p_confidentialityLevel : option ConfidentialityLevel;
  p_estimatedReadTime : option Z;
  p_lastReviewedBy : option string;
  p_lastReviewedAt : option Z
}.

(** [{ ...m, ...p }]: the fields present in [p] overwrite those of [m]. *)
Definition spread (m : t) (p : partial) : t :=
  {| department := default (department m) (p_department p);
     confidentialityLevel :=
       default (confidentialityLevel m) (p_confidentialityLevel p);
     estimatedReadTime := default (estimatedReadTime m) (p_estimatedReadTime p);
     lastReviewedBy :=
       match p_lastReviewedBy p with
       | Some u => Some u
       | None => lastReviewedBy m
       end;
     lastReviewedAt :=
       match p_lastReviewedAt p with
       | Some d => Some d
       | None => lastReviewedAt m
       end |}.
End ReportMetadata.

Module Report.
Record t := mk {
  id : string;
  title : string;
  description : string;
  status : ReportStatus;
  createdBy : string;
  createdAt : Z;
  updatedAt : Z;
  version : Z;
  entries : list ReportEntry.t;
  metadata : ReportMetadata.t;
  attachments : list string
}.
End Report.

(** ** Status-transition validator ([ReportValidator]) *)

Module ValidationResult.
Record t := mk {
  valid : bool;
  error : option string;
  code : option string
}.

(** The object literal [{ valid: true }]. *)
Definition ok : t := {| valid := true; error := None; code := None |}.
End ValidationResult.

(** [report.entries.filter(entry => entry.priority === Priority.HIGH).length] *)
Definition highPriorityCount (entries : list ReportEntry.t) : nat :=
  length (filter (fun entry => ReportEntry.priority entry = HIGH) entries).

(** The message of the archive rule; the template literal renders the count
    in decimal. *)
Definition archiveErrorMessage (count : nat) : string :=
  "Cannot archive published report: requires at least 3 high-priority entries (currently has "
  +:+ pretty count +:+ ")".

Definition validateArchiveTransition
    (report : Report.t) (newStatus : ReportStatus) : ValidationResult.t :=
  if bool_decide (newStatus ≠ ARCHIVED) then ValidationResult.ok
  else if bool_decide (Report.status report = PUBLISHED) then
    let count := highPriorityCount (Report.entries report) in
    if bool_decide (count < 3)%nat then
      {| ValidationResult.valid := false;
         ValidationResult.code := Some "INSUFFICIENT_HIGH_PRIORITY_ENTRIES";
         ValidationResult.error := Some (archiveErrorMessage count) |}
    else ValidationResult.ok
  else ValidationResult.ok.

Definition validatePublishTransition
    (report : Report.t) (newStatus : ReportStatus) : ValidationResult.t :=
  if bool_decide (newStatus ≠ PUBLISHED) then ValidationResult.ok
  else if bool_decide (length (Report.entries report) = 0%nat) then
    {| ValidationResult.valid := false;
       ValidationResult.code := Some "NO_ENTRIES";
       ValidationResult.error :=
         Some "Cannot publish report: must have at least one entry" |}
  else ValidationResult.ok.

Definition validateStatusTransition
    (report : Report.t) (newStatus : ReportStatus) : ValidationResult.t :=
  let archiveResult := validateArchiveTransition report newStatus in
  if negb (ValidationResult.valid archiveResult) then archiveResult
  else
    let publishResult := validatePublishTransition report newStatus in
    if negb (ValidationResult.valid publishResult) then publishResult
    else ValidationResult.ok.

(** ** Entity store ([DataStore]) *)

(** The reports of the [DataStore] class as the controllers see them: a
    finite map from identifiers to reports, with the three methods the
    report controllers call.  The class itself, with its insertion-ordered
    maps, is [DataStoreClass] below; a refinement theorem relates the two. *)
Module DataStore.
Definition getReport (id : string) (reports : gmap string Report.t)
  : option Report.t := reports !! id.

Definition createReport (report : Report.t) (reports : gmap string Report.t)
  : gmap string Report.t := <[Report.id report := report]> reports.

Definition updateReport (id : string) (report : Report.t)
    (reports : gmap string Report.t) : gmap string Report.t :=
  <[id := report]> reports.
End DataStore.

(** ** File storage ([FileStorageService]) *)

Module FileMetadata.
Record t := mk {
  id : string;
  originalName : string;
  mimeType : string;
  size : Z;
  uploadedAt : Z;
  uploadedBy : string;
  reportId : string;
  storageKey : string
}.
End FileMetadata.

(** [Express.Multer.File], the fields the code reads. *)
Module MulterFile.
Record t := mk {
  originalname : string;
  mimetype : string;
  size : Z;
  buffer : list Z
}.
End MulterFile.

Module FileStorageService.
Definition allowedMimeTypes : list string :=
  [ "application/pdf";
    "image/jpeg";
    "image/jpg";
    "image/png";
    "image/gif";
    "application/msword";
    "application/vnd.openxmlformats-officedocument.wordprocessingml.document";
    "application/vnd.ms-excel";
    "application/vnd.openxmlformats-officedocument.spreadsheetml.sheet";
    "text/plain";
    "text/csv" ].

Definition validateFileType (mimeType : string) : bool :=
  bool_decide (mimeType ∈ allowedMimeTypes).

Definition validateFileSize (size : Z) : bool :=
  let maxSize := 5 * 1024 * 1024 in
  bool_decide (size <= maxSize).

(** [fileId] is the value [uuidv4()] returns in this call, [now] the
    value of [new Date()]. *)
Definition storeFile (fileId : string) (now : Z)
    (file : MulterFile.t) (reportId userId : string)
    (files : gmap string (FileMetadata.t * list Z))
  : gmap string (FileMetadata.t * list Z) * FileMetadata.t :=
  let storageKey := "reports/" +:+ reportId +:+ "/attachments/" +:+ fileId in
  let metadata :=
    {| FileMetadata.id := fileId;
       FileMetadata.originalName := MulterFile.originalname file;
       FileMetadata.mimeType := MulterFile.mimetype file;
       FileMetadata.size := MulterFile.size file;
       FileMetadata.uploadedAt := now;
       FileMetadata.uploadedBy := userId;
       FileMetadata.reportId := reportId;
       FileMetadata.storageKey := storageKey |} in
  (<[fileId := (metadata, MulterFile.buffer file)]> files, metadata).

(** [sha256hex] stands for the hexadecimal SHA-256 digest of the [crypto]
    module and [secret] for [process.env.JWT_SECRET || 'secret']. *)
Definition generateDownloadUrl (sha256hex : string → string) (secret : string)
    (now : Z) (fileId : string) (expiresIn : Z) : string :=
  let expiryTime := now + expiresIn * 1000 in
  let signature :=
    String.substring 0 16
      (sha256hex (fileId +:+ "-" +:+ pretty expiryTime +:+ "-" +:+ secret)) in
  "/api/files/" +:+ fileId +:+ "/download?token=" +:+ signature
    +:+ "&expires=" +:+ pretty expiryTime.
End FileStorageService.

(** ** Task queue ([AsyncTaskQueue]) *)

(** The three members of the enum; the [default] branch of [executeTask],
    for a value outside the enum, is not reachable for a typed task. *)
Inductive TaskType := SEND_NOTIFICATION | INVALIDATE_CACHE | GENERATE_PREVIEW.

Inductive TaskStatus := PENDING | PROCESSING | COMPLETED | FAILED | DEAD_LETTER.

#[global] Instance TaskStatus_eq_dec : EqDecision TaskStatus.
Proof. solve_decision. Defined.

(** A payload ([any]): [undefined], [null], or an object whose properties
    are strings, numbers or arrays of strings, which is what the callers in
    this repository build. *)
Inductive JsProperty :=
  | JsString (s : string)
  | JsNumber (n : Z)
  | JsStrings (items : list string).

Inductive JsValue :=
  | JsUndefined
  | JsNull
  | JsObject (fields : list (string * JsProperty)).

Module Task.
Record t := mk {
  id : string;
  type : TaskType;
  payload : JsValue;
  status : TaskStatus;
  attempts : Z;
  maxAttempts : Z;
  createdAt : Z;
  processedAt : option Z;
  error : option string
}.

Definition set_status (s : TaskStatus) (task : t) : t :=
  mk (id task) (type task) (payload task) s (attempts task)
     (maxAttempts task) (createdAt task) (processedAt task) (error task).

Definition set_processedAt (d : Z) (task : t) : t :=
  mk (id task) (type task) (payload task) (status task) (attempts task)
     (maxAttempts task) (createdAt task) (Some d) (error task).

Definition set_attempts (n : Z) (task : t) : t :=
  mk (id task) (type task) (payload task) (status task) n
     (maxAttempts task) (createdAt task) (processedAt task) (error task).

Definition set_error (msg : string) (task : t) : t :=
  mk (id task) (type task) (payload task) (status task) (attempts task)
     (maxAttempts task) (createdAt task) (processedAt task) (Some msg).
End Task.

(** A callback handed to [setTimeout].  Task objects are shared by
    reference: a callback, the queue and the dead-letter queue hold the
    index of the task in the table of objects. *)
Inductive Callback :=
  | HandlerDone (task : nat)
    (* resolve of the promise a handler awaits; the handler, then
       executeTask, then processQueue continue from it *)
  | Reinsert (task : nat)
    (* () => { this.queue.unshift(task) } *)
  | Poll
    (* () => this.processQueue() *).

Record Timer := mkTimer { due : Z; callback : Callback }.

(** The singleton queue with the run-time state it lives in: [queue],
    [processing] and [deadLetterQueue] are the fields of the class,
    [objects] the task objects allocated so far, [timers] the pending
    timers in the order they will fire, [clock] the current time in ms. *)
Record AsyncTaskQueue := mkQueue {
  objects : list Task.t;
  queue : list nat;
  processing : bool;
  deadLetterQueue : list nat;
  timers : list Timer;
  clock : Z
}.

Definition set_objects (os : list Task.t) (q : AsyncTaskQueue) : AsyncTaskQueue :=
  mkQueue os (queue q) (processing q) (deadLetterQueue q) (timers q) (clock q).

Definition set_queue (l : list nat) (q : AsyncTaskQueue) : AsyncTaskQueue :=
  mkQueue (objects q) l (processing q) (deadLetterQueue q) (timers q) (clock q).

Definition set_processing (b : bool) (q : AsyncTaskQueue) : AsyncTaskQueue :=
  mkQueue (objects q) (queue q) b (deadLetterQueue q) (timers q) (clock q).

Definition set_deadLetterQueue (l : list nat) (q : AsyncTaskQueue) : AsyncTaskQueue :=
  mkQueue (objects q) (queue q) (processing q) l (timers q) (clock q).

Definition set_timers (ts : list Timer) (q : AsyncTaskQueue) : AsyncTaskQueue :=
  mkQueue (objects q) (queue q) (processing q) (deadLetterQueue q) ts (clock q).

Definition set_clock (c : Z) (q : AsyncTaskQueue) : AsyncTaskQueue :=
  mkQueue (objects q) (queue q) (processing q) (deadLetterQueue q) (timers q) c.

(** A freshly constructed queue at time [c]. *)
Definition newQueue (c : Z) : AsyncTaskQueue := mkQueue [] [] false [] [] c.

(** An assignment to a field of the task object [task]. *)
Definition assign (task : nat) (f : Task.t → Task.t) (q : AsyncTaskQueue)
  : AsyncTaskQueue := set_objects (alter f task (objects q)) q.

(** Timers fire by due time, and in the order of their registration when
    they are due at the same time. *)
Fixpoint schedule (tm : Timer) (ts : list Timer) : list Timer :=
  match ts with
  | [] => [tm]
  | x :: rest =>
      if bool_decide (due tm < due x) then tm :: x :: rest
      else x :: schedule tm rest
  end.

(** The timers of Node hold delays from 1 ms to [TIMEOUT_MAX], which is
    [2 ^ 31 - 1] ms; [setTimeout] sets a delay outside this range to 1 ms. *)
Definition TIMEOUT_MAX : Z := 2147483647.

Definition timerDelay (delay : Z) : Z :=
  if bool_decide (1 <= delay ∧ delay <= TIMEOUT_MAX) then delay else 1.

#[global] Arguments timerDelay : simpl never.

Definition setTimeout (cb : Callback) (delay : Z) (q : AsyncTaskQueue)
  : AsyncTaskQueue :=
  set_timers (schedule (mkTimer (clock q + timerDelay delay) cb) (timers q)) q.

(** The simulated work of a handler: the delay it awaits. *)
Definition handlerDelay (ty : TaskType) : Z :=
  match ty with
  | SEND_NOTIFICATION => 500
  | INVALIDATE_CACHE => 200
  | GENERATE_PREVIEW => 800
  end.

(** The property of the payload a handler reads for its log line. *)
Definition handlerProperty (ty : TaskType) : string :=
  match ty with
  | SEND_NOTIFICATION => "reportId"
  | INVALIDATE_CACHE => "cacheKey"
  | GENERATE_PREVIEW => "reportId"
  end.

(** After its delay a handler reads a property of the payload.  Reading a
    property of [null] or [undefined] throws a [TypeError] (here with the
    message of V8); on any other value it succeeds. *)
Definition handlerError (task : Task.t) : option string :=
  match Task.payload task with
  | JsNull =>
      Some ("Cannot read properties of null (reading '"
            +:+ handlerProperty (Task.type task) +:+ "')")
  | JsUndefined =>
      Some ("Cannot read properties of undefined (reading '"
            +:+ handlerProperty (Task.type task) +:+ "')")
  | _ => None
  end.

(** [Math.pow(2, task.attempts) * 1000], for a counter that is not
    negative. *)
Definition backoffDelay (attempts : Z) : Z := 2 ^ attempts * 1000.

(** [executeTask] up to the point where the handler suspends on its timer. *)
Definition executeTask (task : nat) (q : AsyncTaskQueue) : AsyncTaskQueue :=
  match objects q !! task with
  | Some t => setTimeout (HandlerDone task) (handlerDelay (Task.type t)) q
  | None => q
  end.

(** [processQueue] up to [await this.executeTask(task)]. *)
Definition processQueue (q : AsyncTaskQueue) : AsyncTaskQueue :=
  match queue q with
  | [] => set_processing false q
  | task :: rest =>
      let q := set_processing true q in
      let q := set_queue rest q in
      let q := assign task (Task.set_status PROCESSING) q in
      executeTask task q
  end.

(** [processQueue] from the point where the awaited handler has settled:
    the rest of the [try] block or the [catch] block, then the timer for
    the next round. *)
Definition processQueue_resume (task : nat) (q : AsyncTaskQueue)
  : AsyncTaskQueue :=
  match objects q !! task with
  | None => q
  | Some t =>
      let q :=
        match handlerError t with
        | None =>
            let q := assign task (Task.set_status COMPLETED) q in
            assign task (Task.set_processedAt (clock q)) q
        | Some message =>
            let attempts := Task.attempts t + 1 in
            let q := assign task (Task.set_attempts attempts) q in
            let q := assign task (Task.set_error message) q in
            if bool_decide (attempts >= Task.maxAttempts t) then
              let q := assign task (Task.set_status DEAD_LETTER) q in
              set_deadLetterQueue (deadLetterQueue q ++ [task]) q
            else
              let q := assign task (Task.set_status FAILED) q in
              setTimeout (Reinsert task) (backoffDelay attempts) q
        end in
      setTimeout Poll 100 q
  end.

(** [enqueue(task)]: the caller passes a new object, which is allocated
    here. *)
Definition enqueue (task : Task.t) (q : AsyncTaskQueue) : AsyncTaskQueue :=
  let ref := length (objects q) in
  let q := set_objects (objects q ++ [task]) q in
  let q := set_queue (queue q ++ [ref]) q in
  if negb (processing q) then processQueue q else q.

Definition getStatus (q : AsyncTaskQueue) : nat * bool * nat :=
  (length (queue q), processing q, length (deadLetterQueue q)).

(** [getDeadLetterQueue()]: the task objects the dead-letter queue refers to. *)
Definition getDeadLetterQueue (q : AsyncTaskQueue) : list Task.t :=
  omap (fun task => objects q !! task) (deadLetterQueue q).

(** *** The event loop *)

Definition runCallback (cb : Callback) (q : AsyncTaskQueue) : AsyncTaskQueue :=
  match cb with
  | HandlerDone task => processQueue_resume task q
  | Reinsert task => set_queue (task :: queue q) q
  | Poll => processQueue q
  end.

(** What can happen next: the earliest pending timer fires, or [enqueue] is
    called at a time [at_] at which no pending timer is overdue.  A timer
    fires at its due time, and a callback, with the promise continuations it
    triggers, runs to completion before anything else happens. *)
Inductive Event :=
  | Fire
  | Enqueue (at_ : Z) (task : Task.t).

Definition step (ev : Event) (q : AsyncTaskQueue) : option AsyncTaskQueue :=
  match ev with
  | Fire =>
      match timers q with
      | [] => None
      | tm :: rest =>
          Some (runCallback (callback tm) (set_clock (due tm) (set_timers rest q)))
      end
  | Enqueue at_ task =>
      if bool_decide (clock q <= at_ ∧ Forall (fun tm => at_ <= due tm) (timers q))
      then Some (enqueue task (set_clock at_ q))
      else None
  end.

Fixpoint run (evs : list Event) (q : AsyncTaskQueue) : option AsyncTaskQueue :=
  match evs with
  | [] => Some q
  | ev :: evs => q' ← step ev q; run evs q'
  end.

(** Let timers fire until none is pending. *)
Fixpoint settle (fuel : nat) (q : AsyncTaskQueue) : option AsyncTaskQueue :=
  match timers q with
  | [] => Some q
  | _ :: _ =>
      match fuel with
      | O => None
      | S fuel => q' ← step Fire q; settle fuel q'
      end
  end.

(** The states the queue can be in. *)
Inductive reachable : AsyncTaskQueue → Prop :=
  | reachable_new c : reachable (newQueue c)
  | reachable_step q ev q' : reachable q → step ev q = Some q' → reachable q'.

(** The references the queue or a pending callback holds. *)
Definition callbackRefs (cb : Callback) : list nat :=
  match cb with
  | HandlerDone task => [task]
  | Reinsert task => [task]
  | Poll => []
  end.

Fixpoint timerRefs (ts : list Timer) : list nat :=
  match ts with
  | [] => []
  | tm :: ts => callbackRefs (callback tm) ++ timerRefs ts
  end.

Definition held (q : AsyncTaskQueue) : list nat :=
  queue q ++ timerRefs (timers q) ++ deadLetterQueue q.

(** Well-formed states: together with the references [refs] of a callback
    that is running, every reference is held once and refers to an
    allocated task object, and the dead-letter queue refers to tasks with
    status [DEAD_LETTER]. *)
Definition wf_with (refs : list nat) (q : AsyncTaskQueue) : Prop :=
  NoDup (refs ++ held q)
  ∧ Forall (λ task, (task < length (objects q))%nat) (refs ++ held q)
  ∧ Forall (λ task, ∃ t, objects q !! task = Some t
                         ∧ Task.status t = DEAD_LETTER)
           (deadLetterQueue q).

Definition wf (q : AsyncTaskQueue) : Prop := wf_with [] q.

(** What a step keeps of the dead-letter queue: it is extended at most, and
    the task objects it refers to are not written to. *)
Definition keeps_dead_letters (q q' : AsyncTaskQueue) : Prop :=
  deadLetterQueue q `prefix_of` deadLetterQueue q'
  ∧ ∀ task, task ∈ deadLetterQueue q → objects q' !! task = objects q !! task.

(** ** Controllers ([reportController.ts]) *)

(** [req.user], set by the authentication middleware. *)
Module User.
Record t := mk {
  id : string;
  username : string
}.
End User.

(** The [details] object of an error payload.  For a file that is too
    large the code renders the received size in MB with two decimals; here
    the details carry the size in bytes. *)
Inductive Details :=
  | NoDetails
  | RequiredDetails (title description : option string)
  | VersionDetails (currentVersion providedVersion : Z)
  | StatusDetails (currentStatus attemptedStatus : ReportStatus)
  | FileTypeDetails (allowedTypes : list string) (receivedType : string)
  | FileSizeDetails (maxSize : string) (receivedBytes : Z).

Module ErrorBody.
Record t := mk {
  code : string;
  message : option string;
  details : Details
}.
End ErrorBody.

Module AttachmentBody.
Record t := mk {
  id : string;
  fileName : string;
  size : Z;
  mimeType : string;
  uploadedAt : Z;
  uploadedBy : string;
  downloadUrl : string;
  expiresIn : Z
}.
End AttachmentBody.

Inductive Body :=
  | ErrorJson (error : ErrorBody.t)
  | ReportJson (report : Report.t)
  | AttachmentJson (attachment : AttachmentBody.t).

Module Response.
Record t := mk {
  statusCode : Z;
  location : option string;
  body : Body
}.
End Response.

(** [res.status(statusCode).json({ error: { code, message, details } })] *)
Definition errorResponse (statusCode : Z) (code : string)
    (message : option string) (details : Details) : Response.t :=
  {| Response.statusCode := statusCode;
     Response.location := None;
     Response.body :=
       ErrorJson {| ErrorBody.code := code;
                    ErrorBody.message := message;
                    ErrorBody.details := details |} |}.

(** Truthiness of a string that may be missing: [!s] is [negb (truthy s)]. *)
Definition truthy (s : option string) : bool :=
  match s with
  | Some s => bool_decide (s ≠ "")
  | None => false
  end.

(** [s || d] *)
Definition orElse (s : option string) (d : string) : string :=
  match s with
  | Some s => if bool_decide (s ≠ "") then s else d
  | None => d
  end.

Module CreateReportDTO.
Record t := mk {
  title : option string;
  description : option string;
  metadata : option ReportMetadata.t
}.
End CreateReportDTO.

Module UpdateReportDTO.
Record t := mk {
  title : option string;
  description : option string;
  status : option ReportStatus;
  metadata : option ReportMetadata.partial;
  entries : option (list ReportEntry.t);
  version : option Z
}.
End UpdateReportDTO.

Definition notificationTask (newReport : Report.t) (user : User.t) (now : Z)
  : Task.t :=
  {| Task.id := Report.id newReport +:+ "-notification";
     Task.type := SEND_NOTIFICATION;
     Task.payload :=
       JsObject
         [ ("reportId", JsString (Report.id newReport));
           ("reportTitle", JsString (Report.title newReport));
           ("createdBy", JsString (User.username user));
           ("recipients", JsStrings ["manager@company.com"; "team@company.com"]) ];
     Task.status := PENDING;
     Task.attempts := 0;
     Task.maxAttempts := 3;
     Task.createdAt := now;
     Task.processedAt := None;
     Task.error := None |}.

Definition cacheTask (newReport : Report.t) (now : Z) : Task.t :=
  {| Task.id := Report.id newReport +:+ "-cache";
     Task.type := INVALIDATE_CACHE;
     Task.payload :=
       JsObject
         [ ("cacheKey",
            JsString ("reports:"
                      +:+ ReportMetadata.department (Report.metadata newReport)));
           ("reportId", JsString (Report.id newReport)) ];
     Task.status := PENDING;
     Task.attempts := 0;
     Task.maxAttempts := 2;
     Task.createdAt := now;
     Task.processedAt := None;
     Task.error := None |}.

Definition previewTask (newReport : Report.t) (now : Z) : Task.t :=
  {| Task.id := Report.id newReport +:+ "-preview";
     Task.type := GENERATE_PREVIEW;
     Task.payload :=
       JsObject
         [ ("reportId", JsString (Report.id newReport));
           ("title", JsString (Report.title newReport)) ];
     Task.status := PENDING;
     Task.attempts := 0;
     Task.maxAttempts := 3;
     Task.createdAt := now;
     Task.processedAt := None;
     Task.error := None |}.

(** [createReport]: [uuid] is the value [uuidv4()] returns in this call;
    [new Date()] reads the clock of the run time. *)
Definition createReport (uuid : string) (user : User.t)
    (body : CreateReportDTO.t)
    (reports : gmap string Report.t) (taskQueue : AsyncTaskQueue)
  : gmap string Report.t * AsyncTaskQueue * Response.t :=
  let title := CreateReportDTO.title body in
  let description := CreateReportDTO.description body in
  if negb (truthy title) || negb (truthy description) then
    (reports, taskQueue,
     errorResponse 400 "VALIDATION_ERROR"
       (Some "Title and description are required")
       (RequiredDetails
          (if negb (truthy title) then Some "Title is required" else None)
          (if negb (truthy description) then Some "Description is required"
           else None)))
  else
    let now := clock taskQueue in
    let newReport :=
      {| Report.id := uuid;
         (* both are present here: they are truthy *)
         Report.title := default "" title;
         Report.description := default "" description;
         Report.status := DRAFT;
         Report.createdBy := User.id user;
         Report.createdAt := now;
         Report.updatedAt := now;
         Report.version := 1;
         Report.entries := [];
         Report.metadata :=
           match CreateReportDTO.metadata body with
           | Some metadata => metadata
           | None =>
               {| ReportMetadata.department := "General";
                  ReportMetadata.confidentialityLevel := internal;
                  ReportMetadata.estimatedReadTime := 0;
                  ReportMetadata.lastReviewedBy := None;
                  ReportMetadata.lastReviewedAt := None |}
           end;
         Report.attachments := [] |} in
    let reports := DataStore.createReport newReport reports in
    let taskQueue := enqueue (notificationTask newReport user now) taskQueue in
    let taskQueue := enqueue (cacheTask newReport now) taskQueue in
    let taskQueue := enqueue (previewTask newReport now) taskQueue in
    (reports, taskQueue,
     {| Response.statusCode := 201;
        Response.location := Some ("/reports/" +:+ Report.id newReport);
        Response.body := ReportJson newReport |}).

(** [{ ...existingReport, entries: entries !== undefined ? entries :
    existingReport.entries }]: the stored report with the candidate entries. *)
Definition reportForValidation (existingReport : Report.t)
    (body : UpdateReportDTO.t) : Report.t :=
  Report.mk (Report.id existingReport) (Report.title existingReport)
    (Report.description existingReport) (Report.status existingReport)
    (Report.createdBy existingReport) (Report.createdAt existingReport)
    (Report.updatedAt existingReport) (Report.version existingReport)
    (default (Report.entries existingReport) (UpdateReportDTO.entries body))
    (Report.metadata existingReport) (Report.attachments existingReport).

(** The business-rule check of [updateReport]: the error response when the
    request changes the status and the validator rejects the change. *)
Definition statusCheck (existingReport : Report.t) (body : UpdateReportDTO.t)
  : option Response.t :=
  match UpdateReportDTO.status body with
  | Some status =>
      if bool_decide (status ≠ Report.status existingReport) then
        let validationResult :=
          validateStatusTransition
            (reportForValidation existingReport body) status in
        if negb (ValidationResult.valid validationResult) then
          Some (errorResponse 400
                  (orElse (ValidationResult.code validationResult)
                          "BUSINESS_RULE_VIOLATION")
                  (ValidationResult.error validationResult)
                  (StatusDetails (Report.status existingReport) status))
        else None
      else None
  | None => None
  end.

(** [updateReport]: [now] is the value of [new Date()]. *)
Definition updateReport (now : Z) (id : string) (body : UpdateReportDTO.t)
    (reports : gmap string Report.t) : gmap string Report.t * Response.t :=
  match UpdateReportDTO.version body with
  | None =>
      (reports,
       errorResponse 400 "VALIDATION_ERROR"
         (Some "Version number is required for optimistic locking") NoDetails)
  | Some version =>
      match DataStore.getReport id reports with
      | None =>
          (reports,
           errorResponse 404 "NOT_FOUND" (Some "Report not found") NoDetails)
      | Some existingReport =>
          if bool_decide (Report.version existingReport ≠ version) then
            (reports,
             errorResponse 409 "CONFLICT"
               (Some "Report has been modified by another user")
               (VersionDetails (Report.version existingReport) version))
          else
            match statusCheck existingReport body with
            | Some response => (reports, response)
            | None =>
                let updatedReport :=
                  {| Report.id := Report.id existingReport;
                     Report.createdBy := Report.createdBy existingReport;
                     Report.createdAt := Report.createdAt existingReport;
                     Report.attachments := Report.attachments existingReport;
                     Report.title :=
                       default (Report.title existingReport)
                               (UpdateReportDTO.title body);
                     Report.description :=
                       default (Report.description existingReport)
                               (UpdateReportDTO.description body);
                     Report.status :=
                       default (Report.status existingReport)
                               (UpdateReportDTO.status body);
                     Report.metadata :=
                       match UpdateReportDTO.metadata body with
                       | Some metadata =>
                           ReportMetadata.spread
                             (Report.metadata existingReport) metadata
                       | None => Report.metadata existingReport
                       end;
                     Report.entries :=
                       default (Report.entries existingReport)
                               (UpdateReportDTO.entries body);
                     Report.updatedAt := now;
                     Report.version := Report.version existingReport + 1 |} in
                (DataStore.updateReport id updatedReport reports,
                 {| Response.statusCode := 200;
                    Response.location := None;
                    Response.body := ReportJson updatedReport |})
            end
      end
  end.

(** The double quote. *)
Definition dquote : string := String (Ascii.ascii_of_nat 34) EmptyString.

(** What one call of [uploadAttachment] takes from its environment. *)
Module Env.
Record t := mk {
  now : Z;                     (* new Date() and Date.now() *)
  uuid : string;               (* the result of uuidv4() *)
  sha256hex : string → string; (* hexadecimal SHA-256 digest *)
  secret : string              (* process.env.JWT_SECRET || 'secret' *)
}.
End Env.

(** [uploadAttachment]: [file] is [req.file]. *)
Definition uploadAttachment (env : Env.t) (user : User.t) (id : string)
    (file : option MulterFile.t)
    (reports : gmap string Report.t)
    (files : gmap string (FileMetadata.t * list Z))
  : gmap string Report.t * gmap string (FileMetadata.t * list Z) * Response.t :=
  match file with
  | None =>
      (reports, files,
       errorResponse 400 "NO_FILE"
         (Some ("No file uploaded. Use " +:+ dquote +:+ "file" +:+ dquote
                +:+ " as the field name"))
         NoDetails)
  | Some file =>
      match DataStore.getReport id reports with
      | None =>
          (reports, files,
           errorResponse 404 "NOT_FOUND" (Some "Report not found") NoDetails)
      | Some report =>
          if negb (FileStorageService.validateFileType (MulterFile.mimetype file))
          then
            (reports, files,
             errorResponse 400 "INVALID_FILE_TYPE"
               (Some ("File type '" +:+ MulterFile.mimetype file
                      +:+ "' is not allowed"))
               (FileTypeDetails
                  ["pdf"; "jpeg"; "png"; "gif"; "doc"; "docx"; "xls"; "xlsx";
                   "txt"; "csv"]
                  (MulterFile.mimetype file)))
          else if negb (FileStorageService.validateFileSize (MulterFile.size file))
          then
            (reports, files,
             errorResponse 400 "FILE_TOO_LARGE"
               (Some "File size exceeds 5MB limit")
               (FileSizeDetails "5MB" (MulterFile.size file)))
          else
            let '(files, metadata) :=
              FileStorageService.storeFile (Env.uuid env) (Env.now env)
                file id (User.id user) files in
            (* report.attachments.push(metadata.id); report.updatedAt = new Date() *)
            let report :=
              Report.mk (Report.id report) (Report.title report)
                (Report.description report) (Report.status report)
                (Report.createdBy report) (Report.createdAt report)
                (Env.now env) (Report.version report) (Report.entries report)
                (Report.metadata report)
                (Report.attachments report ++ [FileMetadata.id metadata]) in
            let reports := DataStore.updateReport id report reports in
            let downloadUrl :=
              FileStorageService.generateDownloadUrl (Env.sha256hex env)
                (Env.secret env) (Env.now env) (FileMetadata.id metadata) 3600 in
            (reports, files,
             {| Response.statusCode := 201;
                Response.location := None;
                Response.body :=
                  AttachmentJson
                    {| AttachmentBody.id := FileMetadata.id metadata;
                       AttachmentBody.fileName := FileMetadata.originalName metadata;
                       AttachmentBody.size := FileMetadata.size metadata;
                       AttachmentBody.mimeType := FileMetadata.mimeType metadata;
                       AttachmentBody.uploadedAt := FileMetadata.uploadedAt metadata;
                       AttachmentBody.uploadedBy := User.username user;
                       AttachmentBody.downloadUrl := downloadUrl;
                       AttachmentBody.expiresIn := 3600 |} |})
      end
  end.

(** The fields of a task that its creator seeds and that describe its
    retry budget. *)
Definition seed (task : Task.t) : TaskType * Z * Z :=
  (Task.type task, Task.attempts task, Task.maxAttempts task).

(** ** Sample data, used to instantiate the properties below *)

Definition sampleEntry (id : string) (priority : Priority) : ReportEntry.t :=
  ReportEntry.mk id "text" priority 0 0 [] [].

Definition sampleMetadata : ReportMetadata.t :=
  ReportMetadata.mk "Sales" internal 20 None None.

Definition sampleReport (status : ReportStatus) (version : Z)
    (entries : list ReportEntry.t) : Report.t :=
  Report.mk "r1" "Q4" "Quarterly" status "u1" 0 0 version entries
            sampleMetadata [].

Definition sampleReport' (status : ReportStatus) (updatedAt version : Z)
    (entries : list ReportEntry.t) : Report.t :=
  Report.mk "r1" "Q4" "Quarterly" status "u1" 0 updatedAt version entries
            sampleMetadata [].

Definition sampleUpdate (status : option ReportStatus)
    (entries : option (list ReportEntry.t)) (version : option Z)
  : UpdateReportDTO.t :=
  UpdateReportDTO.mk None None status None entries version.

Definition sampleUser : User.t := User.mk "u1" "editor1".

Definition sampleFile : MulterFile.t :=
  MulterFile.mk "document.pdf" "application/pdf" 245678 [37; 80; 68; 70].

Definition sampleEnv : Env.t := Env.mk 1000 "f1" (λ s, s) "secret".

Definition sampleCreate : CreateReportDTO.t :=
  CreateReportDTO.mk (Some "Q4 Sales Report") (Some "Quarterly analysis") None.

(** A task whose handler throws ([null] payload) and one whose handler
    succeeds. *)
Definition failingTask (maxAttempts : Z) : Task.t :=
  Task.mk "t1" INVALIDATE_CACHE JsNull PENDING 0 maxAttempts 0 None None.

Definition goodTask : Task.t :=
  Task.mk "t2" SEND_NOTIFICATION (JsObject [("reportId", JsString "r1")])
          PENDING 0 3 0 None None.

(** The queue after [failingTask 1] was enqueued at time 0 and its only
    attempt has failed: the task is dead-lettered. *)
Definition deadLetteredState : AsyncTaskQueue :=
  mkQueue
    [Task.mk "t1" INVALIDATE_CACHE JsNull DEAD_LETTER 1 1 0 None
             (Some "Cannot read properties of null (reading 'cacheKey')")]
    [] true [0%nat] [mkTimer 300 Poll] 200.

(** The queue in which [failingTask 3] is being processed. *)
Definition processingState : AsyncTaskQueue :=
  mkQueue
    [Task.mk "t1" INVALIDATE_CACHE JsNull PROCESSING 0 3 0 None None]
    [] true [] [mkTimer 200 (HandlerDone 0)] 0.

(** ** File storage: reading back *)

(** [FileStorageService.getFile] *)
Definition getFile (fileId : string)
    (files : gmap string (FileMetadata.t * list Z))
  : option (FileMetadata.t * list Z) := files !! fileId.

(** [FileStorageService.verifyDownloadUrl]: [now] is [Date.now()];
    [sha256hex] and [secret] are as for [generateDownloadUrl]. *)
Definition verifyDownloadUrl (sha256hex : string → string) (secret : string)
    (now : Z) (fileId token : string) (expires : Z) : bool :=
  if bool_decide (now > expires) then false
  else
    let expectedSignature :=
      String.substring 0 16
        (sha256hex (fileId +:+ "-" +:+ pretty expires +:+ "-" +:+ secret)) in
    bool_decide (token = expectedSignature).

(** ** The [DataStore] class *)

(** A JavaScript [Map] with string keys: the entries in insertion order,
    each key once.  [set] on a key that is present replaces the value in
    place; on a new key it appends. *)
Module JsMap.
Definition t (V : Type) : Type := list (string * V).

Fixpoint get {V} (key : string) (m : t V) : option V :=
  match m with
  | [] => None
  | (k, v) :: m => if decide (key = k) then Some v else get key m
  end.

Definition has {V} (key : string) (m : t V) : bool :=
  bool_decide (is_Some (get key m)).

Fixpoint set {V} (key : string) (value : V) (m : t V) : t V :=
  match m with
  | [] => [(key, value)]
  | (k, v) :: m =>
      if decide (key = k) then (k, value) :: m else (k, v) :: set key value m
  end.

Fixpoint delete {V} (key : string) (m : t V) : t V :=
  match m with
  | [] => []
  | (k, v) :: m => if decide (key = k) then m else (k, v) :: delete key m
  end.

(** [Array.from(m.values())] *)
Definition values {V} (m : t V) : list V := m.*2.

Definition keys {V} (m : t V) : list string := m.*1.
End JsMap.

Inductive Role := READER | EDITOR | ADMIN.

#[global] Instance Role_eq_dec : EqDecision Role.
Proof. solve_decision. Defined.

(** The interface [User] of [models/User.ts]: a stored account. *)
Module UserAccount.
Record t := mk {
  id : string;
  username : string;
  password : string;
  role : Role;
  createdAt : Z
}.
End UserAccount.

Module AuthUser.
Record t := mk {
  id : string;
  username : string;
  role : Role
}.

(** What the report controllers read of [req.user]. *)
Definition toUser (user : t) : User.t := User.mk (id user) (username user).
End AuthUser.

(** The class [DataStore] as it is written ([storage/DataStore.ts]). *)
Module DataStoreClass.
Record t := mk {
  reports : JsMap.t Report.t;
  users : JsMap.t UserAccount.t;
  attachments : JsMap.t JsValue
}.

Definition empty : t := mk [] [] [].

Definition createReport (report : Report.t) (store : t) : t * Report.t :=
  (mk (JsMap.set (Report.id report) report (reports store))
      (users store) (attachments store),
   report).

Definition getReport (id : string) (store : t) : option Report.t :=
  JsMap.get id (reports store).

Definition updateReport (id : string) (report : Report.t) (store : t)
  : t * option Report.t :=
  if negb (JsMap.has id (reports store)) then (store, None)
  else
    (mk (JsMap.set id report (reports store)) (users store) (attachments store),
     Some report).

Definition deleteReport (id : string) (store : t) : t * bool :=
  (mk (JsMap.delete id (reports store)) (users store) (attachments store),
   JsMap.has id (reports store)).


Definition createUser (user : UserAccount.t) (store : t) : t * UserAccount.t :=
  (mk (reports store)
      (JsMap.set (UserAccount.id user) user (users store))
      (attachments store),
   user).

(** [Array.from(this.users.values()).find(user => user.username === username)] *)
Definition getUserByUsername (username : string) (store : t)
  : option UserAccount.t :=
  snd <$> list_find (λ user, UserAccount.username user = username)
                    (JsMap.values (users store)).

Definition getUserById (id : string) (store : t) : option UserAccount.t :=
  JsMap.get id (users store).

Definition saveAttachment (id : string) (metadata : JsValue) (store : t) : t :=
  mk (reports store) (users store) (JsMap.set id metadata (attachments store)).

Definition getAttachment (id : string) (store : t) : option JsValue :=
  JsMap.get id (attachments store).

(** The reports as the finite map the controllers above work on. *)
Definition reportsMap (store : t) : gmap string Report.t :=
  list_to_map (reports store).
End DataStoreClass.
(** ** Authentication and authorization ([middleware/auth.ts]) *)

(** The functions of [utils/auth.ts]; each is a call into [bcrypt] or
    [jsonwebtoken] with the secret and the time of the call, and is taken
    here as given. *)
Module Crypto.
Record t := mk {
  hashPassword : string → string;
  comparePassword : string → string → bool;
  generateToken : AuthUser.t → string;
  verifyToken : string → option AuthUser.t
}.
End Crypto.

(** [authenticate]: [authorization] is [req.headers.authorization]; the
    result is the response sent, or the user [next()] is called with. *)
Definition authenticate (crypto : Crypto.t) (authorization : option string)
  : Response.t + AuthUser.t :=
  match authorization with
  | None =>
      inl (errorResponse 401 "UNAUTHORIZED" (Some "No token provided") NoDetails)
  | Some authHeader =>
      if negb (truthy (Some authHeader)) || negb (String.prefix "Bearer " authHeader)
      then
        inl (errorResponse 401 "UNAUTHORIZED" (Some "No token provided") NoDetails)
      else
        let token :=
          String.substring 7 (String.length authHeader - 7) authHeader in
        match Crypto.verifyToken crypto token with
        | None =>
            inl (errorResponse 401 "INVALID_TOKEN"
                   (Some "Invalid or expired token") NoDetails)
        | Some user => inr user
        end
  end.

(** [authorize(...allowedRoles)]: [None] stands for [next()]. *)
Definition authorize (allowedRoles : list Role) (user : option AuthUser.t)
  : option Response.t :=
  match user with
  | None =>
      Some (errorResponse 401 "UNAUTHORIZED" (Some "Not authenticated") NoDetails)
  | Some user =>
      if negb (bool_decide (AuthUser.role user ∈ allowedRoles)) then
        Some (errorResponse 403 "FORBIDDEN" (Some "Insufficient permissions")
                NoDetails)
      else None
  end.

(** ** The routes on reports ([routes/reportRoutes.ts]) *)

(** A chain [authenticate, authorize(...), handler]: the first middleware
    that responds ends the request, with the state as it was. *)
Definition guarded {S} (crypto : Crypto.t) (allowedRoles : list Role)
    (authorization : option string) (state : S)
    (handler : AuthUser.t → S * Response.t) : S * Response.t :=
  match authenticate crypto authorization with
  | inl response => (state, response)
  | inr user =>
      match authorize allowedRoles (Some user) with
      | Some response => (state, response)
      | None => handler user
      end
  end.

(** [router.post('/', authenticate, authorize(EDITOR, ADMIN), createReport)] *)
Definition postReportRoute (crypto : Crypto.t) (authorization : option string)
    (uuid : string) (body : CreateReportDTO.t)
    (reports : gmap string Report.t) (taskQueue : AsyncTaskQueue)
  : gmap string Report.t * AsyncTaskQueue * Response.t :=
  guarded crypto [EDITOR; ADMIN] authorization (reports, taskQueue)
    (λ user, createReport uuid (AuthUser.toUser user) body reports taskQueue).

(** [router.put('/:id', authenticate, authorize(EDITOR, ADMIN), updateReport)] *)
Definition putReportRoute (crypto : Crypto.t) (authorization : option string)
    (now : Z) (id : string) (body : UpdateReportDTO.t)
    (reports : gmap string Report.t) : gmap string Report.t * Response.t :=
  guarded crypto [EDITOR; ADMIN] authorization reports
    (λ _, updateReport now id body reports).

(** [router.post('/:id/attachment', authenticate, authorize(EDITOR, ADMIN),
    uploadMiddleware, uploadAttachment)]; [file] is what the upload
    middleware leaves in [req.file]. *)
Definition postAttachmentRoute (crypto : Crypto.t)
    (authorization : option string) (env : Env.t) (id : string)
    (file : option MulterFile.t) (reports : gmap string Report.t)
    (files : gmap string (FileMetadata.t * list Z))
  : gmap string Report.t * gmap string (FileMetadata.t * list Z) * Response.t :=
  guarded crypto [EDITOR; ADMIN] authorization (reports, files)
    (λ user,
       uploadAttachment env (AuthUser.toUser user) id file reports files).

(** ** Registration and login ([controllers/authController.ts]) *)

Module Credentials.
Record t := mk {
  username : option string;
  password : option string;
  role : option Role
}.
End Credentials.

(** What [register] and [login] send: an error payload, or the user with a
    token. *)
Inductive AuthResult :=
  | AuthError (response : Response.t)
  | AuthGranted (statusCode : Z) (user : AuthUser.t) (token : string).

(** A registration that has passed its checks and awaits the hash of the
    password. *)
Module PendingRegistration.
Record t := mk {
  username : string;
  password : string;
  role : option Role
}.
End PendingRegistration.

(** [register] up to [await hashPassword(password)]: the answer, when one
    of the checks fails, or what the rest of the function goes on with. *)
Definition register_check (body : Credentials.t) (store : DataStoreClass.t)
  : Response.t + PendingRegistration.t :=
  let username := Credentials.username body in
  let password := Credentials.password body in
  if negb (truthy username) || negb (truthy password) then
    inl (errorResponse 400 "VALIDATION_ERROR"
           (Some "Username and password are required") NoDetails)
  else
    (* both are present here: they are truthy *)
    let username := default "" username in
    let password := default "" password in
    match DataStoreClass.getUserByUsername username store with
    | Some existingUser =>
        inl (errorResponse 409 "USER_EXISTS"
               (Some "Username already taken") NoDetails)
    | None =>
        inr (PendingRegistration.mk username password (Credentials.role body))
    end.

(** [register] from the point where the hash has been computed: [uuid] is
    the result of [uuidv4()], [now] of [new Date()], [store] the store as
    it is by then. *)
Definition register_resume (crypto : Crypto.t) (uuid : string) (now : Z)
    (pending : PendingRegistration.t) (store : DataStoreClass.t)
  : DataStoreClass.t * AuthResult :=
  let hashedPassword :=
    Crypto.hashPassword crypto (PendingRegistration.password pending) in
  let newUser :=
    {| UserAccount.id := uuid;
       UserAccount.username := PendingRegistration.username pending;
       UserAccount.password := hashedPassword;
       UserAccount.role := default READER (PendingRegistration.role pending);
       UserAccount.createdAt := now |} in
  let store := (DataStoreClass.createUser newUser store).1 in
  let authUser :=
    AuthUser.mk (UserAccount.id newUser) (UserAccount.username newUser)
                (UserAccount.role newUser) in
  (store, AuthGranted 201 authUser (Crypto.generateToken crypto authUser)).

(** [register] when nothing else runs while it awaits the hash. *)
Definition register (crypto : Crypto.t) (uuid : string) (now : Z)
    (body : Credentials.t) (store : DataStoreClass.t)
  : DataStoreClass.t * AuthResult :=
  match register_check body store with
  | inl response => (store, AuthError response)
  | inr pending => register_resume crypto uuid now pending store
  end.

Definition login (crypto : Crypto.t) (body : Credentials.t)
    (store : DataStoreClass.t) : AuthResult :=
  let username := Credentials.username body in
  let password := Credentials.password body in
  if negb (truthy username) || negb (truthy password) then
    AuthError (errorResponse 400 "VALIDATION_ERROR"
                 (Some "Username and password are required") NoDetails)
  else
    let username := default "" username in
    let password := default "" password in
    match DataStoreClass.getUserByUsername username store with
    | None =>
        AuthError (errorResponse 401 "INVALID_CREDENTIALS"
                     (Some "Invalid username or password") NoDetails)
    | Some user =>
        if negb (Crypto.comparePassword crypto password
                   (UserAccount.password user))
        then
          AuthError (errorResponse 401 "INVALID_CREDENTIALS"
                       (Some "Invalid username or password") NoDetails)
        else
          let authUser :=
            AuthUser.mk (UserAccount.id user) (UserAccount.username user)
                        (UserAccount.role user) in
          AuthGranted 200 authUser (Crypto.generateToken crypto authUser)
    end.

(** The usernames of the stored accounts, in the order of registration. *)
Definition usernames (store : DataStoreClass.t) : list string :=
  UserAccount.username <$> JsMap.values (DataStoreClass.users store).

(** ** Reading a report ([getReport]) *)

(** [Array.prototype.slice(start, end)] for integer arguments: a negative
    index counts from the end, and both are clamped to the array. *)
Definition jsSlice {A} (start end_ : Z) (l : list A) : list A :=
  let len := Z.of_nat (length l) in
  let k :=
    if bool_decide (start < 0) then Z.max (len + start) 0 else Z.min start len in
  let final :=
    if bool_decide (end_ < 0) then Z.max (len + end_) 0 else Z.min end_ len in
  take (Z.to_nat (final - k)) (drop (Z.to_nat k) l).

(** [s.split(sep)] for a separator of one character. *)
Fixpoint split (sep : Ascii.ascii) (s : string) : list string :=
  match s with
  | EmptyString => [EmptyString]
  | String c s =>
      if Ascii.eqb c sep then EmptyString :: split sep s
      else
        match split sep s with
        | x :: xs => String c x :: xs
        | [] => [String c EmptyString]
        end
  end.

(** The separator of the [include] parameter. *)
Definition comma : Ascii.ascii := Ascii.ascii_of_nat 44.

(** [entries.filter(e => e.priority === p).length] *)
Definition priorityCount (p : Priority) (entries : list ReportEntry.t) : nat :=
  length (filter (λ e, ReportEntry.priority e = p) entries).

Module Summary.
Record t := mk {
  id : string;
  title : string;
  status : ReportStatus;
  createdAt : Z;
  updatedAt : Z;
  entryCount : nat;
  department : string
}.
End Summary.

Module Computed.
Record t := mk {
  totalEntries : nat;
  highPriorityCount : nat;
  mediumPriorityCount : nat;
  lowPriorityCount : nat;
  totalComments : nat
}.
End Computed.

(** A number that is [NaN] or infinite is [None]; it is serialized as
    [null]. *)
Module Pagination.
Record t := mk {
  page : option Z;
  size : option Z;
  total : nat;
  totalPages : option Z
}.
End Pagination.

Module EntriesPage.
Record t := mk {
  data : list ReportEntry.t;
  pagination : Pagination.t
}.
End EntriesPage.

Module FullView.
Record t := mk {
  id : string;
  title : string;
  description : string;
  status : ReportStatus;
  createdBy : string;
  createdAt : Z;
  updatedAt : Z;
  version : Z;
  computed : Computed.t;
  entries : option EntriesPage.t;
  metadata : option ReportMetadata.t;
  attachments : option (list string)
}.
End FullView.

Inductive GetReportResult :=
  | GetError (response : Response.t)
  | GetSummary (summary : Summary.t)
  | GetFull (view : FullView.t).

(** [response.computed] *)
Definition computedFields (report : Report.t) : Computed.t :=
  {| Computed.totalEntries := length (Report.entries report);
     Computed.highPriorityCount := priorityCount HIGH (Report.entries report);
     Computed.mediumPriorityCount := priorityCount MEDIUM (Report.entries report);
     Computed.lowPriorityCount := priorityCount LOW (Report.entries report);
     Computed.totalComments :=
       foldl (λ sum entry, (sum + length (ReportEntry.comments entry))%nat)
             0%nat (Report.entries report) |}.

(** [response.entries]: [pageNum] and [pageSize] are what [parseInt]
    returns for the [page] and [size] parameters ([None] for [NaN]).
    Arithmetic on [NaN] gives [NaN], [slice] takes [NaN] for 0, and
    [Math.ceil] of a division by 0 is infinite or [NaN]. *)
Definition entriesPage (entries : list ReportEntry.t)
    (pageNum pageSize : option Z) : EntriesPage.t :=
  let startIndex :=
    match pageNum, pageSize with
    | Some pageNum, Some pageSize => Some ((pageNum - 1) * pageSize)
    | _, _ => None
    end in
  let endIndex :=
    match startIndex, pageSize with
    | Some startIndex, Some pageSize => Some (startIndex + pageSize)
    | _, _ => None
    end in
  {| EntriesPage.data :=
       jsSlice (default 0 startIndex) (default 0 endIndex) entries;
     EntriesPage.pagination :=
       {| Pagination.page := pageNum;
          Pagination.size := pageSize;
          Pagination.total := length entries;
          Pagination.totalPages :=
            match pageSize with
            | Some pageSize =>
                if bool_decide (pageSize = 0) then None
                else Some (- ((- Z.of_nat (length entries)) `div` pageSize))
            | None => None
            end |} |}.

(** [getReport]: [view] and [include] are the query parameters. *)
Definition getReport (id : string) (view include : option string)
    (pageNum pageSize : option Z) (reports : gmap string Report.t)
  : GetReportResult :=
  match DataStore.getReport id reports with
  | None =>
      GetError (errorResponse 404 "NOT_FOUND" (Some "Report not found") NoDetails)
  | Some report =>
      if bool_decide (view = Some "summary") then
        GetSummary
          {| Summary.id := Report.id report;
             Summary.title := Report.title report;
             Summary.status := Report.status report;
             Summary.createdAt := Report.createdAt report;
             Summary.updatedAt := Report.updatedAt report;
             Summary.entryCount := length (Report.entries report);
             Summary.department :=
               ReportMetadata.department (Report.metadata report) |}
      else
        let includeFields :=
          if truthy include then split comma (default "" include) else [] in
        let included name :=
          bool_decide (length includeFields = 0%nat)
          || bool_decide (name ∈ includeFields) in
        GetFull
          {| FullView.id := Report.id report;
             FullView.title := Report.title report;
             FullView.description := Report.description report;
             FullView.status := Report.status report;
             FullView.createdBy := Report.createdBy report;
             FullView.createdAt := Report.createdAt report;
             FullView.updatedAt := Report.updatedAt report;
             FullView.version := Report.version report;
             FullView.computed := computedFields report;
             FullView.entries :=
               if included "entries"
               then Some (entriesPage (Report.entries report) pageNum pageSize)
               else None;
             FullView.metadata :=
               if included "metadata" then Some (Report.metadata report)
               else None;
             FullView.attachments :=
               if included "attachments" then Some (Report.attachments report)
               else None |}
  end.

(** [router.get('/:id', authenticate, getReport)] *)
Definition getReportRoute (crypto : Crypto.t) (authorization : option string)
    (id : string) (view include : option string) (pageNum pageSize : option Z)
    (reports : gmap string Report.t) : GetReportResult :=
  match authenticate crypto authorization with
  | inl response => GetError response
  | inr _ => getReport id view include pageNum pageSize reports
  end.

(** ** Task queue: where a task is *)

(** The callbacks that keep the driver going: the continuation of an
    attempt and the timer for the next round. *)
Definition isDriver (cb : Callback) : bool :=
  match cb with
  | Reinsert _ => false
  | _ => true
  end.

Definition driverCount (ts : list Timer) : nat :=
  length (filter (λ tm, isDriver (callback tm) = true) ts).

(** The tasks being attempted, and those waiting for their retry. *)
Fixpoint inFlight (ts : list Timer) : list nat :=
  match ts with
  | [] => []
  | tm :: ts =>
      match callback tm with
      | HandlerDone task => task :: inFlight ts
      | _ => inFlight ts
      end
  end.

Fixpoint awaitingRetry (ts : list Timer) : list nat :=
  match ts with
  | [] => []
  | tm :: ts =>
      match callback tm with
      | Reinsert task => task :: awaitingRetry ts
      | _ => awaitingRetry ts
      end
  end.

Inductive Place := Queued | InFlight | AwaitingRetry | DeadLettered | Released.

Definition place (q : AsyncTaskQueue) (task : nat) : Place :=
  if decide (task ∈ deadLetterQueue q) then DeadLettered
  else if decide (task ∈ queue q) then Queued
  else if decide (task ∈ inFlight (timers q)) then InFlight
  else if decide (task ∈ awaitingRetry (timers q)) then AwaitingRetry
  else Released.

(** What the status and the attempt counter of a task must be, given where
    the task is. *)
Definition consistent (p : Place) (t : Task.t) : Prop :=
  match p with
  | Queued =>
      (Task.status t = PENDING ∨ Task.status t = FAILED)
      ∧ Task.attempts t < Task.maxAttempts t
  | InFlight =>
      Task.status t = PROCESSING ∧ Task.attempts t < Task.maxAttempts t
  | AwaitingRetry =>
      Task.status t = FAILED ∧ Task.attempts t < Task.maxAttempts t
  | DeadLettered =>
      Task.status t = DEAD_LETTER ∧ Task.attempts t = Task.maxAttempts t
  | Released =>
      Task.status t = COMPLETED ∧ Task.attempts t < Task.maxAttempts t
  end.

Definition consistent_state (q : AsyncTaskQueue) : Prop :=
  ∀ task t, objects q !! task = Some t → consistent (place q task) t.

(** A task as its creator passes it: pending, with attempts left. *)
Definition freshTask (t : Task.t) : Prop :=
  Task.status t = PENDING ∧ Task.attempts t < Task.maxAttempts t.

Definition freshEvent (ev : Event) : Prop :=
  match ev with
  | Fire => True
  | Enqueue _ t => freshTask t
  end.

(** The driver is running exactly when one of its callbacks is pending. *)
Definition one_driver (q : AsyncTaskQueue) : Prop :=
  driverCount (timers q) = if processing q then 1%nat else 0%nat.

(** The queue after the only attempt so far of [failingTask 2] has failed
    and the driver has stopped; the retry is still to come. *)
Definition stalledState : AsyncTaskQueue :=
  mkQueue
    [Task.mk "t1" INVALIDATE_CACHE JsNull FAILED 1 2 0 None
             (Some "Cannot read properties of null (reading 'cacheKey')")]
    [] false [] [mkTimer 2200 (Reinsert 0)] 300.

(** Stand-ins for [bcrypt] and [jsonwebtoken], to instantiate the
    properties below. *)
Definition sampleCrypto : Crypto.t :=
  Crypto.mk (λ password, "h:" +:+ password)
            (λ password hash, bool_decide (hash = "h:" +:+ password))
            (λ user, "token-" +:+ AuthUser.id user)
            (λ token, None).

(** * Properties *)

(** ** Status-transition validator *)

Example archiveErrorMessage_2 :
  archiveErrorMessage 2 =
  "Cannot archive published report: requires at least 3 high-priority entries (currently has 2)".
Proof. reflexivity. Qed.

Lemma app_singleton_inj (c : Ascii.ascii) (s1 s2 : string) :
  s1 +:+ String c "" = s2 +:+ String c "" → s1 = s2.
Proof.
  revert s2. induction s1 as [|a s1 IH]; intros [|b s2]; simpl; intros H.
  - done.
  - injection H as _ H. destruct s2; discriminate.
  - injection H as _ H. destruct s1; discriminate.
  - injection H as -> H. f_equal. by apply IH.
Qed.

(** The message determines the count it reports. *)
Lemma archiveErrorMessage_inj (m n : nat) :
  archiveErrorMessage m = archiveErrorMessage n → m = n.
Proof.
  unfold archiveErrorMessage. intros H.
  apply (inj (String.app _)) in H.
  apply app_singleton_inj in H.
  by apply (inj pretty) in H.
Qed.

Lemma validateArchiveTransition_other (report : Report.t) (newStatus : ReportStatus) :
  newStatus ≠ ARCHIVED → validateArchiveTransition report newStatus = ValidationResult.ok.
Proof.
  intros H. unfold validateArchiveTransition. by rewrite bool_decide_eq_true_2.
Qed.

Lemma validatePublishTransition_other (report : Report.t) (newStatus : ReportStatus) :
  newStatus ≠ PUBLISHED → validatePublishTransition report newStatus = ValidationResult.ok.
Proof.
  intros H. unfold validatePublishTransition. by rewrite bool_decide_eq_true_2.
Qed.

(** The two rules never reject the same request: the archive rule rejects
    only a change to [ARCHIVED], the publish rule only a change to
    [PUBLISHED]. *)
Lemma rules_exclusive (report : Report.t) (newStatus : ReportStatus) :
  ValidationResult.valid (validateArchiveTransition report newStatus) = false →
  ValidationResult.valid (validatePublishTransition report newStatus) = true.
Proof.
  by destruct newStatus.
Qed.

(** C10: for the requested status [DRAFT] neither the archive rule nor the
    publish rule applies, so the validator accepts the change for every
    report, and [updateReport] never rejects a request to move to [DRAFT] on
    business-rule grounds. *)
Theorem draft_always_valid (report : Report.t) :
  validateArchiveTransition report DRAFT = ValidationResult.ok
  ∧ validatePublishTransition report DRAFT = ValidationResult.ok
  ∧ validateStatusTransition report DRAFT = ValidationResult.ok
  ∧ ValidationResult.valid (validateStatusTransition report DRAFT) = true
  ∧ ∀ title description metadata entries version,
      statusCheck report
        (UpdateReportDTO.mk title description (Some DRAFT) metadata entries version)
      = None.
Proof.
  repeat split; try reflexivity.
  intros. unfold statusCheck; simpl. by case_bool_decide.
Qed.

(** C7: the validator applies the archive rule before the publish rule and
    the first failure is the result; a change to [PUBLISHED] with no
    candidate entries is rejected with code [NO_ENTRIES]; with one or more
    candidate entries the publish rule accepts. *)
Theorem publish_rule (report : Report.t) (newStatus : ReportStatus) :
  (ValidationResult.valid (validateArchiveTransition report newStatus) = false →
   validateStatusTransition report newStatus
   = validateArchiveTransition report newStatus)
  ∧ (ValidationResult.valid (validateArchiveTransition report newStatus) = true →
     validateStatusTransition report newStatus
     = validatePublishTransition report newStatus)
  ∧ (newStatus = PUBLISHED → Report.entries report = [] →
     validateStatusTransition report newStatus
     = {| ValidationResult.valid := false;
          ValidationResult.code := Some "NO_ENTRIES";
          ValidationResult.error :=
            Some "Cannot publish report: must have at least one entry" |})
  ∧ (Report.entries report ≠ [] →
     validatePublishTransition report newStatus = ValidationResult.ok).
Proof.
  split; [|split; [|split]].
  - intros H. unfold validateStatusTransition. by rewrite H.
  - intros H. unfold validateStatusTransition. rewrite H. simpl.
    by destruct (validatePublishTransition report newStatus) as [[] ? ?] eqn:E;
      simpl; [unfold validatePublishTransition in E;
              repeat case_bool_decide; by inversion E|].
  - intros -> H. unfold validateStatusTransition, validatePublishTransition.
    rewrite H. reflexivity.
  - intros H. unfold validatePublishTransition.
    case_bool_decide; [done|].
    rewrite bool_decide_eq_false_2; [done|].
    by destruct (Report.entries report).
Qed.

Lemma publish_rule_witness :
  validateStatusTransition (sampleReport DRAFT 1 []) PUBLISHED
  = {| ValidationResult.valid := false;
       ValidationResult.code := Some "NO_ENTRIES";
       ValidationResult.error :=
         Some "Cannot publish report: must have at least one entry" |}
  ∧ validatePublishTransition
      (sampleReport DRAFT 1 [sampleEntry "e1" LOW]) PUBLISHED
    = ValidationResult.ok
  ∧ validateStatusTransition
      (sampleReport PUBLISHED 1 [sampleEntry "e1" LOW]) ARCHIVED
    = validateArchiveTransition
        (sampleReport PUBLISHED 1 [sampleEntry "e1" LOW]) ARCHIVED
  ∧ validateStatusTransition (sampleReport DRAFT 1 []) DRAFT
    = validatePublishTransition (sampleReport DRAFT 1 []) DRAFT.
Proof.
  split; [|split; [|split]].
  - apply (publish_rule (sampleReport DRAFT 1 []) PUBLISHED); reflexivity.
  - apply (publish_rule (sampleReport DRAFT 1 [sampleEntry "e1" LOW]) PUBLISHED).
    simpl. intros H. discriminate H.
  - apply (publish_rule (sampleReport PUBLISHED 1 [sampleEntry "e1" LOW]) ARCHIVED).
    reflexivity.
  - apply (proj1 (proj2 (publish_rule (sampleReport DRAFT 1 []) DRAFT))).
    reflexivity.
Defined.

(** ** Report mutation *)

(** C3: an update that asks for [ARCHIVED] on a [PUBLISHED] report counts
    the high-priority entries of the candidate entries (those of the request
    when it carries entries, the stored ones otherwise).  With fewer than 3
    the update is rejected with code [INSUFFICIENT_HIGH_PRIORITY_ENTRIES] and
    a message that reports the count, the store untouched; with 3 or more
    the archive rule accepts and the update goes through. *)
Theorem archive_rule (now : Z) (id : string) (body : UpdateReportDTO.t)
    (reports : gmap string Report.t) (existingReport : Report.t) :
  DataStore.getReport id reports = Some existingReport →
  UpdateReportDTO.version body = Some (Report.version existingReport) →
  Report.status existingReport = PUBLISHED →
  UpdateReportDTO.status body = Some ARCHIVED →
  let candidate :=
    default (Report.entries existingReport) (UpdateReportDTO.entries body) in
  let count := highPriorityCount candidate in
  ((count < 3)%nat →
   updateReport now id body reports
   = (reports,
      errorResponse 400 "INSUFFICIENT_HIGH_PRIORITY_ENTRIES"
        (Some (archiveErrorMessage count))
        (StatusDetails PUBLISHED ARCHIVED)))
  ∧ ((3 ≤ count)%nat →
     validateArchiveTransition (reportForValidation existingReport body) ARCHIVED
     = ValidationResult.ok
     ∧ ∃ updatedReport,
         updateReport now id body reports
         = (<[id := updatedReport]> reports,
            Response.mk 200 None (ReportJson updatedReport))
         ∧ Report.status updatedReport = ARCHIVED
         ∧ Report.entries updatedReport = candidate
         ∧ Report.version updatedReport = Report.version existingReport + 1).
Proof.
  intros Hget Hver Hpub Harch candidate count.
  unfold updateReport, statusCheck. rewrite Hver, Hget, Harch, Hpub.
  rewrite (bool_decide_eq_false_2 (_ ≠ _)) by (intros H; by apply H).
  rewrite (bool_decide_eq_true_2 (ARCHIVED ≠ PUBLISHED)) by done.
  unfold validateStatusTransition, validateArchiveTransition.
  simpl. rewrite Hpub. simpl. fold candidate. fold count.
  split; intros Hcount.
  - by rewrite bool_decide_eq_true_2.
  - rewrite bool_decide_eq_false_2 by lia. simpl.
    split; [done|]. eexists. split; [reflexivity|]. done.
Qed.

Lemma archive_rule_witness :
  let twoHigh :=
    [sampleEntry "e1" HIGH; sampleEntry "e2" HIGH; sampleEntry "e3" LOW] in
  let threeHigh := twoHigh ++ [sampleEntry "e4" HIGH] in
  let body := sampleUpdate (Some ARCHIVED) None (Some 1) in
  updateReport 5 "r1" body {["r1" := sampleReport PUBLISHED 1 twoHigh]}
  = ({["r1" := sampleReport PUBLISHED 1 twoHigh]},
     errorResponse 400 "INSUFFICIENT_HIGH_PRIORITY_ENTRIES"
       (Some "Cannot archive published report: requires at least 3 high-priority entries (currently has 2)")
       (StatusDetails PUBLISHED ARCHIVED))
  ∧ (validateArchiveTransition
       (reportForValidation (sampleReport PUBLISHED 1 threeHigh) body) ARCHIVED
     = ValidationResult.ok
     ∧ ∃ updatedReport,
         updateReport 5 "r1" body {["r1" := sampleReport PUBLISHED 1 threeHigh]}
         = (<["r1" := updatedReport]> {["r1" := sampleReport PUBLISHED 1 threeHigh]},
            Response.mk 200 None (ReportJson updatedReport))
         ∧ Report.status updatedReport = ARCHIVED
         ∧ Report.entries updatedReport = threeHigh
         ∧ Report.version updatedReport = 1 + 1).
Proof.
  intros twoHigh threeHigh body. split.
  - apply (archive_rule 5 "r1" body
             {["r1" := sampleReport PUBLISHED 1 twoHigh]}
             (sampleReport PUBLISHED 1 twoHigh)).
    + reflexivity.
    + reflexivity.
    + reflexivity.
    + reflexivity.
    + vm_compute. lia.
  - apply (archive_rule 5 "r1" body
             {["r1" := sampleReport PUBLISHED 1 threeHigh]}
             (sampleReport PUBLISHED 1 threeHigh)).
    + reflexivity.
    + reflexivity.
    + reflexivity.
    + reflexivity.
    + vm_compute. lia.
Defined.

(** The boundary of the archive rule: with exactly 3 high-priority entries
    the report is archived. *)
Example archive_exactly_three :
  let threeHigh :=
    [sampleEntry "e1" HIGH; sampleEntry "e2" HIGH; sampleEntry "e3" LOW;
     sampleEntry "e4" HIGH] in
  (updateReport 5 "r1" (sampleUpdate (Some ARCHIVED) None (Some 1))
     {["r1" := sampleReport PUBLISHED 1 threeHigh]}).2
  = Response.mk 200 None
      (ReportJson (Report.mk "r1" "Q4" "Quarterly" ARCHIVED "u1" 0 5 2
                     threeHigh sampleMetadata [])).
Proof. reflexivity. Qed.

(** At the level of [updateReport]: a version-matched request that moves a
    report to [PUBLISHED] with no candidate entries is rejected with code
    [NO_ENTRIES] and the store is untouched. *)
Lemma publish_without_entries (now : Z) (id : string)
    (body : UpdateReportDTO.t) (reports : gmap string Report.t)
    (existingReport : Report.t) :
  DataStore.getReport id reports = Some existingReport →
  UpdateReportDTO.version body = Some (Report.version existingReport) →
  Report.status existingReport ≠ PUBLISHED →
  UpdateReportDTO.status body = Some PUBLISHED →
  default (Report.entries existingReport) (UpdateReportDTO.entries body) = [] →
  updateReport now id body reports
  = (reports,
     errorResponse 400 "NO_ENTRIES"
       (Some "Cannot publish report: must have at least one entry")
       (StatusDetails (Report.status existingReport) PUBLISHED)).
Proof.
  intros Hget Hver Hst Hpub Hnil.
  unfold updateReport, statusCheck. rewrite Hver, Hget, Hpub.
  rewrite (bool_decide_eq_false_2 (_ ≠ _)) by (intros H; by apply H).
  rewrite (bool_decide_eq_true_2 (PUBLISHED ≠ _)) by done.
  unfold validateStatusTransition, validatePublishTransition,
    reportForValidation. cbn [Report.entries]. rewrite Hnil. done.
Qed.

(** A request that names the status the report already has is not
    validated: a published report can be left without entries. *)
Example publish_no_op_not_validated :
  (updateReport 5 "r1" (sampleUpdate (Some PUBLISHED) (Some []) (Some 1))
     {["r1" := sampleReport PUBLISHED 1 [sampleEntry "e1" LOW]]}).2
  = Response.mk 200 None (ReportJson (sampleReport' PUBLISHED 5 2 [])).
Proof. reflexivity. Qed.

(** C1: when the version the caller supplies differs from the stored one,
    [updateReport] answers 409 [CONFLICT] with the stored and the supplied
    version in the details, and the store, hence the stored report and its
    version, is what it was. *)
Theorem version_conflict (now : Z) (id : string) (body : UpdateReportDTO.t)
    (reports : gmap string Report.t) (existingReport : Report.t) (version : Z) :
  DataStore.getReport id reports = Some existingReport →
  UpdateReportDTO.version body = Some version →
  version ≠ Report.version existingReport →
  updateReport now id body reports
  = (reports,
     errorResponse 409 "CONFLICT"
       (Some "Report has been modified by another user")
       (VersionDetails (Report.version existingReport) version))
  ∧ DataStore.getReport id (updateReport now id body reports).1
    = Some existingReport.
Proof.
  intros Hget Hver Hne.
  assert (updateReport now id body reports
          = (reports,
             errorResponse 409 "CONFLICT"
               (Some "Report has been modified by another user")
               (VersionDetails (Report.version existingReport) version))) as E.
  { unfold updateReport. rewrite Hver, Hget.
    by rewrite bool_decide_eq_true_2. }
  by rewrite E.
Qed.

Lemma version_conflict_witness :
  updateReport 5 "r1" (sampleUpdate None None (Some 1))
    {["r1" := sampleReport DRAFT 3 []]}
  = ({["r1" := sampleReport DRAFT 3 []]},
     errorResponse 409 "CONFLICT"
       (Some "Report has been modified by another user")
       (VersionDetails 3 1))
  ∧ DataStore.getReport "r1"
      (updateReport 5 "r1" (sampleUpdate None None (Some 1))
         {["r1" := sampleReport DRAFT 3 []]}).1
    = Some (sampleReport DRAFT 3 []).
Proof.
  apply (version_conflict 5 "r1" (sampleUpdate None None (Some 1))
           {["r1" := sampleReport DRAFT 3 []]} (sampleReport DRAFT 3 []) 1).
  - reflexivity.
  - reflexivity.
  - simpl. lia.
Defined.

(** C6, as stated, fails: for a report that does not exist and a request
    without version the answer is not [NOT_FOUND]. *)
Lemma lookup_first_counterexample :
  ¬ (∀ now id body reports,
       DataStore.getReport id reports = None →
       UpdateReportDTO.version body = None →
       ∃ message details,
         (updateReport now id body reports).2
         = errorResponse 404 "NOT_FOUND" message details).
Proof.
  intros H.
  destruct (H 5 "r1" (sampleUpdate None None None) ∅) as (message & details & E).
  - reflexivity.
  - reflexivity.
  - discriminate E.
Qed.

(** C6, amended: [updateReport] first checks that the request carries a
    version and answers 400 [VALIDATION_ERROR] when it does not, whether the
    report exists or not; only then it looks the report up and answers 404
    [NOT_FOUND] when it is absent.  The store is untouched in both cases. *)
Theorem version_checked_first (now : Z) (id : string)
    (body : UpdateReportDTO.t) (reports : gmap string Report.t) :
  (UpdateReportDTO.version body = None →
   updateReport now id body reports
   = (reports,
      errorResponse 400 "VALIDATION_ERROR"
        (Some "Version number is required for optimistic locking") NoDetails))
  ∧ (∀ version,
       UpdateReportDTO.version body = Some version →
       DataStore.getReport id reports = None →
       updateReport now id body reports
       = (reports,
          errorResponse 404 "NOT_FOUND" (Some "Report not found") NoDetails)).
Proof.
  split.
  - intros Hver. unfold updateReport. by rewrite Hver.
  - intros version Hver Hget. unfold updateReport. by rewrite Hver, Hget.
Qed.

Lemma version_checked_first_witness :
  updateReport 5 "r1" (sampleUpdate None None None) ∅
  = (∅,
     errorResponse 400 "VALIDATION_ERROR"
       (Some "Version number is required for optimistic locking") NoDetails)
  ∧ updateReport 5 "r1" (sampleUpdate None None (Some 1)) ∅
    = (∅, errorResponse 404 "NOT_FOUND" (Some "Report not found") NoDetails).
Proof.
  split.
  - apply (proj1 (version_checked_first 5 "r1" (sampleUpdate None None None) ∅)).
    reflexivity.
  - apply (proj2 (version_checked_first 5 "r1"
                    (sampleUpdate None None (Some 1)) ∅) 1).
    + reflexivity.
    + reflexivity.
Defined.

Lemma statusCheck_statusCode (existingReport : Report.t)
    (body : UpdateReportDTO.t) (response : Response.t) :
  statusCheck existingReport body = Some response →
  Response.statusCode response = 400.
Proof.
  unfold statusCheck. intros H.
  destruct (UpdateReportDTO.status body); [|done].
  case_bool_decide; [|done].
  destruct (negb _); [|done].
  by injection H as <-.
Qed.

(** A successful [updateReport] replaces the stored report by one whose
    version is the stored version plus 1. *)
Lemma updateReport_success (now : Z) (id : string) (body : UpdateReportDTO.t)
    (reports : gmap string Report.t) :
  Response.statusCode (updateReport now id body reports).2 = 200 →
  ∃ r r',
    DataStore.getReport id reports = Some r
    ∧ (updateReport now id body reports).1 = <[id := r']> reports
    ∧ Report.version r' = Report.version r + 1
    ∧ UpdateReportDTO.version body = Some (Report.version r).
Proof.
  unfold updateReport.
  destruct (UpdateReportDTO.version body) as [version|]; [|done].
  destruct (DataStore.getReport id reports) as [r|] eqn:Hget; [|done].
  destruct (decide (Report.version r = version)) as [<-|Hne].
  - rewrite bool_decide_eq_false_2 by (intros H; by apply H).
    destruct (statusCheck r body) as [response|] eqn:Hcheck.
    + simpl. apply statusCheck_statusCode in Hcheck. by rewrite Hcheck.
    + simpl. intros _. exists r. eexists. by repeat split.
  - by rewrite bool_decide_eq_true_2.
Qed.

(** A rejected [updateReport] leaves the store as it was. *)
Lemma updateReport_rejected (now : Z) (id : string) (body : UpdateReportDTO.t)
    (reports : gmap string Report.t) :
  Response.statusCode (updateReport now id body reports).2 ≠ 200 →
  (updateReport now id body reports).1 = reports.
Proof.
  unfold updateReport.
  destruct (UpdateReportDTO.version body) as [version|]; [|done].
  destruct (DataStore.getReport id reports) as [r|]; [|done].
  case_bool_decide; [done|].
  by destruct (statusCheck r body).
Qed.

(** A successful [uploadAttachment] appends the identifier of the file to
    the attachments of the stored report and sets [updatedAt]; the version
    stays. *)
Lemma uploadAttachment_success (env : Env.t) (user : User.t) (id : string)
    (file : option MulterFile.t) (reports : gmap string Report.t)
    (files : gmap string (FileMetadata.t * list Z)) :
  Response.statusCode (uploadAttachment env user id file reports files).2 = 201 →
  ∃ r r',
    DataStore.getReport id reports = Some r
    ∧ (uploadAttachment env user id file reports files).1.1 = <[id := r']> reports
    ∧ Report.version r' = Report.version r
    ∧ Report.attachments r' = Report.attachments r ++ [Env.uuid env]
    ∧ Report.updatedAt r' = Env.now env.
Proof.
  unfold uploadAttachment.
  destruct file as [file|]; [|done].
  destruct (DataStore.getReport id reports) as [r|]; [|done].
  destruct (negb (FileStorageService.validateFileType _)); [done|].
  destruct (negb (FileStorageService.validateFileSize _)); [done|].
  simpl. intros _. exists r. eexists. by repeat split.
Qed.

Lemma uploadAttachment_rejected (env : Env.t) (user : User.t) (id : string)
    (file : option MulterFile.t) (reports : gmap string Report.t)
    (files : gmap string (FileMetadata.t * list Z)) :
  Response.statusCode (uploadAttachment env user id file reports files).2 ≠ 201 →
  (uploadAttachment env user id file reports files).1 = (reports, files).
Proof.
  unfold uploadAttachment.
  destruct file as [file|]; [|done].
  destruct (DataStore.getReport id reports) as [r|]; [|done].
  destruct (negb (FileStorageService.validateFileType _)); [done|].
  destruct (negb (FileStorageService.validateFileSize _)); [done|].
  done.
Qed.

(** C2, as stated, fails: a successful attachment upload changes the stored
    report and does not increment its version. *)
Lemma upload_version_counterexample :
  ¬ (∀ env user id file reports files r r',
       DataStore.getReport id reports = Some r →
       Response.statusCode
         (uploadAttachment env user id file reports files).2 = 201 →
       DataStore.getReport id
         (uploadAttachment env user id file reports files).1.1 = Some r' →
       Report.version r' = Report.version r + 1).
Proof.
  intros H.
  specialize (H sampleEnv sampleUser "r1" (Some sampleFile)
                {["r1" := sampleReport DRAFT 1 []]} ∅
                (sampleReport DRAFT 1 [])
                (Report.mk "r1" "Q4" "Quarterly" DRAFT "u1" 0 1000 1 []
                           sampleMetadata ["f1"])).
  assert (1 = 1 + 1) as E; [|discriminate E].
  apply H; reflexivity.
Qed.

(** C2, amended: a successful [updateReport] increments the version of the
    stored report by exactly 1 and a rejected one leaves the store as it
    was; a successful [uploadAttachment] changes the stored report (its
    attachments and [updatedAt]) and keeps its version, and a rejected one
    leaves the store as it was. *)
Theorem version_discipline (now : Z) (env : Env.t) (user : User.t)
    (id : string) (body : UpdateReportDTO.t) (file : option MulterFile.t)
    (reports : gmap string Report.t)
    (files : gmap string (FileMetadata.t * list Z)) :
  let update := updateReport now id body reports in
  let upload := uploadAttachment env user id file reports files in
  (Response.statusCode update.2 = 200 →
   ∃ r r',
     DataStore.getReport id reports = Some r
     ∧ update.1 = <[id := r']> reports
     ∧ Report.version r' = Report.version r + 1)
  ∧ (Response.statusCode update.2 ≠ 200 → update.1 = reports)
  ∧ (Response.statusCode upload.2 = 201 →
     ∃ r r',
       DataStore.getReport id reports = Some r
       ∧ upload.1.1 = <[id := r']> reports
       ∧ Report.version r' = Report.version r
       ∧ Report.attachments r' = Report.attachments r ++ [Env.uuid env])
  ∧ (Response.statusCode upload.2 ≠ 201 → upload.1 = (reports, files)).
Proof.
  intros update upload. split; [|split; [|split]].
  - intros H. destruct (updateReport_success _ _ _ _ H) as (r & r' & ? & ? & ? & ?).
    by exists r, r'.
  - apply updateReport_rejected.
  - intros H.
    destruct (uploadAttachment_success _ _ _ _ _ _ H) as (r & r' & ? & ? & ? & ? & ?).
    by exists r, r'.
  - apply uploadAttachment_rejected.
Qed.

Lemma version_discipline_witness :
  (∃ r r',
     DataStore.getReport "r1" {["r1" := sampleReport DRAFT 1 []]} = Some r
     ∧ (updateReport 5 "r1" (sampleUpdate None None (Some 1))
          {["r1" := sampleReport DRAFT 1 []]}).1
       = <["r1" := r']> {["r1" := sampleReport DRAFT 1 []]}
     ∧ Report.version r' = Report.version r + 1)
  ∧ (updateReport 5 "r1" (sampleUpdate None None (Some 7))
       {["r1" := sampleReport DRAFT 1 []]}).1
    = {["r1" := sampleReport DRAFT 1 []]}
  ∧ (∃ r r',
       DataStore.getReport "r1" {["r1" := sampleReport DRAFT 1 []]} = Some r
       ∧ (uploadAttachment sampleEnv sampleUser "r1" (Some sampleFile)
            {["r1" := sampleReport DRAFT 1 []]} ∅).1.1
         = <["r1" := r']> {["r1" := sampleReport DRAFT 1 []]}
       ∧ Report.version r' = Report.version r
       ∧ Report.attachments r' = Report.attachments r ++ ["f1"])
  ∧ (uploadAttachment sampleEnv sampleUser "r1" None
       {["r1" := sampleReport DRAFT 1 []]} ∅).1
    = ({["r1" := sampleReport DRAFT 1 []]}, ∅).
Proof.
  split; [|split; [|split]].
  - apply (proj1 (version_discipline 5 sampleEnv sampleUser "r1"
                    (sampleUpdate None None (Some 1)) (Some sampleFile)
                    {["r1" := sampleReport DRAFT 1 []]} ∅)).
    reflexivity.
  - apply (proj1 (proj2 (version_discipline 5 sampleEnv sampleUser "r1"
                           (sampleUpdate None None (Some 7)) (Some sampleFile)
                           {["r1" := sampleReport DRAFT 1 []]} ∅))).
    vm_compute. intros E. discriminate E.
  - apply (proj1 (proj2 (proj2 (version_discipline 5 sampleEnv sampleUser "r1"
                           (sampleUpdate None None (Some 1)) (Some sampleFile)
                           {["r1" := sampleReport DRAFT 1 []]} ∅)))).
    reflexivity.
  - apply (proj2 (proj2 (proj2 (version_discipline 5 sampleEnv sampleUser "r1"
                           (sampleUpdate None None (Some 1)) None
                           {["r1" := sampleReport DRAFT 1 []]} ∅)))).
    vm_compute. intros E. discriminate E.
Defined.

(** ** Report creation *)

Lemma objects_setTimeout (cb : Callback) (delay : Z) (q : AsyncTaskQueue) :
  objects (setTimeout cb delay q) = objects q.
Proof. done. Qed.

Lemma objects_executeTask (task : nat) (q : AsyncTaskQueue) :
  objects (executeTask task q) = objects q.
Proof. unfold executeTask. by destruct (objects q !! task). Qed.

Lemma seed_set_status (s : TaskStatus) (task : Task.t) :
  seed (Task.set_status s task) = seed task.
Proof. done. Qed.

Lemma fmap_alter_same {A B} (f : A → B) (g : A → A) (l : list A) (i : nat) :
  (∀ x, f (g x) = f x) → f <$> alter g i l = f <$> l.
Proof.
  intros H. revert i. induction l as [|x l IH]; intros [|i]; simpl; try done.
  - by rewrite H.
  - f_equal. apply IH.
Qed.

Lemma seed_processQueue (q : AsyncTaskQueue) :
  seed <$> objects (processQueue q) = seed <$> objects q.
Proof.
  unfold processQueue. destruct (queue q) as [|task rest]; [done|].
  rewrite objects_executeTask. simpl.
  by apply fmap_alter_same.
Qed.

(** [enqueue] allocates exactly one task object, seeded as the caller
    passed it. *)
Lemma seed_enqueue (task : Task.t) (q : AsyncTaskQueue) :
  seed <$> objects (enqueue task q) = (seed <$> objects q) ++ [seed task].
Proof.
  unfold enqueue. destruct (negb _).
  - rewrite seed_processQueue. simpl. by rewrite fmap_app.
  - simpl. by rewrite fmap_app.
Qed.

(** C9: a successful [createReport] (status 201) calls [enqueue] exactly
    three times, with a notification task, a cache-invalidation task and a
    preview task, in this order, each passed with status [PENDING],
    [attempts = 0] and [maxAttempts] 3, 2 and 3; the queue gains these three
    task objects and no other.  A rejected [createReport] enqueues nothing. *)
Theorem create_enqueues_three (uuid : string) (user : User.t)
    (body : CreateReportDTO.t) (reports : gmap string Report.t)
    (taskQueue : AsyncTaskQueue) :
  let result := createReport uuid user body reports taskQueue in
  (Response.statusCode result.2 = 201 →
   ∃ t1 t2 t3,
     result.1.2 = enqueue t3 (enqueue t2 (enqueue t1 taskQueue))
     ∧ (Task.type t1, Task.status t1, Task.attempts t1, Task.maxAttempts t1)
       = (SEND_NOTIFICATION, PENDING, 0, 3)
     ∧ (Task.type t2, Task.status t2, Task.attempts t2, Task.maxAttempts t2)
       = (INVALIDATE_CACHE, PENDING, 0, 2)
     ∧ (Task.type t3, Task.status t3, Task.attempts t3, Task.maxAttempts t3)
       = (GENERATE_PREVIEW, PENDING, 0, 3)
     ∧ seed <$> objects result.1.2
       = (seed <$> objects taskQueue)
         ++ [(SEND_NOTIFICATION, 0, 3); (INVALIDATE_CACHE, 0, 2);
             (GENERATE_PREVIEW, 0, 3)])
  ∧ (Response.statusCode result.2 ≠ 201 → result.1.2 = taskQueue).
Proof.
  intros result. subst result. unfold createReport.
  destruct (negb (truthy (CreateReportDTO.title body))
            || negb (truthy (CreateReportDTO.description body))).
  - split; [done|done].
  - split; [|done]. intros _. cbn [fst snd].
    eexists _, _, _. split; [reflexivity|].
    split; [done|]. split; [done|]. split; [done|].
    rewrite !seed_enqueue, <- !app_assoc. done.
Qed.

Lemma create_enqueues_three_witness :
  (∃ t1 t2 t3,
     (createReport "r1" sampleUser sampleCreate ∅ (newQueue 0)).1.2
     = enqueue t3 (enqueue t2 (enqueue t1 (newQueue 0)))
     ∧ (Task.type t1, Task.status t1, Task.attempts t1, Task.maxAttempts t1)
       = (SEND_NOTIFICATION, PENDING, 0, 3)
     ∧ (Task.type t2, Task.status t2, Task.attempts t2, Task.maxAttempts t2)
       = (INVALIDATE_CACHE, PENDING, 0, 2)
     ∧ (Task.type t3, Task.status t3, Task.attempts t3, Task.maxAttempts t3)
       = (GENERATE_PREVIEW, PENDING, 0, 3)
     ∧ seed <$> objects (createReport "r1" sampleUser sampleCreate ∅ (newQueue 0)).1.2
       = (seed <$> objects (newQueue 0))
         ++ [(SEND_NOTIFICATION, 0, 3); (INVALIDATE_CACHE, 0, 2);
             (GENERATE_PREVIEW, 0, 3)])
  ∧ (createReport "r1" sampleUser
       (CreateReportDTO.mk (Some "") (Some "Quarterly analysis") None)
       ∅ (newQueue 0)).1.2
    = newQueue 0.
Proof.
  split.
  - apply (proj1 (create_enqueues_three "r1" sampleUser sampleCreate ∅
                    (newQueue 0))).
    reflexivity.
  - apply (proj2 (create_enqueues_three "r1" sampleUser
                    (CreateReportDTO.mk (Some "") (Some "Quarterly analysis") None)
                    ∅ (newQueue 0))).
    vm_compute. intros E. discriminate E.
Defined.

(** The first of the three tasks is picked up at once when the queue is
    idle: when [createReport] returns it is already [PROCESSING], and the
    other two wait in the queue. *)
Example create_on_idle_queue :
  let q := (createReport "r1" sampleUser sampleCreate ∅ (newQueue 0)).1.2 in
  Task.status <$> objects q = [PROCESSING; PENDING; PENDING]
  ∧ queue q = [1; 2]%nat
  ∧ processing q = true
  ∧ timers q = [mkTimer 500 (HandlerDone 0)].
Proof. done. Qed.

(** ** Task queue: well-formed states *)

Lemma timerRefs_schedule (tm : Timer) (ts : list Timer) :
  timerRefs (schedule tm ts) ≡ₚ callbackRefs (callback tm) ++ timerRefs ts.
Proof.
  induction ts as [|x ts IH]; simpl; [done|].
  case_bool_decide; simpl; [done|].
  rewrite IH. apply Permutation_app_swap_app.
Qed.

Lemma held_setTimeout (cb : Callback) (delay : Z) (q : AsyncTaskQueue) :
  held (setTimeout cb delay q) ≡ₚ callbackRefs cb ++ held q.
Proof.
  unfold held, setTimeout; simpl. rewrite timerRefs_schedule.
  rewrite <- app_assoc. apply Permutation_app_swap_app.
Qed.

Lemma held_assign (task : nat) (f : Task.t → Task.t) (q : AsyncTaskQueue) :
  held (assign task f q) = held q.
Proof. done. Qed.

Lemma length_objects_assign (task : nat) (f : Task.t → Task.t) (q : AsyncTaskQueue) :
  length (objects (assign task f q)) = length (objects q).
Proof. apply length_alter. Qed.

Lemma lookup_assign_ne (task task' : nat) (f : Task.t → Task.t)
    (q : AsyncTaskQueue) :
  task ≠ task' → objects (assign task f q) !! task' = objects q !! task'.
Proof. intros H. by apply list_lookup_alter_ne. Qed.

Lemma lookup_assign_eq (task : nat) (f : Task.t → Task.t) (q : AsyncTaskQueue) :
  objects (assign task f q) !! task = f <$> objects q !! task.
Proof. apply list_lookup_alter_eq. Qed.

(** A step of the code that keeps the task objects in place, writes only
    to the task [refs] it was handed, and hands every reference on at most
    once, keeps the state well formed. *)
Lemma wf_with_frame (refs refs' : list nat) (q q' : AsyncTaskQueue) :
  wf_with refs q →
  refs' ++ held q' ⊆+ refs ++ held q →
  length (objects q') = length (objects q) →
  (∀ task, task ∈ deadLetterQueue q' →
           task ∈ deadLetterQueue q ∧ objects q' !! task = objects q !! task
           ∨ ∃ t, objects q' !! task = Some t ∧ Task.status t = DEAD_LETTER) →
  wf_with refs' q'.
Proof.
  intros (Hnd & Hlt & Hdl) Hsub Hlen Hdlq. split; [|split].
  - apply submseteq_sublist_l in Hsub as (l & Hl1 & Hl2).
    eapply sublist_NoDup; [|exact Hl1]. by rewrite Hl2.
  - rewrite Forall_forall in Hlt. apply Forall_forall. intros task Hin.
    rewrite Hlen. apply Hlt.
    apply submseteq_sublist_l in Hsub as (l & Hl1 & Hl2).
    rewrite <- Hl2. by eapply elem_of_sublist.
  - apply Forall_forall. intros task Hin.
    destruct (Hdlq task Hin) as [[Hin' E]|?]; [|done].
    rewrite E. rewrite Forall_forall in Hdl. by apply Hdl.
Qed.

Lemma wf_with_weaken (refs : list nat) (q : AsyncTaskQueue) :
  wf_with refs q → wf q.
Proof.
  intros H. apply (wf_with_frame refs [] q q H); [|done|by left].
  apply submseteq_inserts_l. done.
Qed.

(** A task that is in the queue, in a timer or with a running callback is
    not in the dead-letter queue. *)
Lemma not_dead_lettered (refs : list nat) (q : AsyncTaskQueue) (task task' : nat) :
  NoDup (refs ++ held q) →
  task ∈ refs ++ queue q ++ timerRefs (timers q) →
  task' ∈ deadLetterQueue q →
  task ≠ task'.
Proof.
  unfold held. rewrite !app_assoc. intros Hnd Hin Hin' ->.
  apply NoDup_app in Hnd as (_ & Hnd & _). by apply (Hnd task').
Qed.

Lemma wf_processQueue (q : AsyncTaskQueue) : wf q → wf (processQueue q).
Proof.
  intros Hwf. unfold processQueue.
  destruct (queue q) as [|task rest] eqn:Hq.
  { apply (wf_with_frame [] [] q _ Hwf); [done|done|by left]. }
  assert (∀ task', task' ∈ deadLetterQueue q → task ≠ task') as Hne.
  { intros task' Hin. apply (not_dead_lettered [] q); [apply Hwf| |done].
    rewrite Hq. simpl. left. }
  apply (wf_with_frame [] [] q _ Hwf).
  - unfold executeTask.
    destruct (objects _ !! task); simpl.
    + rewrite held_setTimeout. unfold held. simpl. by rewrite Hq.
    + unfold held. simpl. rewrite Hq. by apply submseteq_cons.
  - rewrite objects_executeTask. apply length_alter.
  - rewrite objects_executeTask. intros task' Hin. left.
    assert (deadLetterQueue (executeTask task
              (assign task (Task.set_status PROCESSING)
                 (set_queue rest (set_processing true q))))
            = deadLetterQueue q) as E.
    { unfold executeTask. by destruct (objects _ !! task). }
    rewrite E in Hin. split; [done|].
    apply list_lookup_alter_ne. by apply Hne.
Qed.

Lemma wf_processQueue_resume (task : nat) (q : AsyncTaskQueue) :
  wf_with [task] q → wf (processQueue_resume task q).
Proof.
  intros Hwf. unfold processQueue_resume.
  destruct (objects q !! task) as [t|] eqn:Ht; [|by eapply wf_with_weaken].
  assert (∀ task', task' ∈ deadLetterQueue q → task ≠ task') as Hne.
  { intros task' Hin. apply (not_dead_lettered [task] q); [apply Hwf| |done].
    simpl. left. }
  destruct (handlerError t) as [message|].
  - case_bool_decide.
    + apply (wf_with_frame [task] [] q _ Hwf).
      * rewrite held_setTimeout. unfold held; simpl.
        rewrite !app_assoc. by rewrite <- Permutation_cons_append.
      * simpl. by rewrite !length_alter.
      * simpl. intros task' [Hin| ->%list_elem_of_singleton]%elem_of_app.
        -- left. split; [done|].
           rewrite !list_lookup_alter_ne by (by apply Hne). done.
        -- right. rewrite !list_lookup_alter_eq, Ht. simpl. by eexists.
    + apply (wf_with_frame [task] [] q _ Hwf).
      * rewrite !held_setTimeout. by simpl.
      * simpl. by rewrite !length_alter.
      * simpl. intros task' Hin. left. split; [done|].
        rewrite !list_lookup_alter_ne by (by apply Hne). done.
  - apply (wf_with_frame [task] [] q _ Hwf).
    + rewrite held_setTimeout. simpl. by apply submseteq_cons.
    + simpl. by rewrite !length_alter.
    + simpl. intros task' Hin. left. split; [done|].
      rewrite !list_lookup_alter_ne by (by apply Hne). done.
Qed.

Lemma wf_enqueue (task : Task.t) (q : AsyncTaskQueue) :
  wf q → wf (enqueue task q).
Proof.
  intros (Hnd & Hlt & Hdl). unfold enqueue.
  set (q1 := set_queue _ _).
  assert (wf q1) as Hwf1.
  { assert (held q1 ≡ₚ length (objects q) :: held q) as E.
    { unfold held; simpl. rewrite <- app_assoc. simpl.
      by rewrite <- Permutation_middle. }
    simpl in Hnd, Hlt. split; [|split]; simpl.
    - rewrite E. apply NoDup_cons. split; [|done].
      intros Hin. rewrite Forall_forall in Hlt. apply Hlt in Hin. lia.
    - rewrite E. apply Forall_cons. rewrite length_app. simpl. split; [lia|].
      eapply Forall_impl; [exact Hlt|]. simpl. lia.
    - eapply Forall_impl; [exact Hdl|]. simpl.
      intros task' (t & Ht & Hst). exists t. split; [|done].
      by apply lookup_app_l_Some. }
  destruct (negb (processing q1)); [by apply wf_processQueue|done].
Qed.

Lemma wf_step (ev : Event) (q q' : AsyncTaskQueue) :
  wf q → step ev q = Some q' → wf q'.
Proof.
  intros Hwf. destruct ev as [|at_ task]; simpl.
  - destruct (timers q) as [|tm rest] eqn:Htm; [done|].
    intros [= <-].
    assert (wf_with (callbackRefs (callback tm))
                    (set_clock (due tm) (set_timers rest q))) as Hwf'.
    { apply (wf_with_frame [] _ q _ Hwf); [|done|by left].
      unfold held; simpl. rewrite Htm. simpl.
      rewrite <- app_assoc. by rewrite Permutation_app_swap_app. }
    destruct (callback tm) as [task|task|]; simpl in *.
    + by apply wf_processQueue_resume.
    + by apply (wf_with_frame [task] [] _ _ Hwf'); [|done|by left].
    + by apply wf_processQueue.
  - case_bool_decide; [|done]. intros [= <-].
    apply wf_enqueue.
    by apply (wf_with_frame [] [] q _ Hwf); [|done|by left].
Qed.

Lemma wf_newQueue (c : Z) : wf (newQueue c).
Proof.
  split; [|split]; simpl.
  - apply NoDup_nil_2.
  - apply Forall_nil_2.
  - apply Forall_nil_2.
Qed.

Lemma reachable_wf (q : AsyncTaskQueue) : reachable q → wf q.
Proof.
  induction 1 as [c|q ev q' _ IH Hstep].
  - apply wf_newQueue.
  - by eapply wf_step.
Qed.

Lemma reachable_run (evs : list Event) (q q' : AsyncTaskQueue) :
  reachable q → run evs q = Some q' → reachable q'.
Proof.
  revert q. induction evs as [|ev evs IH]; simpl; intros q Hq.
  - by intros [= <-].
  - destruct (step ev q) as [q1|] eqn:Hstep; [|done]. simpl.
    apply IH. by eapply reachable_step.
Qed.

(** ** Task queue: the dead-letter queue *)

Lemma keeps_dead_letters_refl (q : AsyncTaskQueue) : keeps_dead_letters q q.
Proof. by split. Qed.

Lemma keeps_dead_letters_trans (q1 q2 q3 : AsyncTaskQueue) :
  keeps_dead_letters q1 q2 → keeps_dead_letters q2 q3 →
  keeps_dead_letters q1 q3.
Proof.
  intros [Hp1 Ho1] [Hp2 Ho2]. split.
  - by etrans.
  - intros task Hin. rewrite Ho2, Ho1; [done|done|].
    destruct Hp1 as [k ->]. apply elem_of_app. by left.
Qed.

Lemma processQueue_keeps (refs : list nat) (q : AsyncTaskQueue) :
  wf_with refs q → keeps_dead_letters q (processQueue q).
Proof.
  intros Hwf. unfold processQueue.
  destruct (queue q) as [|task rest] eqn:Hq; [by split|].
  unfold executeTask.
  assert (∀ task', task' ∈ deadLetterQueue q → task ≠ task') as Hne.
  { intros task' Hin. apply (not_dead_lettered refs q); [apply Hwf| |done].
    rewrite Hq. apply elem_of_app. right. simpl. left. }
  destruct (objects _ !! task); split; simpl; try done.
  - intros task' Hin. apply list_lookup_alter_ne. by apply Hne.
  - intros task' Hin. apply list_lookup_alter_ne. by apply Hne.
Qed.

Lemma processQueue_resume_keeps (task : nat) (q : AsyncTaskQueue) :
  wf_with [task] q → keeps_dead_letters q (processQueue_resume task q).
Proof.
  intros Hwf. unfold processQueue_resume.
  destruct (objects q !! task) as [t|] eqn:Ht; [|by split].
  assert (∀ task', task' ∈ deadLetterQueue q → task ≠ task') as Hne.
  { intros task' Hin. apply (not_dead_lettered [task] q); [apply Hwf| |done].
    simpl. left. }
  destruct (handlerError t) as [message|]; [case_bool_decide|]; split; simpl;
    try done; try (by apply prefix_app_r);
    intros task' Hin; rewrite !list_lookup_alter_ne by (by apply Hne); done.
Qed.

Lemma enqueue_keeps (task : Task.t) (q : AsyncTaskQueue) :
  wf q → keeps_dead_letters q (enqueue task q).
Proof.
  intros Hwf. unfold enqueue. set (q1 := set_queue _ _).
  assert (keeps_dead_letters q q1) as H1.
  { split; [done|]. simpl. intros task' Hin.
    apply lookup_app_l. destruct Hwf as (_ & Hlt & _).
    rewrite Forall_forall in Hlt. apply Hlt. simpl. unfold held.
    rewrite !elem_of_app. auto. }
  destruct (negb (processing q1)); [|done].
  eapply keeps_dead_letters_trans; [exact H1|].
  apply (processQueue_keeps []).
  assert (wf (enqueue task (set_processing true q))) as Hwf'.
  { apply wf_enqueue.
    by apply (wf_with_frame [] [] q _ Hwf); [|done|by left]. }
  apply (wf_with_frame [] [] _ _ Hwf'); [done|done|by left].
Qed.

Lemma step_keeps (ev : Event) (q q' : AsyncTaskQueue) :
  wf q → step ev q = Some q' → keeps_dead_letters q q'.
Proof.
  intros Hwf. destruct ev as [|at_ task]; simpl.
  - destruct (timers q) as [|tm rest] eqn:Htm; [done|].
    intros [= <-].
    assert (wf_with (callbackRefs (callback tm))
                    (set_clock (due tm) (set_timers rest q))) as Hwf'.
    { apply (wf_with_frame [] _ q _ Hwf); [|done|by left].
      unfold held; simpl. rewrite Htm. simpl.
      rewrite <- app_assoc. by rewrite Permutation_app_swap_app. }
    apply (keeps_dead_letters_trans _ (set_clock (due tm) (set_timers rest q)));
      [by split|].
    destruct (callback tm) as [task|task|]; simpl in *.
    + by apply processQueue_resume_keeps.
    + by split.
    + by apply (processQueue_keeps []).
  - case_bool_decide; [|done]. intros [= <-].
    apply (keeps_dead_letters_trans _ (set_clock at_ q)); [by split|].
    apply enqueue_keeps.
    by apply (wf_with_frame [] [] q _ Hwf); [|done|by left].
Qed.

Lemma run_keeps (evs : list Event) (q q' : AsyncTaskQueue) :
  wf q → run evs q = Some q' → keeps_dead_letters q q'.
Proof.
  revert q. induction evs as [|ev evs IH]; simpl; intros q Hwf.
  - intros [= <-]. apply keeps_dead_letters_refl.
  - destruct (step ev q) as [q1|] eqn:Hstep; [|done]. simpl. intros Hrun.
    eapply keeps_dead_letters_trans; [by eapply step_keeps|].
    apply IH; [|done]. by eapply wf_step.
Qed.

Lemma getDeadLetterQueue_prefix (q q' : AsyncTaskQueue) :
  keeps_dead_letters q q' →
  getDeadLetterQueue q `prefix_of` getDeadLetterQueue q'.
Proof.
  intros [[k Hk] Hobj]. unfold getDeadLetterQueue. rewrite Hk.
  rewrite omap_app. 
  assert (omap (λ task, objects q' !! task) (deadLetterQueue q)
          = omap (λ task, objects q !! task) (deadLetterQueue q)) as ->.
  { clear Hk. induction (deadLetterQueue q) as [|task l IH]; [done|].
    csimpl. rewrite Hobj by left. rewrite IH; [done|].
    intros task' Hin. apply Hobj. by right. }
  by apply prefix_app_r.
Qed.

(** C8, as stated, fails: a task that has completed is held nowhere, neither
    in the queue, nor in a timer, nor in the dead-letter queue, and the
    queue exposes nothing of it. *)
Lemma completed_task_counterexample :
  ¬ (∀ q task t,
       reachable q →
       objects q !! task = Some t →
       Task.status t = COMPLETED →
       task ∈ held q).
Proof.
  intros H.
  assert (run [Enqueue 0 goodTask; Fire; Fire] (newQueue 0)
          = Some (mkQueue [Task.mk "t2" SEND_NOTIFICATION
                             (JsObject [("reportId", JsString "r1")])
                             COMPLETED 0 3 0 (Some 500) None]
                          [] false [] [] 600)) as Hrun by reflexivity.
  specialize (H _ 0%nat _ (reachable_run _ _ _ (reachable_new 0) Hrun)
                eq_refl eq_refl).
  by apply elem_of_nil in H.
Qed.

(** C8, amended: a dead-lettered task is never deleted.  Through every
    sequence of events the dead-letter queue is only extended, the task
    objects it refers to keep all their fields, among them the status
    [DEAD_LETTER], and [getDeadLetterQueue] keeps returning them.  (A
    completed task, in contrast, is held by no collection of the queue.) *)
Theorem dead_letters_persist (evs : list Event) (q q' : AsyncTaskQueue) :
  reachable q →
  run evs q = Some q' →
  deadLetterQueue q `prefix_of` deadLetterQueue q'
  ∧ getDeadLetterQueue q `prefix_of` getDeadLetterQueue q'
  ∧ ∀ task, task ∈ deadLetterQueue q →
      ∃ t, objects q !! task = Some t
           ∧ objects q' !! task = Some t
           ∧ Task.status t = DEAD_LETTER.
Proof.
  intros Hq Hrun. apply reachable_wf in Hq.
  pose proof (run_keeps _ _ _ Hq Hrun) as Hkeep.
  split; [apply Hkeep|]. split; [by apply getDeadLetterQueue_prefix|].
  intros task Hin. destruct Hq as (_ & _ & Hdl).
  rewrite Forall_forall in Hdl. destruct (Hdl task Hin) as (t & Ht & Hst).
  exists t. split; [done|]. split; [|done].
  destruct Hkeep as [_ Hobj]. by rewrite Hobj.
Qed.

Lemma deadLetteredState_reachable : reachable deadLetteredState.
Proof.
  apply (reachable_run [Enqueue 0 (failingTask 1); Fire] (newQueue 0)).
  - apply reachable_new.
  - reflexivity.
Qed.

Lemma dead_letters_persist_witness :
  deadLetterQueue deadLetteredState `prefix_of` [0%nat]
  ∧ getDeadLetterQueue deadLetteredState
    `prefix_of`
    [Task.mk "t1" INVALIDATE_CACHE JsNull DEAD_LETTER 1 1 0 None
             (Some "Cannot read properties of null (reading 'cacheKey')")]
  ∧ ∀ task, task ∈ deadLetterQueue deadLetteredState →
      ∃ t, objects deadLetteredState !! task = Some t
           ∧ [Task.mk "t1" INVALIDATE_CACHE JsNull DEAD_LETTER 1 1 0 None
                (Some "Cannot read properties of null (reading 'cacheKey')");
              Task.mk "t2" SEND_NOTIFICATION
                (JsObject [("reportId", JsString "r1")])
                COMPLETED 0 3 0 (Some 1500) None] !! task = Some t
           ∧ Task.status t = DEAD_LETTER.
Proof.
  apply (dead_letters_persist [Fire; Enqueue 1000 goodTask; Fire; Fire]
           deadLetteredState
           (mkQueue
              [Task.mk "t1" INVALIDATE_CACHE JsNull DEAD_LETTER 1 1 0 None
                 (Some "Cannot read properties of null (reading 'cacheKey')");
               Task.mk "t2" SEND_NOTIFICATION
                 (JsObject [("reportId", JsString "r1")])
                 COMPLETED 0 3 0 (Some 1500) None]
              [] false [0%nat] [] 1600)).
  - apply deadLetteredState_reachable.
  - reflexivity.
Defined.

(** ** Task queue: tasks the queue has let go *)

Lemma held_processQueue (q : AsyncTaskQueue) : held (processQueue q) ⊆+ held q.
Proof.
  unfold processQueue. destruct (queue q) as [|task rest] eqn:Hq; [done|].
  unfold executeTask. destruct (objects _ !! task); simpl.
  - rewrite held_setTimeout. unfold held. simpl. by rewrite Hq.
  - unfold held. simpl. rewrite Hq. by apply submseteq_cons.
Qed.

Lemma held_processQueue_resume (task : nat) (q : AsyncTaskQueue) :
  held (processQueue_resume task q) ⊆+ task :: held q.
Proof.
  unfold processQueue_resume.
  destruct (objects q !! task) as [t|]; [|by apply submseteq_cons].
  destruct (handlerError t) as [message|]; [case_bool_decide|].
  - rewrite held_setTimeout. unfold held; simpl.
    rewrite !app_assoc. by rewrite <- Permutation_cons_append.
  - rewrite !held_setTimeout. by simpl.
  - rewrite held_setTimeout. simpl. by apply submseteq_cons.
Qed.

Lemma objects_processQueue_frame (task : nat) (q : AsyncTaskQueue) :
  task ∉ queue q → objects (processQueue q) !! task = objects q !! task.
Proof.
  intros Hin. unfold processQueue.
  destruct (queue q) as [|task' rest]; [done|].
  rewrite objects_executeTask. simpl. apply list_lookup_alter_ne.
  intros ->. apply Hin. left.
Qed.

Lemma objects_processQueue_resume_frame (task task' : nat) (q : AsyncTaskQueue) :
  task ≠ task' →
  objects (processQueue_resume task' q) !! task = objects q !! task.
Proof.
  intros Hne. unfold processQueue_resume.
  destruct (objects q !! task') as [t|]; [|done].
  destruct (handlerError t) as [message|]; [case_bool_decide|]; simpl;
    by rewrite !list_lookup_alter_ne.
Qed.

Lemma length_objects_processQueue (q : AsyncTaskQueue) :
  length (objects (processQueue q)) = length (objects q).
Proof.
  unfold processQueue. destruct (queue q) as [|task rest]; [done|].
  rewrite objects_executeTask. apply length_alter.
Qed.

Lemma length_objects_processQueue_resume (task : nat) (q : AsyncTaskQueue) :
  length (objects (processQueue_resume task q)) = length (objects q).
Proof.
  unfold processQueue_resume.
  destruct (objects q !! task) as [t|]; [|done].
  destruct (handlerError t) as [message|]; [case_bool_decide|]; simpl;
    by rewrite !length_alter.
Qed.

(** A step does not write to an allocated task that the queue does not
    hold, and does not take hold of it again. *)
Lemma step_unheld (ev : Event) (q q' : AsyncTaskQueue) (task : nat) :
  step ev q = Some q' →
  (task < length (objects q))%nat →
  task ∉ held q →
  objects q' !! task = objects q !! task
  ∧ (task < length (objects q'))%nat
  ∧ task ∉ held q'.
Proof.
  intros Hstep Hlt Hin. destruct ev as [|at_ t]; simpl in Hstep.
  - destruct (timers q) as [|tm rest] eqn:Htm; [done|].
    injection Hstep as <-.
    set (q0 := set_clock (due tm) (set_timers rest q)).
    assert (callbackRefs (callback tm) ++ held q0 ≡ₚ held q) as Hheld.
    { unfold held; simpl. rewrite Htm. simpl.
      rewrite <- app_assoc. by rewrite Permutation_app_swap_app. }
    rewrite <- Hheld in Hin. apply not_elem_of_app in Hin as [Hcb Hin].
    destruct (callback tm) as [task'|task'|]; simpl in *.
    + apply not_elem_of_cons in Hcb as [Hne _]. split; [|split].
      * by rewrite objects_processQueue_resume_frame.
      * by rewrite length_objects_processQueue_resume.
      * intros Hin'. eapply elem_of_submseteq in Hin';
          [|apply held_processQueue_resume].
        apply elem_of_cons in Hin' as [?|?]; done.
    + apply not_elem_of_cons in Hcb as [Hne _]. split; [done|]. split; [done|].
      unfold held; simpl. intros [?|?]%elem_of_cons; [done|]. by apply Hin.
    + split; [|split].
      * rewrite objects_processQueue_frame; [done|]. intros Hq. apply Hin.
        unfold held. apply elem_of_app. by left.
      * by rewrite length_objects_processQueue.
      * intros Hin'. eapply elem_of_submseteq in Hin'; [|apply held_processQueue].
        done.
  - case_bool_decide; [|done]. injection Hstep as <-.
    unfold enqueue. set (q1 := set_queue _ _).
    assert (objects q1 !! task = objects q !! task
            ∧ (task < length (objects q1))%nat
            ∧ task ∉ held q1) as (Ho & Hl & Hh).
    { split; [|split]; simpl.
      - by apply lookup_app_l.
      - rewrite length_app. simpl. lia.
      - unfold held; simpl. rewrite <- app_assoc.
        intros [Hq|[->%list_elem_of_singleton|Ht]%elem_of_app]%elem_of_app.
        + apply Hin. unfold held. apply elem_of_app. by left.
        + lia.
        + apply Hin. unfold held. apply elem_of_app. by right. }
    destruct (negb (processing q1)); [|done]. split; [|split].
    + rewrite <- Ho. apply objects_processQueue_frame. intros Hq. apply Hh.
      unfold held. apply elem_of_app. by left.
    + by rewrite length_objects_processQueue.
    + intros Hin'. eapply elem_of_submseteq in Hin'; [|apply held_processQueue].
      done.
Qed.

(** Completed is terminal: a task that completed is held nowhere, so
    through every sequence of events its object keeps all its fields and
    the queue never holds it again.  The same goes for any other task the
    queue has let go. *)
Lemma unheld_task_unchanged (evs : list Event) (q q' : AsyncTaskQueue)
    (task : nat) :
  run evs q = Some q' →
  (task < length (objects q))%nat →
  task ∉ held q →
  objects q' !! task = objects q !! task ∧ task ∉ held q'.
Proof.
  revert q. induction evs as [|ev evs IH]; simpl; intros q Hrun Hlt Hin.
  - by injection Hrun as <-.
  - destruct (step ev q) as [q1|] eqn:Hstep; [|done]. simpl in Hrun.
    destruct (step_unheld _ _ _ _ Hstep Hlt Hin) as (Ho & Hl & Hh).
    destruct (IH q1 Hrun Hl Hh) as [Ho' Hh']. split; [|done].
    by rewrite Ho'.
Qed.

(** After a successful attempt the task is [COMPLETED], stamped with the
    time, and held nowhere. *)
Lemma completed_task_dropped (task : nat) (t : Task.t) (q : AsyncTaskQueue) :
  objects q !! task = Some t →
  handlerError t = None →
  task ∉ held q →
  let q' := processQueue_resume task q in
  objects q' !! task
  = Some (Task.set_processedAt (clock q) (Task.set_status COMPLETED t))
  ∧ task ∉ held q'.
Proof.
  intros Ht Herr Hin q'. subst q'. unfold processQueue_resume.
  rewrite Ht, Herr. split.
  - simpl. by rewrite !list_lookup_alter_eq, Ht.
  - rewrite held_setTimeout. done.
Qed.

(** ** Task queue: retries *)

Lemma elem_of_schedule (x tm : Timer) (ts : list Timer) :
  x ∈ schedule tm ts ↔ x = tm ∨ x ∈ ts.
Proof.
  induction ts as [|y ts IH]; simpl.
  - rewrite list_elem_of_singleton. split; [by left|].
    intros [?|H]; [done|]. by apply elem_of_nil in H.
  - case_bool_decide.
    + apply elem_of_cons.
    + rewrite !elem_of_cons, IH. tauto.
Qed.

Lemma timerDelay_in_range (delay : Z) :
  1 <= delay → delay <= TIMEOUT_MAX → timerDelay delay = delay.
Proof. intros H1 H2. unfold timerDelay. by rewrite bool_decide_eq_true_2. Qed.

Lemma timerDelay_beyond (delay : Z) :
  TIMEOUT_MAX < delay → timerDelay delay = 1.
Proof.
  intros H. unfold timerDelay. rewrite bool_decide_eq_false_2; [done|lia].
Qed.

Lemma timerDelay_handlerDelay (ty : TaskType) :
  timerDelay (handlerDelay ty) = handlerDelay ty.
Proof. by destruct ty. Qed.

Lemma backoffDelay_pos (attempts : Z) : 0 <= attempts → 1 <= backoffDelay attempts.
Proof.
  intros H. unfold backoffDelay.
  assert (0 < 2 ^ attempts) by (apply Z.pow_pos_nonneg; lia). lia.
Qed.

(** C5: when an attempt fails and the incremented counter is still below
    [maxAttempts], the task is marked [FAILED], it is neither queued nor
    dead-lettered, and a timer is set that is due [2 ^ attempts] seconds
    ([2 ^ attempts * 1000] ms) after the failure, [attempts] being the
    incremented counter; when that timer fires, at its due time, the task is
    put at the head of the queue.  The delay is one the timers of Node can
    hold: at most [TIMEOUT_MAX] ms, which it is up to [attempts = 21]. *)
Theorem retry_backoff (task : nat) (t : Task.t) (q : AsyncTaskQueue) :
  objects q !! task = Some t →
  is_Some (handlerError t) →
  0 <= Task.attempts t →
  Task.attempts t + 1 < Task.maxAttempts t →
  2 ^ (Task.attempts t + 1) * 1000 <= TIMEOUT_MAX →
  let attempts := Task.attempts t + 1 in
  let retry := mkTimer (clock q + 2 ^ attempts * 1000) (Reinsert task) in
  let q' := processQueue_resume task q in
  (∃ t', objects q' !! task = Some t'
         ∧ Task.status t' = FAILED
         ∧ Task.attempts t' = attempts)
  ∧ queue q' = queue q
  ∧ deadLetterQueue q' = deadLetterQueue q
  ∧ retry ∈ timers q'
  ∧ ∀ q2 rest,
      timers q2 = retry :: rest →
      ∃ q3, step Fire q2 = Some q3
            ∧ clock q3 = clock q + 2 ^ attempts * 1000
            ∧ queue q3 = task :: queue q2.
Proof.
  intros Ht [message Herr] Hpos Hlt Hmax attempts retry q'.
  subst q'. unfold processQueue_resume. rewrite Ht, Herr.
  rewrite bool_decide_eq_false_2 by (fold attempts; lia).
  fold attempts. split; [|split; [|split; [|split]]].
  - simpl. rewrite !list_lookup_alter_eq, Ht. simpl. by eexists.
  - done.
  - done.
  - unfold setTimeout at 2.
    rewrite (timerDelay_in_range (backoffDelay attempts));
      [|apply backoffDelay_pos; subst attempts; lia|exact Hmax].
    cbn [setTimeout set_timers timers].
    apply elem_of_schedule. right. apply elem_of_schedule. by left.
  - intros q2 rest Htm. simpl. rewrite Htm. by eexists.
Qed.

Lemma retry_backoff_witness :
  let q' := processQueue_resume 0 processingState in
  (∃ t', objects q' !! 0%nat = Some t'
         ∧ Task.status t' = FAILED
         ∧ Task.attempts t' = 1)
  ∧ queue q' = []
  ∧ deadLetterQueue q' = []
  ∧ mkTimer 2000 (Reinsert 0) ∈ timers q'
  ∧ ∀ q2 rest,
      timers q2 = mkTimer 2000 (Reinsert 0) :: rest →
      ∃ q3, step Fire q2 = Some q3
            ∧ clock q3 = 2000
            ∧ queue q3 = 0%nat :: queue q2.
Proof.
  apply (retry_backoff 0 (Task.mk "t1" INVALIDATE_CACHE JsNull PROCESSING 0 3 0
                            None None) processingState).
  - reflexivity.
  - simpl. eexists. reflexivity.
  - simpl. lia.
  - simpl. lia.
  - vm_compute. intros E. discriminate E.
Defined.

(** From [attempts = 22] on the delay is more than the timers hold, and the
    retry timer is due 1 ms after the failure. *)
Lemma retry_beyond_timer_limit (task : nat) (t : Task.t) (q : AsyncTaskQueue) :
  objects q !! task = Some t →
  is_Some (handlerError t) →
  Task.attempts t + 1 < Task.maxAttempts t →
  TIMEOUT_MAX < 2 ^ (Task.attempts t + 1) * 1000 →
  mkTimer (clock q + 1) (Reinsert task) ∈ timers (processQueue_resume task q).
Proof.
  intros Ht [message Herr] Hlt Hmax.
  unfold processQueue_resume. rewrite Ht, Herr.
  rewrite bool_decide_eq_false_2 by lia.
  unfold setTimeout at 2.
  rewrite (timerDelay_beyond (backoffDelay _)) by exact Hmax.
  cbn [setTimeout set_timers timers].
  apply elem_of_schedule. right. apply elem_of_schedule. by left.
Qed.

(** A task that has failed 21 times and may be attempted 24 times: the
    retries come 1 ms after the failures, before the next round of the
    driver, which takes the task again; it is dead-lettered 900 ms after it
    was enqueued. *)
Example retry_beyond_timer_limit_run :
  (q ← step (Enqueue 0 (Task.mk "t1" INVALIDATE_CACHE JsNull PENDING 21 24 0
                          None None))
            (newQueue 0);
   settle 10 q)
  = Some (mkQueue
            [Task.mk "t1" INVALIDATE_CACHE JsNull DEAD_LETTER 24 24 0 None
               (Some "Cannot read properties of null (reading 'cacheKey')")]
            [] false [0%nat] [] 900).
Proof. vm_compute. reflexivity. Qed.

(** The backoff delays of the first attempts are 2 s, 4 s and 8 s. *)
Example backoffDelay_values :
  backoffDelay 1 = 2000 ∧ backoffDelay 2 = 4000 ∧ backoffDelay 3 = 8000.
Proof. done. Qed.

(** When a failed attempt brings the counter to [maxAttempts], the task is
    marked [DEAD_LETTER] and appended to the dead-letter queue; no timer is
    set to put it back into the queue. *)
Lemma exhausted_task_dead_lettered (task : nat) (t : Task.t)
    (q : AsyncTaskQueue) :
  objects q !! task = Some t →
  is_Some (handlerError t) →
  Task.maxAttempts t <= Task.attempts t + 1 →
  let q' := processQueue_resume task q in
  (∃ t', objects q' !! task = Some t'
         ∧ Task.status t' = DEAD_LETTER
         ∧ Task.attempts t' = Task.attempts t + 1)
  ∧ deadLetterQueue q' = deadLetterQueue q ++ [task]
  ∧ queue q' = queue q
  ∧ timers q' = schedule (mkTimer (clock q + 100) Poll) (timers q).
Proof.
  intros Ht [message Herr] Hge q'.
  subst q'. unfold processQueue_resume. rewrite Ht, Herr.
  rewrite bool_decide_eq_true_2 by lia.
  split; [|done].
  simpl. rewrite !list_lookup_alter_eq, Ht. simpl. by eexists.
Qed.

Lemma backoffDelay_lower (attempts : Z) :
  1 <= attempts → 2000 <= backoffDelay attempts.
Proof.
  intros H. unfold backoffDelay.
  assert (2 ^ 1 <= 2 ^ attempts) by (apply Z.pow_le_mono_r; lia).
  lia.
Qed.

(** The round scheduled after a failed attempt comes before the retry. *)
Lemma schedule_retry (d delay : Z) (task : nat) :
  100 < delay →
  schedule (mkTimer (d + 100) Poll)
           (schedule (mkTimer (d + delay) (Reinsert task)) [])
  = [mkTimer (d + 100) Poll; mkTimer (d + delay) (Reinsert task)].
Proof.
  intros H. cbn [schedule due]. rewrite bool_decide_eq_true_2 by lia. done.
Qed.

Lemma step_enqueue_new (c : Z) (t : Task.t) :
  step (Enqueue c t) (newQueue c)
  = Some (mkQueue [Task.set_status PROCESSING t] [] true []
            [mkTimer (c + handlerDelay (Task.type t)) (HandlerDone 0)] c).
Proof.
  unfold step. rewrite bool_decide_eq_true_2;
    [|split; [cbn [newQueue clock]; lia|constructor]].
  unfold enqueue, processQueue, executeTask, setTimeout, assign.
  cbn. rewrite timerDelay_handlerDelay. done.
Qed.

Lemma resume_lone_failure (d : Z) (t : Task.t) (message : string) :
  handlerError t = Some message →
  0 <= Task.attempts t →
  Task.attempts t + 1 < Task.maxAttempts t →
  backoffDelay (Task.attempts t + 1) <= TIMEOUT_MAX →
  processQueue_resume 0 (mkQueue [t] [] true [] [] d)
  = mkQueue
      [Task.set_status FAILED
         (Task.set_error message
            (Task.set_attempts (Task.attempts t + 1) t))]
      [] true []
      [mkTimer (d + 100) Poll;
       mkTimer (d + backoffDelay (Task.attempts t + 1)) (Reinsert 0)] d.
Proof.
  intros Herr Hpos Hlt Hmax.
  pose proof (backoffDelay_lower (Task.attempts t + 1) ltac:(lia)) as Hback.
  unfold processQueue_resume. cbn [objects lookup list_lookup]. rewrite Herr.
  rewrite bool_decide_eq_false_2 by lia.
  unfold setTimeout, assign, set_timers, set_objects.
  cbn [objects queue processing deadLetterQueue timers clock alter list_alter].
  rewrite (timerDelay_in_range (backoffDelay _)) by lia.
  rewrite (timerDelay_in_range 100) by done.
  rewrite schedule_retry by lia. done.
Qed.

(** The stall is not particular to one task: whenever a task whose handler
    fails is alone on a new queue and has more than one attempt left, with a
    backoff delay the timers can hold, the timers run out after its first
    attempt, with the task [FAILED] in the queue, the driver stopped and
    nothing dead-lettered. *)
Lemma lone_failing_task_stalls (c : Z) (t : Task.t) (message : string) :
  handlerError t = Some message →
  0 <= Task.attempts t →
  Task.attempts t + 1 < Task.maxAttempts t →
  backoffDelay (Task.attempts t + 1) <= TIMEOUT_MAX →
  (q ← step (Enqueue c t) (newQueue c); settle 3 q)
  = Some (mkQueue
            [Task.set_status FAILED
               (Task.set_error message
                  (Task.set_attempts (Task.attempts t + 1)
                     (Task.set_status PROCESSING t)))]
            [0%nat] false [] []
            (c + handlerDelay (Task.type t)
             + backoffDelay (Task.attempts t + 1))).
Proof.
  intros Herr Hpos Hlt Hmax.
  rewrite step_enqueue_new. cbn [mbind option_bind].
  unfold settle, step.
  cbn [timers callback due runCallback]. unfold set_clock, set_timers.
  cbn [objects queue processing deadLetterQueue timers clock].
  rewrite (resume_lone_failure _ _ message) by done.
  cbn [mbind option_bind timers callback due runCallback
       objects queue processing deadLetterQueue clock].
  unfold processQueue, set_processing.
  cbn [mbind option_bind timers callback due runCallback
       objects queue processing deadLetterQueue clock].
  unfold set_queue.
  cbn [mbind option_bind timers callback due runCallback
       objects queue processing deadLetterQueue clock].
  done.
Qed.

(** C4, the code at the failing input: a task with [maxAttempts = 2] whose
    handler always fails is enqueued on an idle queue and the timers run
    until none is pending.  The first attempt fails at 200 ms and the retry
    is set for 2200 ms; the round at 300 ms finds the queue empty and stops
    the driver; at 2200 ms the task is put back into the queue, where it
    stays: nothing restarts the driver.  The task ends [FAILED] with
    [attempts = 1] and the dead-letter queue is empty. *)
Theorem retry_stalls :
  (q ← step (Enqueue 0 (failingTask 2)) (newQueue 0); settle 10 q)
  = Some (mkQueue
            [Task.mk "t1" INVALIDATE_CACHE JsNull FAILED 1 2 0 None
               (Some "Cannot read properties of null (reading 'cacheKey')")]
            [0%nat] false [] [] 2200).
Proof. reflexivity. Qed.

(** The stalled task is attempted again only when a later [enqueue] restarts
    the driver; it is then taken first and, failing a second time, is
    dead-lettered with [attempts = 2]. *)
Example retry_after_later_enqueue :
  run [Enqueue 0 (failingTask 2); Fire; Fire; Fire;
       Enqueue 5000 goodTask; Fire; Fire; Fire; Fire] (newQueue 0)
  = Some (mkQueue
            [Task.mk "t1" INVALIDATE_CACHE JsNull DEAD_LETTER 2 2 0 None
               (Some "Cannot read properties of null (reading 'cacheKey')");
             Task.mk "t2" SEND_NOTIFICATION
               (JsObject [("reportId", JsString "r1")])
               COMPLETED 0 3 0 (Some 5800) None]
            [] false [0%nat] [] 5900).
Proof. reflexivity. Qed.

(** * Further properties *)

(** ** Validator: the whole decision *)

Lemma highPriorityCount_app (l1 l2 : list ReportEntry.t) :
  highPriorityCount (l1 ++ l2)
  = (highPriorityCount l1 + highPriorityCount l2)%nat.
Proof. unfold highPriorityCount. by rewrite filter_app, length_app. Qed.

(** X1: the validator rejects a status change in exactly two situations: a
    published report is to be archived with fewer than 3 high-priority
    entries, or a report is to be published with no entries.  Every other
    combination of report and requested status is accepted. *)
Theorem validator_rejects_iff (report : Report.t) (newStatus : ReportStatus) :
  ValidationResult.valid (validateStatusTransition report newStatus) = false
  ↔ (newStatus = ARCHIVED
     ∧ Report.status report = PUBLISHED
     ∧ (highPriorityCount (Report.entries report) < 3)%nat)
    ∨ (newStatus = PUBLISHED ∧ Report.entries report = []).
Proof.
  unfold validateStatusTransition, validateArchiveTransition,
    validatePublishTransition.
  destruct newStatus; simpl.
  - split; [done|]. intros [(? & _)|(? & _)]; done.
  - destruct (Report.entries report) as [|e l] eqn:E; simpl.
    + split; [|done]. intros _. by right.
    + split; [done|]. intros [(? & _)|(_ & ?)]; done.
  - case_bool_decide as Hst; simpl.
    + case_bool_decide as Hc; simpl.
      * split; [|done]. intros _. by left.
      * split; [done|]. intros [(_ & _ & ?)|(? & _)]; done.
    + split; [done|]. intros [(_ & ? & _)|(? & _)]; done.
Qed.

(** X2: adding entries never turns an accepted status change into a
    rejected one. *)
Theorem validator_monotone (report report' : Report.t)
    (more : list ReportEntry.t) (newStatus : ReportStatus) :
  Report.status report' = Report.status report →
  Report.entries report' = Report.entries report ++ more →
  ValidationResult.valid (validateStatusTransition report newStatus) = true →
  ValidationResult.valid (validateStatusTransition report' newStatus) = true.
Proof.
  intros Hst Hen.
  unfold validateStatusTransition, validateArchiveTransition,
    validatePublishTransition.
  rewrite Hst, Hen, highPriorityCount_app, length_app.
  destruct newStatus; simpl.
  - done.
  - destruct (Report.entries report) as [|e l]; simpl; [done|]. done.
  - case_bool_decide as Hp; simpl; [|done].
    case_bool_decide as Hc; simpl; [done|].
    intros _. rewrite bool_decide_eq_false_2 by lia. done.
Qed.

Lemma validator_monotone_witness :
  ValidationResult.valid
    (validateStatusTransition
       (sampleReport PUBLISHED 1
          ([sampleEntry "e1" HIGH; sampleEntry "e2" HIGH; sampleEntry "e3" HIGH]
           ++ [sampleEntry "e4" LOW]))
       ARCHIVED) = true.
Proof.
  apply (validator_monotone
           (sampleReport PUBLISHED 1
              [sampleEntry "e1" HIGH; sampleEntry "e2" HIGH; sampleEntry "e3" HIGH])
           _ [sampleEntry "e4" LOW] ARCHIVED).
  - reflexivity.
  - reflexivity.
  - reflexivity.
Defined.

(** ** [updateReport]: outcomes, patch, frame *)

(** The status code of [updateReport], case by case. *)
Lemma updateReport_statusCode (now : Z) (id : string)
    (body : UpdateReportDTO.t) (reports : gmap string Report.t) :
  let code := Response.statusCode (updateReport now id body reports).2 in
  match UpdateReportDTO.version body, DataStore.getReport id reports with
  | None, _ => code = 400
  | Some _, None => code = 404
  | Some version, Some existingReport =>
      if decide (version = Report.version existingReport) then
        match statusCheck existingReport body with
        | Some _ => code = 400
        | None => code = 200
        end
      else code = 409
  end.
Proof.
  unfold updateReport.
  destruct (UpdateReportDTO.version body) as [version|]; [|done].
  destruct (DataStore.getReport id reports) as [r|]; [|done].
  destruct (decide (version = Report.version r)) as [->|Hne].
  - rewrite bool_decide_eq_false_2 by (intros H; by apply H).
    destruct (statusCheck r body) as [response|] eqn:Hc; [|done].
    simpl. by apply statusCheck_statusCode in Hc.
  - rewrite bool_decide_eq_true_2 by done. done.
Qed.

(** X3: a successful update never changes the identifier, the creator, the
    creation time or the attachments of a report, whatever the request
    holds; it sets [updatedAt] to the current time, and the report it
    returns is the report it stored. *)
Theorem updateReport_immutable_fields (now : Z) (id : string)
    (body : UpdateReportDTO.t) (reports : gmap string Report.t) :
  Response.statusCode (updateReport now id body reports).2 = 200 →
  ∃ r r',
    DataStore.getReport id reports = Some r
    ∧ DataStore.getReport id (updateReport now id body reports).1 = Some r'
    ∧ Response.body (updateReport now id body reports).2 = ReportJson r'
    ∧ Report.id r' = Report.id r
    ∧ Report.createdBy r' = Report.createdBy r
    ∧ Report.createdAt r' = Report.createdAt r
    ∧ Report.attachments r' = Report.attachments r
    ∧ Report.updatedAt r' = now.
Proof.
  unfold updateReport.
  destruct (UpdateReportDTO.version body) as [version|]; [|done].
  destruct (DataStore.getReport id reports) as [r|] eqn:Hget; [|done].
  case_bool_decide; [done|].
  destruct (statusCheck r body) as [response|] eqn:Hc.
  - simpl. apply statusCheck_statusCode in Hc. by rewrite Hc.
  - simpl. intros _. exists r. eexists. split; [done|].
    split; [apply lookup_insert_eq|]. done.
Qed.

Lemma updateReport_immutable_fields_witness :
  ∃ r r',
    DataStore.getReport "r1" {["r1" := sampleReport DRAFT 1 []]} = Some r
    ∧ DataStore.getReport "r1"
        (updateReport 5 "r1" (sampleUpdate None None (Some 1))
           {["r1" := sampleReport DRAFT 1 []]}).1 = Some r'
    ∧ Response.body
        (updateReport 5 "r1" (sampleUpdate None None (Some 1))
           {["r1" := sampleReport DRAFT 1 []]}).2 = ReportJson r'
    ∧ Report.id r' = Report.id r
    ∧ Report.createdBy r' = Report.createdBy r
    ∧ Report.createdAt r' = Report.createdAt r
    ∧ Report.attachments r' = Report.attachments r
    ∧ Report.updatedAt r' = 5.
Proof.
  apply (updateReport_immutable_fields 5 "r1" (sampleUpdate None None (Some 1))
           {["r1" := sampleReport DRAFT 1 []]}).
  reflexivity.
Defined.

(** X4: [updateReport] touches no report but the one it names, and it
    neither adds nor removes a report. *)
Theorem updateReport_frame (now : Z) (id id' : string)
    (body : UpdateReportDTO.t) (reports : gmap string Report.t) :
  id' ≠ id →
  DataStore.getReport id' (updateReport now id body reports).1
  = DataStore.getReport id' reports
  ∧ dom (updateReport now id body reports).1 = dom reports.
Proof.
  intros Hne.
  destruct (decide (Response.statusCode (updateReport now id body reports).2 = 200))
    as [Hok|Hrej].
  - destruct (updateReport_success _ _ _ _ Hok) as (r & r' & Hget & -> & _).
    unfold DataStore.getReport in *. split.
    + by apply lookup_insert_ne.
    + by apply dom_insert_lookup_L.
  - by rewrite (updateReport_rejected _ _ _ _ Hrej).
Qed.

Lemma updateReport_frame_witness :
  DataStore.getReport "r2"
    (updateReport 5 "r1" (sampleUpdate None None (Some 1))
       {["r1" := sampleReport DRAFT 1 []]}).1
  = DataStore.getReport "r2" {["r1" := sampleReport DRAFT 1 []]}
  ∧ dom (updateReport 5 "r1" (sampleUpdate None None (Some 1))
           {["r1" := sampleReport DRAFT 1 []]}).1
    = dom ({["r1" := sampleReport DRAFT 1 []]} : gmap string Report.t).
Proof.
  apply (updateReport_frame 5 "r1" "r2" (sampleUpdate None None (Some 1))
           {["r1" := sampleReport DRAFT 1 []]}).
  intros E. discriminate E.
Defined.

(** X5: no lost update.  Once an update has succeeded, every further
    update that carries the same version is refused with 409, whatever it
    asks for, and the details report the stored version, one above the
    supplied one. *)
Theorem stale_version_refused (now now' : Z) (id : string)
    (body body' : UpdateReportDTO.t) (reports : gmap string Report.t) :
  Response.statusCode (updateReport now id body reports).2 = 200 →
  UpdateReportDTO.version body' = UpdateReportDTO.version body →
  ∃ version,
    UpdateReportDTO.version body = Some version
    ∧ updateReport now' id body' (updateReport now id body reports).1
      = ((updateReport now id body reports).1,
         errorResponse 409 "CONFLICT"
           (Some "Report has been modified by another user")
           (VersionDetails (version + 1) version)).
Proof.
  intros Hok Hver.
  destruct (updateReport_success _ _ _ _ Hok) as (r & r' & Hget & E & Hv & Hb).
  exists (Report.version r). split; [done|].
  rewrite E. unfold updateReport at 1. rewrite Hver, Hb.
  unfold DataStore.getReport. rewrite lookup_insert_eq.
  rewrite bool_decide_eq_true_2 by lia. by rewrite Hv.
Qed.

Lemma stale_version_refused_witness :
  ∃ version,
    UpdateReportDTO.version (sampleUpdate None None (Some 1)) = Some version
    ∧ updateReport 9 "r1" (sampleUpdate (Some PUBLISHED) None (Some 1))
        (updateReport 5 "r1" (sampleUpdate None None (Some 1))
           {["r1" := sampleReport DRAFT 1 []]}).1
      = ((updateReport 5 "r1" (sampleUpdate None None (Some 1))
           {["r1" := sampleReport DRAFT 1 []]}).1,
         errorResponse 409 "CONFLICT"
           (Some "Report has been modified by another user")
           (VersionDetails (version + 1) version)).
Proof.
  apply (stale_version_refused 5 9 "r1" (sampleUpdate None None (Some 1))
           (sampleUpdate (Some PUBLISHED) None (Some 1))
           {["r1" := sampleReport DRAFT 1 []]}).
  - reflexivity.
  - reflexivity.
Defined.

(** X6: a request that names no status, or the status the report already
    has, is never validated: with a matching version it succeeds whatever
    entries it carries, so a published report can be left with no entries
    and an archived one with fewer than 3 high-priority entries. *)
Theorem same_status_not_validated (now : Z) (id : string)
    (body : UpdateReportDTO.t) (reports : gmap string Report.t)
    (existingReport : Report.t) :
  DataStore.getReport id reports = Some existingReport →
  UpdateReportDTO.version body = Some (Report.version existingReport) →
  default (Report.status existingReport) (UpdateReportDTO.status body)
  = Report.status existingReport →
  ∃ r',
    updateReport now id body reports
    = (<[id := r']> reports, Response.mk 200 None (ReportJson r'))
    ∧ Report.status r' = Report.status existingReport
    ∧ Report.entries r'
      = default (Report.entries existingReport) (UpdateReportDTO.entries body).
Proof.
  intros Hget Hver Hst.
  unfold updateReport. rewrite Hver, Hget.
  rewrite bool_decide_eq_false_2 by (intros H; by apply H).
  assert (statusCheck existingReport body = None) as ->.
  { unfold statusCheck. destruct (UpdateReportDTO.status body) as [s|]; [|done].
    simpl in Hst. subst s. by rewrite bool_decide_eq_false_2 by (intros H; by apply H). }
  eexists. split; [reflexivity|]. done.
Qed.

Lemma same_status_not_validated_witness :
  ∃ r',
    updateReport 5 "r1" (sampleUpdate (Some PUBLISHED) (Some []) (Some 1))
      {["r1" := sampleReport PUBLISHED 1 [sampleEntry "e1" LOW]]}
    = (<["r1" := r']> {["r1" := sampleReport PUBLISHED 1 [sampleEntry "e1" LOW]]},
       Response.mk 200 None (ReportJson r'))
    ∧ Report.status r' = PUBLISHED
    ∧ Report.entries r' = [].
Proof.
  apply (same_status_not_validated 5 "r1"
           (sampleUpdate (Some PUBLISHED) (Some []) (Some 1))
           {["r1" := sampleReport PUBLISHED 1 [sampleEntry "e1" LOW]]}
           (sampleReport PUBLISHED 1 [sampleEntry "e1" LOW])).
  - reflexivity.
  - reflexivity.
  - reflexivity.
Defined.

(** ** [createReport]: outcomes and the stored report *)

Lemma truthy_Some (s : option string) :
  truthy s = true ↔ ∃ x, s = Some x ∧ x ≠ "".
Proof.
  destruct s as [x|]; simpl.
  - rewrite bool_decide_eq_true. split; [by exists x|].
    by intros (? & [= <-] & ?).
  - split; [done|]. by intros (? & ? & _).
Qed.

(** A creation that is answered 201 had a title and a description. *)
Lemma createReport_201 (uuid : string) (user : User.t)
    (body : CreateReportDTO.t) (reports : gmap string Report.t)
    (taskQueue : AsyncTaskQueue) :
  Response.statusCode (createReport uuid user body reports taskQueue).2 = 201 →
  ∃ title description,
    CreateReportDTO.title body = Some title ∧ title ≠ ""
    ∧ CreateReportDTO.description body = Some description
    ∧ description ≠ "".
Proof.
  unfold createReport.
  destruct (truthy (CreateReportDTO.title body)) eqn:Ht;
    destruct (truthy (CreateReportDTO.description body)) eqn:Hd; simpl;
    [|done..].
  apply truthy_Some in Ht as (t & Ht & ?).
  apply truthy_Some in Hd as (d & Hd & ?).
  intros _. by exists t, d.
Qed.

(** X7: [createReport] answers 201 exactly when title and description are
    both present and not empty; otherwise it answers 400
    [VALIDATION_ERROR], stores no report and enqueues no task. *)
Theorem createReport_outcome (uuid : string) (user : User.t)
    (body : CreateReportDTO.t) (reports : gmap string Report.t)
    (taskQueue : AsyncTaskQueue) :
  let result := createReport uuid user body reports taskQueue in
  (Response.statusCode result.2 = 201
   ↔ ∃ title description,
       CreateReportDTO.title body = Some title ∧ title ≠ ""
       ∧ CreateReportDTO.description body = Some description
       ∧ description ≠ "")
  ∧ (Response.statusCode result.2 ≠ 201 →
     ∃ details,
       result
       = (reports, taskQueue,
          errorResponse 400 "VALIDATION_ERROR"
            (Some "Title and description are required") details)).
Proof.
  intros result. subst result. unfold createReport.
  destruct (truthy (CreateReportDTO.title body)) eqn:Ht;
    destruct (truthy (CreateReportDTO.description body)) eqn:Hd; simpl.
  - apply truthy_Some in Ht as (t & Ht & ?).
    apply truthy_Some in Hd as (d & Hd & ?).
    split; [|done]. split; [|done]. intros _. by exists t, d.
  - split; [|by eexists]. split; [done|].
    intros (t & d & _ & _ & Hd' & ?).
    assert (truthy (CreateReportDTO.description body) = true) as E
      by (apply truthy_Some; by exists d).
    by rewrite E in Hd.
  - split; [|by eexists]. split; [done|].
    intros (t & d & Ht' & ? & _).
    assert (truthy (CreateReportDTO.title body) = true) as E
      by (apply truthy_Some; by exists t).
    by rewrite E in Ht.
  - split; [|by eexists]. split; [done|].
    intros (t & d & Ht' & ? & _).
    assert (truthy (CreateReportDTO.title body) = true) as E
      by (apply truthy_Some; by exists t).
    by rewrite E in Ht.
Qed.

Lemma createReport_outcome_witness :
  ∃ details,
    createReport "r1" sampleUser
      (CreateReportDTO.mk (Some "") (Some "Quarterly analysis") None)
      ∅ (newQueue 0)
    = (∅, newQueue 0,
       errorResponse 400 "VALIDATION_ERROR"
         (Some "Title and description are required") details).
Proof.
  apply (proj2 (createReport_outcome "r1" sampleUser
                  (CreateReportDTO.mk (Some "") (Some "Quarterly analysis") None)
                  ∅ (newQueue 0))).
  vm_compute. intros E. discriminate E.
Defined.

(** The report a successful creation stores is a draft at version 1
    without entries. *)
Lemma createReport_new_report (uuid : string) (user : User.t)
    (body : CreateReportDTO.t) (reports : gmap string Report.t)
    (taskQueue : AsyncTaskQueue) :
  Response.statusCode (createReport uuid user body reports taskQueue).2 = 201 →
  ∃ newReport,
    DataStore.getReport uuid (createReport uuid user body reports taskQueue).1.1
    = Some newReport
    ∧ Report.status newReport = DRAFT
    ∧ Report.version newReport = 1
    ∧ Report.entries newReport = [].
Proof.
  intros Hok.
  apply createReport_201 in Hok as (t & d & Ht & Hnt & Hd & Hnd).
  unfold createReport. rewrite Ht, Hd. simpl.
  rewrite !bool_decide_eq_true_2 by done. simpl.
  eexists. split; [apply lookup_insert_eq|]. done.
Qed.



(** X9: what can follow a creation.  The new report, which has no
    entries, cannot be published as it is (400 [NO_ENTRIES]); it can be
    published by a request that also brings at least one entry; and it can
    be archived right away, the archive rule guarding published reports
    only. *)
Theorem after_creation (uuid : string) (user : User.t)
    (body : CreateReportDTO.t) (reports : gmap string Report.t)
    (taskQueue : AsyncTaskQueue) (now : Z) (entry : ReportEntry.t)
    (entries : list ReportEntry.t) :
  let created := (createReport uuid user body reports taskQueue).1.1 in
  let request status entries :=
    UpdateReportDTO.mk None None (Some status) None entries (Some 1) in
  Response.statusCode (createReport uuid user body reports taskQueue).2 = 201 →
  (∃ details,
     updateReport now uuid (request PUBLISHED None) created
     = (created,
        errorResponse 400 "NO_ENTRIES"
          (Some "Cannot publish report: must have at least one entry") details))
  ∧ (∃ r,
       (updateReport now uuid (request PUBLISHED (Some (entry :: entries)))
          created).2
       = Response.mk 200 None (ReportJson r)
       ∧ Report.status r = PUBLISHED ∧ Report.version r = 2
       ∧ Report.entries r = entry :: entries)
  ∧ (∃ r,
       (updateReport now uuid (request ARCHIVED None) created).2
       = Response.mk 200 None (ReportJson r)
       ∧ Report.status r = ARCHIVED ∧ Report.version r = 2
       ∧ Report.entries r = []).
Proof.
  intros created request Hok.
  destruct (createReport_new_report uuid user body reports taskQueue Hok)
    as (r0 & Hget & Hst & Hver & Hen).
  fold created in Hget.
  split; [|split].
  - eexists. unfold updateReport, statusCheck. simpl. rewrite Hget, Hver, Hst.
    simpl. unfold validateStatusTransition, validatePublishTransition,
      reportForValidation. simpl. rewrite Hen. reflexivity.
  - eexists. unfold updateReport, statusCheck. simpl. rewrite Hget, Hver, Hst.
    simpl. split; [reflexivity|]. done.
  - eexists. unfold updateReport, statusCheck. simpl. rewrite Hget, Hver, Hst.
    simpl. unfold validateStatusTransition, validateArchiveTransition. simpl.
    rewrite Hst. simpl. split; [reflexivity|]. simpl. by rewrite Hen.
Qed.

Lemma after_creation_witness :
  let created :=
    (createReport "r1" sampleUser sampleCreate ∅ (newQueue 0)).1.1 in
  let request status entries :=
    UpdateReportDTO.mk None None (Some status) None entries (Some 1) in
  (∃ details,
     updateReport 5 "r1" (request PUBLISHED None) created
     = (created,
        errorResponse 400 "NO_ENTRIES"
          (Some "Cannot publish report: must have at least one entry") details))
  ∧ (∃ r,
       (updateReport 5 "r1"
          (request PUBLISHED (Some (sampleEntry "e1" LOW :: []))) created).2
       = Response.mk 200 None (ReportJson r)
       ∧ Report.status r = PUBLISHED ∧ Report.version r = 2
       ∧ Report.entries r = sampleEntry "e1" LOW :: [])
  ∧ (∃ r,
       (updateReport 5 "r1" (request ARCHIVED None) created).2
       = Response.mk 200 None (ReportJson r)
       ∧ Report.status r = ARCHIVED ∧ Report.version r = 2
       ∧ Report.entries r = []).
Proof.
  apply (after_creation "r1" sampleUser sampleCreate ∅ (newQueue 0) 5
           (sampleEntry "e1" LOW) []).
  reflexivity.
Defined.

(** ** [uploadAttachment]: outcomes, stored file, download link *)

(** X10: [uploadAttachment] checks, in this order, that a file was sent
    (400 [NO_FILE]), that the report exists (404 [NOT_FOUND]), that the
    type is allowed (400 [INVALID_FILE_TYPE]) and that the size is at most
    5 MB, 5242880 bytes, (400 [FILE_TOO_LARGE]); when all hold it answers
    201. *)
Theorem uploadAttachment_outcome (env : Env.t) (user : User.t) (id : string)
    (file : option MulterFile.t) (reports : gmap string Report.t)
    (files : gmap string (FileMetadata.t * list Z)) :
  let response := (uploadAttachment env user id file reports files).2 in
  match file with
  | None => ∃ m d, response = errorResponse 400 "NO_FILE" m d
  | Some file =>
      match DataStore.getReport id reports with
      | None => ∃ m d, response = errorResponse 404 "NOT_FOUND" m d
      | Some _ =>
          if decide (MulterFile.mimetype file
                     ∉ FileStorageService.allowedMimeTypes)
          then ∃ m d, response = errorResponse 400 "INVALID_FILE_TYPE" m d
          else if decide (5242880 < MulterFile.size file)
          then ∃ m d, response = errorResponse 400 "FILE_TOO_LARGE" m d
          else Response.statusCode response = 201
      end
  end.
Proof.
  unfold uploadAttachment.
  destruct file as [file|]; [|by eexists _, _].
  destruct (DataStore.getReport id reports) as [r|]; [|by eexists _, _].
  unfold FileStorageService.validateFileType, FileStorageService.validateFileSize.
  destruct (decide (MulterFile.mimetype file ∉ _)) as [Hty|Hty].
  - rewrite bool_decide_eq_false_2 by done. by eexists _, _.
  - rewrite bool_decide_eq_true_2 by (by apply dec_stable).
    simpl. destruct (decide (5242880 < MulterFile.size file)).
    + rewrite bool_decide_eq_false_2 by lia. by eexists _, _.
    + rewrite bool_decide_eq_true_2 by lia. done.
Qed.

(** X11: after a successful upload the file can be read back under its
    identifier, with its content and with metadata that name the report and
    the uploader; the identifier is appended to the attachments of the
    report; every other file and every other report is as before. *)
Theorem uploadAttachment_stored (env : Env.t) (user : User.t) (id : string)
    (file : option MulterFile.t) (reports : gmap string Report.t)
    (files : gmap string (FileMetadata.t * list Z)) :
  let result := uploadAttachment env user id file reports files in
  Response.statusCode result.2 = 201 →
  ∃ f metadata r r',
    file = Some f
    ∧ getFile (Env.uuid env) result.1.2 = Some (metadata, MulterFile.buffer f)
    ∧ FileMetadata.id metadata = Env.uuid env
    ∧ FileMetadata.reportId metadata = id
    ∧ FileMetadata.uploadedBy metadata = User.id user
    ∧ FileMetadata.originalName metadata = MulterFile.originalname f
    ∧ FileMetadata.mimeType metadata = MulterFile.mimetype f
    ∧ FileMetadata.size metadata = MulterFile.size f
    ∧ FileMetadata.storageKey metadata
      = "reports/" +:+ id +:+ "/attachments/" +:+ Env.uuid env
    ∧ DataStore.getReport id reports = Some r
    ∧ DataStore.getReport id result.1.1 = Some r'
    ∧ Report.attachments r' = Report.attachments r ++ [Env.uuid env]
    ∧ (∀ fileId, fileId ≠ Env.uuid env →
         getFile fileId result.1.2 = getFile fileId files)
    ∧ (∀ id', id' ≠ id →
         DataStore.getReport id' result.1.1 = DataStore.getReport id' reports).
Proof.
  intros result. subst result. unfold uploadAttachment.
  destruct file as [f|]; [|done].
  destruct (DataStore.getReport id reports) as [r|] eqn:Hget; [|done].
  destruct (negb (FileStorageService.validateFileType _)); [done|].
  destruct (negb (FileStorageService.validateFileSize _)); [done|].
  simpl. intros _. exists f. eexists. exists r. eexists.
  split; [done|]. split; [apply lookup_insert_eq|].
  do 8 (split; [done|]).
  split; [apply lookup_insert_eq|]. split; [done|]. split.
  - intros fileId Hne. unfold getFile. by apply lookup_insert_ne.
  - intros id' Hne. unfold DataStore.getReport, DataStore.updateReport.
    by apply lookup_insert_ne.
Qed.

Lemma uploadAttachment_stored_witness :
  ∃ f metadata r r',
    Some sampleFile = Some f
    ∧ getFile "f1"
        (uploadAttachment sampleEnv sampleUser "r1" (Some sampleFile)
           {["r1" := sampleReport DRAFT 1 []]} ∅).1.2
      = Some (metadata, MulterFile.buffer f)
    ∧ FileMetadata.id metadata = "f1"
    ∧ FileMetadata.reportId metadata = "r1"
    ∧ FileMetadata.uploadedBy metadata = User.id sampleUser
    ∧ FileMetadata.originalName metadata = MulterFile.originalname f
    ∧ FileMetadata.mimeType metadata = MulterFile.mimetype f
    ∧ FileMetadata.size metadata = MulterFile.size f
    ∧ FileMetadata.storageKey metadata
      = "reports/" +:+ "r1" +:+ "/attachments/" +:+ "f1"
    ∧ DataStore.getReport "r1" {["r1" := sampleReport DRAFT 1 []]} = Some r
    ∧ DataStore.getReport "r1"
        (uploadAttachment sampleEnv sampleUser "r1" (Some sampleFile)
           {["r1" := sampleReport DRAFT 1 []]} ∅).1.1 = Some r'
    ∧ Report.attachments r' = Report.attachments r ++ ["f1"]
    ∧ (∀ fileId, fileId ≠ "f1" →
         getFile fileId
           (uploadAttachment sampleEnv sampleUser "r1" (Some sampleFile)
              {["r1" := sampleReport DRAFT 1 []]} ∅).1.2
         = getFile fileId ∅)
    ∧ (∀ id', id' ≠ "r1" →
         DataStore.getReport id'
           (uploadAttachment sampleEnv sampleUser "r1" (Some sampleFile)
              {["r1" := sampleReport DRAFT 1 []]} ∅).1.1
         = DataStore.getReport id' {["r1" := sampleReport DRAFT 1 []]}).
Proof.
  apply (uploadAttachment_stored sampleEnv sampleUser "r1" (Some sampleFile)
           {["r1" := sampleReport DRAFT 1 []]} ∅).
  reflexivity.
Defined.

(** X12: the download link round trip.  The link [generateDownloadUrl]
    builds at time [now] names the file, a token and the expiry time
    [now + expiresIn * 1000]; [verifyDownloadUrl] accepts this token for
    this file and expiry at every time up to the expiry, and rejects any
    token once the expiry has passed. *)
Theorem download_link_round_trip (sha256hex : string → string)
    (secret : string) (now later : Z) (fileId : string) (expiresIn : Z) :
  let expires := now + expiresIn * 1000 in
  ∃ token,
    FileStorageService.generateDownloadUrl sha256hex secret now fileId expiresIn
    = "/api/files/" +:+ fileId +:+ "/download?token=" +:+ token
      +:+ "&expires=" +:+ pretty expires
    ∧ (later <= expires →
       verifyDownloadUrl sha256hex secret later fileId token expires = true)
    ∧ (expires < later →
       ∀ anyToken,
         verifyDownloadUrl sha256hex secret later fileId anyToken expires
         = false).
Proof.
  intros expires. eexists. split; [reflexivity|]. split.
  - intros Hle. unfold verifyDownloadUrl.
    rewrite bool_decide_eq_false_2 by lia.
    by rewrite bool_decide_eq_true_2.
  - intros Hlt anyToken. unfold verifyDownloadUrl.
    by rewrite bool_decide_eq_true_2 by lia.
Qed.

Lemma download_link_round_trip_witness :
  ∃ token,
    FileStorageService.generateDownloadUrl (λ s, s) "secret" 1000 "f1" 3600
    = "/api/files/" +:+ "f1" +:+ "/download?token=" +:+ token
      +:+ "&expires=" +:+ pretty (1000 + 3600 * 1000)
    ∧ (2000 <= 1000 + 3600 * 1000 →
       verifyDownloadUrl (λ s, s) "secret" 2000 "f1" token (1000 + 3600 * 1000)
       = true)
    ∧ (1000 + 3600 * 1000 < 2000 →
       ∀ anyToken,
         verifyDownloadUrl (λ s, s) "secret" 2000 "f1" anyToken
           (1000 + 3600 * 1000) = false).
Proof.
  apply (download_link_round_trip (λ s, s) "secret" 1000 2000 "f1" 3600).
Defined.

Lemma statusCheck_ext (r1 r2 : Report.t) (body : UpdateReportDTO.t) :
  Report.status r1 = Report.status r2 →
  Report.entries r1 = Report.entries r2 →
  statusCheck r1 body = statusCheck r2 body.
Proof.
  intros Hst Hen. unfold statusCheck.
  destruct (UpdateReportDTO.status body) as [s|]; [|done].
  rewrite Hst. case_bool_decide; [|done].
  assert (validateStatusTransition (reportForValidation r1 body) s
          = validateStatusTransition (reportForValidation r2 body) s) as ->; [|done].
  unfold validateStatusTransition, validateArchiveTransition,
    validatePublishTransition, reportForValidation. simpl.
  by rewrite Hst, Hen.
Qed.

(** The report a successful upload stores. *)
Lemma uploadAttachment_report (env : Env.t) (user : User.t) (id : string)
    (file : option MulterFile.t) (reports : gmap string Report.t)
    (files : gmap string (FileMetadata.t * list Z)) (r : Report.t) :
  Response.statusCode (uploadAttachment env user id file reports files).2 = 201 →
  DataStore.getReport id reports = Some r →
  (uploadAttachment env user id file reports files).1.1
  = <[id := Report.mk (Report.id r) (Report.title r) (Report.description r)
             (Report.status r) (Report.createdBy r) (Report.createdAt r)
             (Env.now env) (Report.version r) (Report.entries r)
             (Report.metadata r) (Report.attachments r ++ [Env.uuid env])]>
      reports.
Proof.
  unfold uploadAttachment. intros Hup Hget. revert Hup.
  destruct file as [f|]; [|done]. rewrite Hget.
  destruct (negb (FileStorageService.validateFileType _)); [done|].
  destruct (negb (FileStorageService.validateFileSize _)); [done|].
  done.
Qed.

(** X13: an upload does not disturb optimistic locking and is not lost by
    it: after a successful upload, an update that would have succeeded
    before the upload, carrying the version read before it, still
    succeeds, and the updated report has the new attachment. *)
Theorem upload_then_update (env : Env.t) (user : User.t) (id : string)
    (file : option MulterFile.t) (reports : gmap string Report.t)
    (files : gmap string (FileMetadata.t * list Z))
    (now : Z) (body : UpdateReportDTO.t) (r : Report.t) :
  let uploaded := (uploadAttachment env user id file reports files).1.1 in
  Response.statusCode (uploadAttachment env user id file reports files).2 = 201 →
  DataStore.getReport id reports = Some r →
  Response.statusCode (updateReport now id body reports).2 = 200 →
  ∃ r',
    updateReport now id body uploaded
    = (<[id := r']> uploaded, Response.mk 200 None (ReportJson r'))
    ∧ Report.version r' = Report.version r + 1
    ∧ Report.attachments r' = Report.attachments r ++ [Env.uuid env].
Proof.
  intros uploaded Hup Hget Hok.
  subst uploaded. rewrite (uploadAttachment_report _ _ _ _ _ _ r Hup Hget).
  set (r1 := Report.mk _ _ _ _ _ _ _ _ _ _ _).
  pose proof (updateReport_statusCode now id body reports) as Hout.
  simpl in Hout. rewrite Hget in Hout.
  destruct (UpdateReportDTO.version body) as [v|] eqn:Hvb;
    [|by rewrite Hout in Hok].
  destruct (decide (v = Report.version r)) as [->|]; [|by rewrite Hout in Hok].
  destruct (statusCheck r body) as [resp|] eqn:Hc; [by rewrite Hout in Hok|].
  unfold updateReport. rewrite Hvb.
  unfold DataStore.getReport. rewrite lookup_insert_eq.
  rewrite bool_decide_eq_false_2 by (intros H; by apply H).
  rewrite (statusCheck_ext r1 r body) by done. rewrite Hc.
  eexists. split; [reflexivity|]. done.
Qed.

Lemma upload_then_update_witness :
  ∃ r',
    updateReport 5 "r1" (sampleUpdate None None (Some 1))
      (uploadAttachment sampleEnv sampleUser "r1" (Some sampleFile)
         {["r1" := sampleReport DRAFT 1 []]} ∅).1.1
    = (<["r1" := r']>
         (uploadAttachment sampleEnv sampleUser "r1" (Some sampleFile)
            {["r1" := sampleReport DRAFT 1 []]} ∅).1.1,
       Response.mk 200 None (ReportJson r'))
    ∧ Report.version r' = Report.version (sampleReport DRAFT 1 []) + 1
    ∧ Report.attachments r'
      = Report.attachments (sampleReport DRAFT 1 []) ++ ["f1"].
Proof.
  apply (upload_then_update sampleEnv sampleUser "r1" (Some sampleFile)
           {["r1" := sampleReport DRAFT 1 []]} ∅ 5
           (sampleUpdate None None (Some 1)) (sampleReport DRAFT 1 [])).
  - reflexivity.
  - reflexivity.
  - reflexivity.
Defined.

(** ** The [DataStore] class *)

Lemma JsMap_get_set_eq {V} (key : string) (value : V) (m : JsMap.t V) :
  JsMap.get key (JsMap.set key value m) = Some value.
Proof.
  induction m as [|[k v] m IH]; simpl.
  - by rewrite decide_True.
  - destruct (decide (key = k)) as [->|Hne]; simpl.
    + by rewrite decide_True.
    + by rewrite decide_False.
Qed.

Lemma JsMap_get_set_ne {V} (key key' : string) (value : V) (m : JsMap.t V) :
  key' ≠ key → JsMap.get key' (JsMap.set key value m) = JsMap.get key' m.
Proof.
  intros Hne. induction m as [|[k v] m IH]; simpl.
  - by rewrite decide_False.
  - destruct (decide (key = k)) as [->|Hk]; simpl.
    + by rewrite !decide_False.
    + by rewrite IH.
Qed.

Lemma JsMap_get_None {V} (key : string) (m : JsMap.t V) :
  JsMap.get key m = None ↔ key ∉ JsMap.keys m.
Proof.
  unfold JsMap.keys. induction m as [|[k v] m IH]; simpl.
  - split; [intros _; apply not_elem_of_nil|done].
  - rewrite not_elem_of_cons. destruct (decide (key = k)) as [->|Hne].
    + split; [done|]. by intros [? _].
    + rewrite IH. split; [by intros ?|by intros [_ ?]].
Qed.

Lemma JsMap_set_absent {V} (key : string) (value : V) (m : JsMap.t V) :
  JsMap.get key m = None → JsMap.set key value m = m ++ [(key, value)].
Proof.
  induction m as [|[k v] m IH]; simpl; [done|].
  destruct (decide (key = k)); [done|]. intros H. by rewrite IH.
Qed.

Lemma JsMap_keys_set_present {V} (key : string) (value : V) (m : JsMap.t V) :
  is_Some (JsMap.get key m) →
  JsMap.keys (JsMap.set key value m) = JsMap.keys m.
Proof.
  unfold JsMap.keys. induction m as [|[k v] m IH]; simpl.
  - by intros [? ?].
  - destruct (decide (key = k)) as [->|Hne]; simpl; [done|].
    intros H. f_equal. by apply IH.
Qed.

Lemma JsMap_set_NoDup {V} (key : string) (value : V) (m : JsMap.t V) :
  NoDup (JsMap.keys m) → NoDup (JsMap.keys (JsMap.set key value m)).
Proof.
  intros Hnd. destruct (JsMap.get key m) as [v|] eqn:Hget.
  - by rewrite JsMap_keys_set_present.
  - rewrite JsMap_set_absent by done. unfold JsMap.keys in *.
    rewrite fmap_app. simpl. apply NoDup_app. split; [done|].
    split; [|apply NoDup_singleton].
    intros k Hk ->%list_elem_of_singleton.
    by apply JsMap_get_None in Hget.
Qed.

Lemma JsMap_keys_delete {V} (key : string) (m : JsMap.t V) :
  JsMap.keys (JsMap.delete key m) `sublist_of` JsMap.keys m.
Proof.
  unfold JsMap.keys. induction m as [|[k v] m IH]; simpl; [done|].
  destruct (decide (key = k)); simpl.
  - by apply sublist_cons.
  - by apply sublist_skip.
Qed.

Lemma JsMap_get_delete_ne {V} (key key' : string) (m : JsMap.t V) :
  key' ≠ key → JsMap.get key' (JsMap.delete key m) = JsMap.get key' m.
Proof.
  intros Hne. induction m as [|[k v] m IH]; simpl; [done|].
  destruct (decide (key = k)) as [->|Hk]; simpl.
  - by rewrite decide_False.
  - by rewrite IH.
Qed.

Lemma JsMap_get_delete_eq {V} (key : string) (m : JsMap.t V) :
  NoDup (JsMap.keys m) → JsMap.get key (JsMap.delete key m) = None.
Proof.
  unfold JsMap.keys. induction m as [|[k v] m IH]; simpl; [done|].
  intros [Hk Hnd]%NoDup_cons.
  destruct (decide (key = k)) as [->|Hne]; simpl.
  - by apply JsMap_get_None.
  - rewrite decide_False by done. by apply IH.
Qed.

Lemma JsMap_get_list_to_map {V} (key : string) (m : JsMap.t V) :
  JsMap.get key m = (list_to_map m : gmap string V) !! key.
Proof.
  induction m as [|[k v] m IH]; simpl; [done|].
  destruct (decide (key = k)) as [->|Hne].
  - by rewrite lookup_insert_eq.
  - by rewrite lookup_insert_ne.
Qed.

Lemma JsMap_list_to_map_set {V} (key : string) (value : V) (m : JsMap.t V) :
  (list_to_map (JsMap.set key value m) : gmap string V)
  = <[key := value]> (list_to_map m).
Proof.
  induction m as [|[k v] m IH]; simpl; [done|].
  destruct (decide (key = k)) as [->|Hne]; simpl.
  - by rewrite insert_insert_eq.
  - rewrite IH. by apply insert_insert_ne.
Qed.

(** X14: the finite map the controllers work on is the [reports] of the
    [DataStore] class.  [getReport] and [createReport] of the class are
    lookup and insert on it; [updateReport] of the class is insert when the
    report is present, which is the only way the controllers call it, and
    does nothing and returns [undefined] when it is absent. *)
Theorem DataStoreClass_refines (store : DataStoreClass.t) (id : string)
    (report : Report.t) :
  DataStoreClass.getReport id store
  = DataStore.getReport id (DataStoreClass.reportsMap store)
  ∧ DataStoreClass.reportsMap (DataStoreClass.createReport report store).1
    = DataStore.createReport report (DataStoreClass.reportsMap store)
  ∧ (is_Some (DataStoreClass.getReport id store) →
     DataStoreClass.reportsMap (DataStoreClass.updateReport id report store).1
     = DataStore.updateReport id report (DataStoreClass.reportsMap store)
     ∧ (DataStoreClass.updateReport id report store).2 = Some report)
  ∧ (DataStoreClass.getReport id store = None →
     DataStoreClass.updateReport id report store = (store, None)).
Proof.
  unfold DataStoreClass.getReport, DataStoreClass.reportsMap,
    DataStoreClass.createReport, DataStoreClass.updateReport,
    DataStore.getReport, DataStore.createReport, DataStore.updateReport,
    JsMap.has.
  split; [apply JsMap_get_list_to_map|].
  split; [apply JsMap_list_to_map_set|]. split.
  - intros H. rewrite bool_decide_eq_true_2 by done. simpl.
    split; [apply JsMap_list_to_map_set|done].
  - intros H. rewrite bool_decide_eq_false_2; [done|].
    rewrite H. by intros [? ?].
Qed.

Lemma DataStoreClass_refines_witness :
  let store :=
    (DataStoreClass.createReport (sampleReport DRAFT 1 [])
       DataStoreClass.empty).1 in
  (DataStoreClass.reportsMap
     (DataStoreClass.updateReport "r1" (sampleReport DRAFT 2 []) store).1
   = DataStore.updateReport "r1" (sampleReport DRAFT 2 [])
       (DataStoreClass.reportsMap store)
   ∧ (DataStoreClass.updateReport "r1" (sampleReport DRAFT 2 []) store).2
     = Some (sampleReport DRAFT 2 []))
  ∧ DataStoreClass.updateReport "r2" (sampleReport DRAFT 2 []) store
    = (store, None).
Proof.
  intros store. split.
  - apply (DataStoreClass_refines store "r1" (sampleReport DRAFT 2 [])).
    simpl. by eexists.
  - apply (DataStoreClass_refines store "r2" (sampleReport DRAFT 2 [])).
    reflexivity.
Defined.

(** X15: [deleteReport] reports whether the report was there, after it the
    report is gone, and every other report is as before. *)
Theorem deleteReport_spec (store : DataStoreClass.t) (id : string) :
  NoDup (JsMap.keys (DataStoreClass.reports store)) →
  let result := DataStoreClass.deleteReport id store in
  (result.2 = true ↔ is_Some (DataStoreClass.getReport id store))
  ∧ DataStoreClass.getReport id result.1 = None
  ∧ (∀ id', id' ≠ id →
       DataStoreClass.getReport id' result.1
       = DataStoreClass.getReport id' store)
  ∧ NoDup (JsMap.keys (DataStoreClass.reports result.1)).
Proof.
  intros Hnd result. subst result.
  unfold DataStoreClass.deleteReport, DataStoreClass.getReport, JsMap.has.
  simpl. split; [apply bool_decide_eq_true|].
  split; [by apply JsMap_get_delete_eq|].
  split; [intros id' Hne; by apply JsMap_get_delete_ne|].
  eapply sublist_NoDup; [exact Hnd|apply JsMap_keys_delete].
Qed.

Lemma deleteReport_spec_witness :
  let store :=
    (DataStoreClass.createReport (sampleReport DRAFT 1 [])
       DataStoreClass.empty).1 in
  let result := DataStoreClass.deleteReport "r1" store in
  (result.2 = true ↔ is_Some (DataStoreClass.getReport "r1" store))
  ∧ DataStoreClass.getReport "r1" result.1 = None
  ∧ (∀ id', id' ≠ "r1" →
       DataStoreClass.getReport id' result.1
       = DataStoreClass.getReport id' store)
  ∧ NoDup (JsMap.keys (DataStoreClass.reports result.1)).
Proof.
  intros store.
  apply (deleteReport_spec store "r1").
  simpl. apply NoDup_singleton.
Defined.



(** ** Authentication, authorization and the routes *)

Lemma substring_all (s : string) : String.substring 0 (String.length s) s = s.
Proof. induction s as [|a s IH]; simpl; [done|]. by rewrite IH. Qed.

(** X17: [authenticate] hands to [verifyToken] exactly what follows the
    prefix [Bearer ] of the authorization header, and lets the request
    through as the user [verifyToken] returns; a header that is missing or
    does not start with [Bearer ] is answered 401 [UNAUTHORIZED] without
    the token being looked at, and a token that [verifyToken] refuses is
    answered 401 [INVALID_TOKEN]. *)
Theorem authenticate_bearer (crypto : Crypto.t) (token : string)
    (authorization : option string) :
  authenticate crypto (Some ("Bearer " +:+ token))
  = match Crypto.verifyToken crypto token with
    | Some user => inr user
    | None =>
        inl (errorResponse 401 "INVALID_TOKEN"
               (Some "Invalid or expired token") NoDetails)
    end
  ∧ ((∀ rest, authorization ≠ Some ("Bearer " +:+ rest)) →
     authenticate crypto authorization
     = inl (errorResponse 401 "UNAUTHORIZED" (Some "No token provided")
              NoDetails)).
Proof.
  split.
  - unfold authenticate. simpl.
    change ("" +:+ token) with token.
    replace (String.prefix "" token) with true by (by destruct token).
    simpl. rewrite Nat.sub_0_r, substring_all.
    by destruct (Crypto.verifyToken crypto token).
  - intros Hno. unfold authenticate.
    destruct authorization as [h|]; [|done].
    destruct (String.prefix "Bearer " h) eqn:Hp.
    + exfalso.
      do 7 (destruct h as [|[[] [] [] [] [] [] [] []] h]; try discriminate Hp).
      by apply (Hno h).
    + by rewrite orb_true_r.
Qed.

Lemma authenticate_bearer_witness :
  authenticate (Crypto.mk (λ p, p) String.eqb (λ _, "tok") (λ _, None)) None
  = inl (errorResponse 401 "UNAUTHORIZED" (Some "No token provided") NoDetails).
Proof.
  apply (authenticate_bearer
           (Crypto.mk (λ p, p) String.eqb (λ _, "tok") (λ _, None)) "" None).
  intros rest E. discriminate E.
Defined.

Lemma authenticate_rejects_401 (crypto : Crypto.t)
    (authorization : option string) (response : Response.t) :
  authenticate crypto authorization = inl response →
  Response.statusCode response = 401.
Proof.
  unfold authenticate. destruct authorization as [h|]; [|by intros [= <-]].
  destruct (_ || _); [by intros [= <-]|].
  destruct (Crypto.verifyToken _ _); [done|by intros [= <-]].
Qed.

(** X18: the routes that change reports are gated.  Without a valid token
    the request is answered 401, for a reader it is answered 403
    [FORBIDDEN], and in both cases no report, task or file changes; for an
    editor or an admin the request reaches the controller, as the user of
    the token (on the attachment route, with the file the upload middleware
    has passed on). *)
Theorem mutating_routes_gated (crypto : Crypto.t)
    (authorization : option string) (now : Z) (env : Env.t) (uuid id : string)
    (create : CreateReportDTO.t) (update : UpdateReportDTO.t)
    (file : option MulterFile.t) (reports : gmap string Report.t)
    (taskQueue : AsyncTaskQueue)
    (files : gmap string (FileMetadata.t * list Z)) :
  let post := postReportRoute crypto authorization uuid create reports taskQueue in
  let put := putReportRoute crypto authorization now id update reports in
  let attach :=
    postAttachmentRoute crypto authorization env id file reports files in
  match authenticate crypto authorization with
  | inl response =>
      Response.statusCode response = 401
      ∧ post = (reports, taskQueue, response)
      ∧ put = (reports, response)
      ∧ attach = (reports, files, response)
  | inr user =>
      if decide (AuthUser.role user = READER) then
        let forbidden :=
          errorResponse 403 "FORBIDDEN" (Some "Insufficient permissions")
            NoDetails in
        post = (reports, taskQueue, forbidden)
        ∧ put = (reports, forbidden)
        ∧ attach = (reports, files, forbidden)
      else
        post = createReport uuid (AuthUser.toUser user) create reports taskQueue
        ∧ put = updateReport now id update reports
        ∧ attach
          = uploadAttachment env (AuthUser.toUser user) id file reports files
  end.
Proof.
  intros post put attach. subst post put attach.
  unfold postReportRoute, putReportRoute, postAttachmentRoute, guarded.
  destruct (authenticate crypto authorization) as [response|user] eqn:Hauth.
  - split; [by eapply authenticate_rejects_401|done].
  - unfold authorize. destruct user as [uid uname []]; simpl; done.
Qed.

(** ** Registration and login *)

Lemma getUserByUsername_None (username : string) (store : DataStoreClass.t) :
  DataStoreClass.getUserByUsername username store = None
  ↔ username ∉ usernames store.
Proof.
  unfold DataStoreClass.getUserByUsername, usernames.
  rewrite fmap_None, list_find_None, Forall_forall.
  rewrite list_elem_of_fmap. split.
  - intros H (u & -> & Hu). by apply (H u).
  - intros H u Hu Hn. apply H. by exists u.
Qed.

Lemma getUserByUsername_Some (username : string) (store : DataStoreClass.t)
    (user : UserAccount.t) :
  DataStoreClass.getUserByUsername username store = Some user →
  UserAccount.username user = username
  ∧ user ∈ JsMap.values (DataStoreClass.users store).
Proof.
  unfold DataStoreClass.getUserByUsername.
  intros ([i u] & Hf & ->)%fmap_Some. simpl.
  apply list_find_Some in Hf as (Hi & Hu & _). split; [done|].
  by eapply list_elem_of_lookup_2.
Qed.

Lemma elem_of_values_set {V} (key : string) (value x : V) (m : JsMap.t V) :
  x ∈ JsMap.values (JsMap.set key value m) → x = value ∨ x ∈ JsMap.values m.
Proof.
  unfold JsMap.values. induction m as [|[k v] m IH]; simpl.
  - intros ->%list_elem_of_singleton. by left.
  - destruct (decide (key = k)); simpl.
    + intros [->|H]%elem_of_cons; [by left|]. right. by right.
    + intros [->|H]%elem_of_cons; [right; left|].
      destruct (IH H) as [->|?]; [by left|]. right. by right.
Qed.

Lemma usernames_set_NoDup (user : UserAccount.t) (m : JsMap.t UserAccount.t) :
  NoDup (UserAccount.username <$> JsMap.values m) →
  UserAccount.username user ∉ UserAccount.username <$> JsMap.values m →
  NoDup (UserAccount.username
           <$> JsMap.values (JsMap.set (UserAccount.id user) user m)).
Proof.
  unfold JsMap.values. induction m as [|[k v] m IH]; simpl.
  - intros _ _. apply NoDup_singleton.
  - intros [Hv Hnd]%NoDup_cons [Hne Hin]%not_elem_of_cons.
    destruct (decide (UserAccount.id user = k)); simpl.
    + apply NoDup_cons. split; [done|done].
    + apply NoDup_cons. split; [|by apply IH].
      intros (u & Hu & Hin')%list_elem_of_fmap.
      apply (elem_of_values_set (UserAccount.id user) user u m) in Hin'
        as [->|Hin'].
      * by apply Hne.
      * apply Hv. rewrite Hu. by apply list_elem_of_fmap_2.
Qed.

Lemma list_find_snd_cons {A} (P : A → Prop) `{∀ x, Decision (P x)}
    (x : A) (l : list A) :
  snd <$> list_find P (x :: l)
  = if decide (P x) then Some x else snd <$> list_find P l.
Proof.
  simpl. destruct (decide (P x)); [done|].
  by destruct (list_find P l) as [[i y]|].
Qed.

(** After [createUser] an account whose username was not taken is the one
    found under its username. *)
Lemma getUserByUsername_createUser (user : UserAccount.t)
    (store : DataStoreClass.t) :
  UserAccount.username user ∉ usernames store →
  DataStoreClass.getUserByUsername (UserAccount.username user)
    (DataStoreClass.createUser user store).1 = Some user.
Proof.
  unfold DataStoreClass.getUserByUsername, usernames, DataStoreClass.createUser,
    JsMap.values. cbn [fst DataStoreClass.users].
  induction (DataStoreClass.users store) as [|[k v] m IH].
  - intros _. cbn [JsMap.set]. rewrite fmap_cons, list_find_snd_cons.
    by rewrite decide_True.
  - rewrite !fmap_cons. intros [Hne Hin]%not_elem_of_cons.
    cbn [JsMap.set]. destruct (decide (UserAccount.id user = k)).
    + rewrite fmap_cons, list_find_snd_cons. by rewrite decide_True.
    + rewrite fmap_cons, list_find_snd_cons. cbn [snd].
      rewrite decide_False by done. by apply IH.
Qed.

(** X19: a registration that nothing else runs into between its check
    and its write never lets two accounts share a username.  A request for
    a username that is taken is answered 409 [USER_EXISTS] and the store
    stays as it was; and whatever the request, if the usernames in the
    store were distinct before, they are distinct after. *)
Theorem register_usernames_unique (crypto : Crypto.t) (uuid : string)
    (now : Z) (body : Credentials.t) (store : DataStoreClass.t) :
  NoDup (usernames store) →
  NoDup (usernames (register crypto uuid now body store).1)
  ∧ (∀ name,
       Credentials.username body = Some name →
       name ≠ "" →
       truthy (Credentials.password body) = true →
       name ∈ usernames store →
       register crypto uuid now body store
       = (store,
          AuthError (errorResponse 409 "USER_EXISTS"
                       (Some "Username already taken") NoDetails))).
Proof.
  intros Hnd. unfold register, register_check, register_resume.
  destruct (truthy (Credentials.username body)) eqn:Hu; simpl.
  2:{ split; [done|]. intros name Hn Hne _ _. rewrite Hn in Hu. simpl in Hu.
      by apply bool_decide_eq_false in Hu. }
  destruct (truthy (Credentials.password body)) eqn:Hp; simpl.
  2:{ split; [done|]. by intros name _ _ ? _. }
  destruct (DataStoreClass.getUserByUsername _ store) as [existing|] eqn:Hget.
  - split; [done|]. by intros name Hn _ _ _.
  - split.
    + apply getUserByUsername_None in Hget. unfold usernames in *.
      cbn [fst DataStoreClass.createUser DataStoreClass.users].
      by apply (usernames_set_NoDup (UserAccount.mk uuid _ _ _ _)).
    + intros name Hn _ _ Hin. rewrite Hn in Hget. simpl in Hget.
      by apply getUserByUsername_None in Hget.
Qed.

Lemma register_usernames_unique_witness :
  let store :=
    (register sampleCrypto "u1" 0
       (Credentials.mk (Some "editor1") (Some "pw") (Some EDITOR))
       DataStoreClass.empty).1 in
  NoDup (usernames
           (register sampleCrypto "u2" 1
              (Credentials.mk (Some "editor1") (Some "other") None) store).1)
  ∧ register sampleCrypto "u2" 1
      (Credentials.mk (Some "editor1") (Some "other") None) store
    = (store,
       AuthError (errorResponse 409 "USER_EXISTS"
                    (Some "Username already taken") NoDetails)).
Proof.
  intros store.
  destruct (register_usernames_unique sampleCrypto "u2" 1
              (Credentials.mk (Some "editor1") (Some "other") None) store)
    as [H1 H2].
  - apply NoDup_singleton.
  - split; [exact H1|]. apply (H2 "editor1").
    + reflexivity.
    + intros E. discriminate E.
    + reflexivity.
    + simpl. left.
Defined.

(** X20: [login] grants access only when an account with the username
    exists and [comparePassword] accepts the password against the stored
    hash; it then answers 200 with the identity of that account.  Every
    other request that carries a username and a password gets one and the
    same 401 [INVALID_CREDENTIALS] answer, whether the account is missing
    or the password is wrong. *)
Theorem login_outcome (crypto : Crypto.t) (body : Credentials.t)
    (store : DataStoreClass.t) (name password : string) :
  Credentials.username body = Some name → name ≠ "" →
  Credentials.password body = Some password → password ≠ "" →
  match DataStoreClass.getUserByUsername name store with
  | Some account =>
      if Crypto.comparePassword crypto password (UserAccount.password account)
      then
        let user :=
          AuthUser.mk (UserAccount.id account) (UserAccount.username account)
                      (UserAccount.role account) in
        login crypto body store
        = AuthGranted 200 user (Crypto.generateToken crypto user)
        ∧ UserAccount.username account = name
      else
        login crypto body store
        = AuthError (errorResponse 401 "INVALID_CREDENTIALS"
                       (Some "Invalid username or password") NoDetails)
  | None =>
      login crypto body store
      = AuthError (errorResponse 401 "INVALID_CREDENTIALS"
                     (Some "Invalid username or password") NoDetails)
  end.
Proof.
  intros Hn Hne Hp Hpe. unfold login. rewrite Hn, Hp. simpl.
  rewrite !bool_decide_eq_true_2 by done. simpl.
  destruct (DataStoreClass.getUserByUsername name store) as [account|] eqn:Hget;
    [|done].
  destruct (Crypto.comparePassword _ _ _); simpl; [|done].
  split; [done|]. by apply getUserByUsername_Some in Hget as [? _].
Qed.

Lemma login_outcome_witness :
  login sampleCrypto (Credentials.mk (Some "nobody") (Some "pw") None)
    DataStoreClass.empty
  = AuthError (errorResponse 401 "INVALID_CREDENTIALS"
                 (Some "Invalid username or password") NoDetails).
Proof.
  apply (login_outcome sampleCrypto
           (Credentials.mk (Some "nobody") (Some "pw") None)
           DataStoreClass.empty "nobody" "pw").
  - reflexivity.
  - intros E. discriminate E.
  - reflexivity.
  - intros E. discriminate E.
Defined.

(** X21: registration followed by login.  After a successful registration,
    a login under the same username is granted exactly when
    [comparePassword] accepts the offered password against the hash
    [hashPassword] made of the registered one, and it is granted as the
    user that was registered; the password itself is stored only as that
    hash. *)
Theorem register_then_login (crypto : Crypto.t) (uuid : string) (now : Z)
    (body attempt : Credentials.t) (store : DataStoreClass.t)
    (user : AuthUser.t) (token offered : string) :
  (register crypto uuid now body store).2 = AuthGranted 201 user token →
  Credentials.username attempt = Credentials.username body →
  Credentials.password attempt = Some offered → offered ≠ "" →
  ∃ registered,
    Credentials.password body = Some registered
    ∧ DataStoreClass.getUserById uuid (register crypto uuid now body store).1
      = Some (UserAccount.mk uuid (AuthUser.username user)
                (Crypto.hashPassword crypto registered) (AuthUser.role user) now)
    ∧ login crypto attempt (register crypto uuid now body store).1
      = if Crypto.comparePassword crypto offered
             (Crypto.hashPassword crypto registered)
        then AuthGranted 200 user (Crypto.generateToken crypto user)
        else AuthError (errorResponse 401 "INVALID_CREDENTIALS"
                          (Some "Invalid username or password") NoDetails).
Proof.
  intros Hreg Hname Hoff Hne. revert Hreg. unfold register, register_check, register_resume.
  destruct (truthy (Credentials.username body)) eqn:Hu; simpl; [|done].
  destruct (truthy (Credentials.password body)) eqn:Hp; simpl; [|done].
  apply truthy_Some in Hu as (name & Hn & Hnn).
  apply truthy_Some in Hp as (registered & Hr & Hrn).
  rewrite Hn, Hr. simpl.
  destruct (DataStoreClass.getUserByUsername name store) eqn:Hget; [done|].
  simpl. intros [= <- <-]. exists registered. split; [done|].
  set (newUser := UserAccount.mk _ _ _ _ _).
  split.
  - unfold DataStoreClass.getUserById. simpl. apply JsMap_get_set_eq.
  - apply getUserByUsername_None in Hget.
    pose proof (getUserByUsername_createUser newUser store Hget) as Hfind.
    simpl in Hfind. unfold login. rewrite Hname, Hn, Hoff. simpl.
    rewrite !bool_decide_eq_true_2 by done. simpl.
    unfold DataStoreClass.createUser. simpl. rewrite Hfind.
    by destruct (Crypto.comparePassword _ _ _).
Qed.

Lemma register_then_login_witness :
  ∃ registered,
    Some "pw" = Some registered
    ∧ DataStoreClass.getUserById "u1"
        (register sampleCrypto "u1" 0
           (Credentials.mk (Some "editor1") (Some "pw") (Some EDITOR))
           DataStoreClass.empty).1
      = Some (UserAccount.mk "u1" "editor1"
                (Crypto.hashPassword sampleCrypto registered) EDITOR 0)
    ∧ login sampleCrypto (Credentials.mk (Some "editor1") (Some "pw") None)
        (register sampleCrypto "u1" 0
           (Credentials.mk (Some "editor1") (Some "pw") (Some EDITOR))
           DataStoreClass.empty).1
      = if Crypto.comparePassword sampleCrypto "pw"
             (Crypto.hashPassword sampleCrypto registered)
        then AuthGranted 200 (AuthUser.mk "u1" "editor1" EDITOR)
               (Crypto.generateToken sampleCrypto
                  (AuthUser.mk "u1" "editor1" EDITOR))
        else AuthError (errorResponse 401 "INVALID_CREDENTIALS"
                          (Some "Invalid username or password") NoDetails).
Proof.
  apply (register_then_login sampleCrypto "u1" 0
           (Credentials.mk (Some "editor1") (Some "pw") (Some EDITOR))
           (Credentials.mk (Some "editor1") (Some "pw") None)
           DataStoreClass.empty (AuthUser.mk "u1" "editor1" EDITOR)
           "token-u1" "pw").
  - reflexivity.
  - reflexivity.
  - reflexivity.
  - intros E. discriminate E.
Defined.

Lemma users_createUser_fresh (user : UserAccount.t) (store : DataStoreClass.t) :
  DataStoreClass.getUserById (UserAccount.id user) store = None →
  DataStoreClass.users (DataStoreClass.createUser user store).1
  = DataStoreClass.users store ++ [(UserAccount.id user, user)].
Proof. intros H. simpl. by apply JsMap_set_absent. Qed.

(** X22: the check of [register] and its write are apart, with the wait
    for the hash between them.  When two requests for the same free
    username have both passed the check before either goes on, both are
    answered 201, each as its own user, and two accounts share the
    username from then on; a lookup by this username, as [login] does it,
    finds the account that was created first. *)
Theorem registrations_interleaved (crypto : Crypto.t) (uuid1 uuid2 : string)
    (now1 now2 : Z) (body1 body2 : Credentials.t) (store : DataStoreClass.t)
    (name : string) :
  Credentials.username body1 = Some name →
  Credentials.username body2 = Some name →
  name ≠ "" →
  truthy (Credentials.password body1) = true →
  truthy (Credentials.password body2) = true →
  name ∉ usernames store →
  DataStoreClass.getUserById uuid1 store = None →
  DataStoreClass.getUserById uuid2 store = None →
  uuid1 ≠ uuid2 →
  ∃ pending1 pending2,
    register_check body1 store = inr pending1
    ∧ register_check body2 store = inr pending2
    ∧ let result1 := register_resume crypto uuid1 now1 pending1 store in
      let result2 := register_resume crypto uuid2 now2 pending2 result1.1 in
      (∃ token role,
         result1.2 = AuthGranted 201 (AuthUser.mk uuid1 name role) token)
      ∧ (∃ token role,
           result2.2 = AuthGranted 201 (AuthUser.mk uuid2 name role) token)
      ∧ usernames result2.1 = usernames store ++ [name; name]
      ∧ UserAccount.id <$> DataStoreClass.getUserByUsername name result2.1
        = Some uuid1.
Proof.
  intros Hn1 Hn2 Hne Hp1 Hp2 Hfree Hid1 Hid2 Hids.
  pose proof (proj2 (getUserByUsername_None name store) Hfree) as Hget.
  eexists _, _. split; [|split].
  { unfold register_check. rewrite Hn1, Hp1. simpl.
    rewrite bool_decide_eq_true_2 by done. simpl. by rewrite Hget. }
  { unfold register_check. rewrite Hn2, Hp2. simpl.
    rewrite bool_decide_eq_true_2 by done. simpl. by rewrite Hget. }
  intros result1 result2. subst result1 result2.
  unfold register_resume. cbn [fst snd PendingRegistration.username
    PendingRegistration.password PendingRegistration.role].
  set (user1 := UserAccount.mk uuid1 _ _ _ _).
  set (user2 := UserAccount.mk uuid2 _ _ _ _).
  split; [by eexists _, _|]. split; [by eexists _, _|].
  assert (DataStoreClass.users
            (DataStoreClass.createUser user2
               (DataStoreClass.createUser user1 store).1).1
          = DataStoreClass.users store ++ [(uuid1, user1); (uuid2, user2)])
    as Husers.
  { rewrite (users_createUser_fresh user2).
    - rewrite (users_createUser_fresh user1) by done.
      by rewrite <- app_assoc.
    - unfold DataStoreClass.getUserById. simpl.
      rewrite JsMap_get_set_ne by done. exact Hid2. }
  split.
  - unfold usernames. rewrite Husers. unfold JsMap.values.
    by rewrite !fmap_app.
  - unfold DataStoreClass.getUserByUsername. rewrite Husers.
    unfold JsMap.values. rewrite fmap_app.
    unfold DataStoreClass.getUserByUsername, JsMap.values in Hget.
    apply fmap_None in Hget. rewrite list_find_app_r by done.
    simpl. by rewrite decide_True.
Qed.

Lemma registrations_interleaved_witness :
  let body1 := Credentials.mk (Some "editor1") (Some "pw") (Some EDITOR) in
  let body2 := Credentials.mk (Some "editor1") (Some "other") None in
  ∃ pending1 pending2,
    register_check body1 DataStoreClass.empty = inr pending1
    ∧ register_check body2 DataStoreClass.empty = inr pending2
    ∧ let result1 :=
        register_resume sampleCrypto "u1" 0 pending1 DataStoreClass.empty in
      let result2 := register_resume sampleCrypto "u2" 1 pending2 result1.1 in
      (∃ token role,
         result1.2 = AuthGranted 201 (AuthUser.mk "u1" "editor1" role) token)
      ∧ (∃ token role,
           result2.2 = AuthGranted 201 (AuthUser.mk "u2" "editor1" role) token)
      ∧ usernames result2.1
        = usernames DataStoreClass.empty ++ ["editor1"; "editor1"]
      ∧ UserAccount.id <$> DataStoreClass.getUserByUsername "editor1" result2.1
        = Some "u1".
Proof.
  intros body1 body2.
  apply (registrations_interleaved sampleCrypto "u1" "u2" 0 1 body1 body2
           DataStoreClass.empty "editor1").
  - reflexivity.
  - reflexivity.
  - intros E. discriminate E.
  - reflexivity.
  - reflexivity.
  - simpl. apply not_elem_of_nil.
  - reflexivity.
  - reflexivity.
  - intros E. discriminate E.
Defined.

(** ** Reading a report *)

Lemma priorityCount_total (entries : list ReportEntry.t) :
  (priorityCount HIGH entries + priorityCount MEDIUM entries
   + priorityCount LOW entries = length entries)%nat.
Proof.
  unfold priorityCount. induction entries as [|e l IH]; [done|].
  rewrite !filter_cons. simpl.
  destruct (ReportEntry.priority e);
    repeat (case_decide; try done); simpl; lia.
Qed.

(** X23: in the full view of a report the three priority counts add up to
    the number of entries, and the high-priority count shown is the number
    the archive rule compares with 3. *)
Theorem computed_counts (id : string) (view include : option string)
    (pageNum pageSize : option Z) (reports : gmap string Report.t)
    (v : FullView.t) :
  getReport id view include pageNum pageSize reports = GetFull v →
  ∃ report,
    DataStore.getReport id reports = Some report
    ∧ Computed.totalEntries (FullView.computed v)
      = length (Report.entries report)
    ∧ (Computed.highPriorityCount (FullView.computed v)
       + Computed.mediumPriorityCount (FullView.computed v)
       + Computed.lowPriorityCount (FullView.computed v)
       = Computed.totalEntries (FullView.computed v))%nat
    ∧ Computed.highPriorityCount (FullView.computed v)
      = highPriorityCount (Report.entries report).
Proof.
  unfold getReport.
  destruct (DataStore.getReport id reports) as [report|]; [|done].
  case_bool_decide; [done|]. intros [= <-]. exists report. simpl.
  split; [done|]. split; [done|]. split; [apply priorityCount_total|done].
Qed.

Lemma computed_counts_witness :
  ∃ report,
    DataStore.getReport "r1"
      {["r1" := sampleReport DRAFT 1 [sampleEntry "e1" HIGH; sampleEntry "e2" LOW]]}
    = Some report
    ∧ Computed.totalEntries
        (computedFields
           (sampleReport DRAFT 1 [sampleEntry "e1" HIGH; sampleEntry "e2" LOW]))
      = length (Report.entries report)
    ∧ (1 + 0 + 1 = 2)%nat
    ∧ 1%nat = highPriorityCount (Report.entries report).
Proof.
  apply (computed_counts "r1" None None (Some 1) (Some 10)
           {["r1" := sampleReport DRAFT 1 [sampleEntry "e1" HIGH; sampleEntry "e2" LOW]]}
           (FullView.mk "r1" "Q4" "Quarterly" DRAFT "u1" 0 0 1
              (computedFields
                 (sampleReport DRAFT 1
                    [sampleEntry "e1" HIGH; sampleEntry "e2" LOW]))
              (Some (entriesPage [sampleEntry "e1" HIGH; sampleEntry "e2" LOW]
                       (Some 1) (Some 10)))
              (Some sampleMetadata) (Some []))).
  reflexivity.
Defined.

Lemma jsSlice_nonneg {A} (start end_ : Z) (l : list A) :
  0 <= start → start <= end_ →
  jsSlice start end_ l
  = take (Z.to_nat (end_ - start)) (drop (Z.to_nat start) l).
Proof.
  intros H0 Hle. unfold jsSlice.
  rewrite !bool_decide_eq_false_2 by lia.
  destruct (decide (start <= Z.of_nat (length l))) as [Hs|Hs].
  - rewrite (Z.min_l start) by lia.
    destruct (decide (end_ <= Z.of_nat (length l))) as [He|He].
    + by rewrite (Z.min_l end_) by lia.
    + rewrite (Z.min_r end_) by lia.
      assert (length (drop (Z.to_nat start) l) ≤ Z.to_nat (end_ - start))%nat
        by (rewrite length_drop; lia).
      assert (length (drop (Z.to_nat start) l)
              ≤ Z.to_nat (Z.of_nat (length l) - start))%nat
        by (rewrite length_drop; lia).
      by rewrite !take_ge.
  - rewrite !Z.min_r by lia. rewrite Z.sub_diag.
    rewrite (drop_ge l (Z.to_nat start)) by lia.
    rewrite (drop_ge l (Z.to_nat (Z.of_nat (length l)))) by lia.
    by rewrite !take_nil.
Qed.

Lemma pages_concat {A} (size n : nat) (l : list A) :
  (length l ≤ n * size)%nat →
  concat ((λ i, take size (drop (i * size) l)) <$> seq 0 n) = l.
Proof.
  revert l. induction n as [|n IH]; intros l Hlen.
  - simpl in *. by destruct l; [|simpl in Hlen; lia].
  - rewrite <- cons_seq, fmap_cons. simpl. rewrite drop_0.
    rewrite <- fmap_S_seq, <- list_fmap_compose.
    etrans; [|apply (take_drop size l)]. f_equal.
    etrans; [|apply (IH (drop size l)); rewrite length_drop; lia].
    f_equal. apply list_fmap_ext. intros _ i _. simpl.
    by rewrite drop_drop.
Qed.

Lemma page_data (entries : list ReportEntry.t) (i size : nat) :
  (1 ≤ size)%nat →
  EntriesPage.data
    (entriesPage entries (Some (Z.of_nat (S i))) (Some (Z.of_nat size)))
  = take size (drop (i * size) entries).
Proof.
  intros Hs. unfold entriesPage. simpl EntriesPage.data.
  cbn [default].
  rewrite jsSlice_nonneg by lia.
  f_equal; [lia|]. f_equal. lia.
Qed.

(** X24: pagination covers the entries.  For a page size of at least 1 the
    answer names [totalPages], the ceiling of the number of entries over
    the size; the pages 1 to [totalPages], one after the other, are exactly
    the entries; each of them is non-empty and has at most [size] entries;
    every later page is empty. *)
Theorem pagination_covers (entries : list ReportEntry.t) (size : nat) :
  (1 ≤ size)%nat →
  let page (p : nat) :=
    entriesPage entries (Some (Z.of_nat p)) (Some (Z.of_nat size)) in
  ∃ n : nat,
    (∀ p, Pagination.totalPages (EntriesPage.pagination (page p))
          = Some (Z.of_nat n))
    ∧ ((n - 1) * size < length entries ∨ n = 0%nat)%nat
    ∧ (length entries ≤ n * size)%nat
    ∧ concat ((λ i, EntriesPage.data (page (S i))) <$> seq 0 n) = entries
    ∧ (∀ p, (1 ≤ p ≤ n)%nat →
            EntriesPage.data (page p) ≠ []
            ∧ (length (EntriesPage.data (page p)) ≤ size)%nat)
    ∧ (∀ p, (n < p)%nat → EntriesPage.data (page p) = []).
Proof.
  intros Hs page.
  set (len := Z.of_nat (length entries)).
  set (q := (- len) `div` Z.of_nat size).
  assert (Z.of_nat size * q <= - len) as Hq1
    by (apply Z.mul_div_le; lia).
  assert (- len < Z.of_nat size * (q + 1)) as Hq2.
  { pose proof (Z.mul_succ_div_gt (- len) (Z.of_nat size)) as H.
    unfold Z.succ in H. apply H. lia. }
  assert (q <= 0) as Hq0 by (apply Z.div_le_upper_bound; lia).
  exists (Z.to_nat (- q)).
  assert (Z.of_nat (Z.to_nat (- q)) = - q) as Hn by lia.
  split; [|split; [|split; [|split; [|split]]]].
  - intros p. subst page. simpl.
    rewrite bool_decide_eq_false_2 by lia. by rewrite Hn.
  - destruct (decide (q = 0)) as [->|]; [by right|]. left. nia.
  - nia.
  - etrans; [|apply (pages_concat size (Z.to_nat (- q)) entries); nia].
    f_equal. apply list_fmap_ext. intros _ i _. by apply page_data.
  - intros p [Hp1 Hpn]. destruct p as [|i]; [lia|].
    subst page. cbv beta. rewrite page_data by done. split.
    + intros Hnil. apply (f_equal length) in Hnil.
      rewrite length_take, length_drop in Hnil. simpl in Hnil. nia.
    + rewrite length_take. lia.
  - intros p Hp. destruct p as [|i]; [lia|].
    subst page. cbv beta. rewrite page_data by done.
    rewrite drop_ge; [by rewrite take_nil|]. nia.
Qed.

Lemma pagination_covers_witness :
  let entries :=
    [sampleEntry "e1" HIGH; sampleEntry "e2" LOW; sampleEntry "e3" LOW] in
  let page (p : nat) := entriesPage entries (Some (Z.of_nat p)) (Some 2) in
  ∃ n : nat,
    (∀ p, Pagination.totalPages (EntriesPage.pagination (page p))
          = Some (Z.of_nat n))
    ∧ ((n - 1) * 2 < length entries ∨ n = 0%nat)%nat
    ∧ (length entries ≤ n * 2)%nat
    ∧ concat ((λ i, EntriesPage.data (page (S i))) <$> seq 0 n) = entries
    ∧ (∀ p, (1 ≤ p ≤ n)%nat →
            EntriesPage.data (page p) ≠ []
            ∧ (length (EntriesPage.data (page p)) ≤ 2)%nat)
    ∧ (∀ p, (n < p)%nat → EntriesPage.data (page p) = []).
Proof.
  intros entries.
  apply (pagination_covers entries 2). lia.
Defined.

Lemma jsSlice_0_0 {A} (l : list A) : jsSlice 0 0 l = [].
Proof.
  unfold jsSlice. rewrite bool_decide_eq_false_2 by lia.
  by rewrite Z.sub_diag.
Qed.

(** X25: the edges of pagination.  When [page] or [size] does not parse to
    a number, no entries are returned; a size of 0 returns no entries and
    no page count; page 0 is empty whatever the size; and with a negative
    size the first page is all entries but the last [|size|]. *)
Theorem pagination_edges (entries : list ReportEntry.t)
    (pageNum pageSize : option Z) :
  let page := entriesPage entries pageNum pageSize in
  (pageNum = None ∨ pageSize = None → EntriesPage.data page = [])
  ∧ (pageSize = None ∨ pageSize = Some 0 →
     Pagination.totalPages (EntriesPage.pagination page) = None)
  ∧ (pageSize = Some 0 → EntriesPage.data page = [])
  ∧ (pageNum = Some 0 → EntriesPage.data page = [])
  ∧ (∀ size, pageNum = Some 1 → pageSize = Some size → size < 0 →
       EntriesPage.data page
       = take (length entries - Z.to_nat (- size)) entries).
Proof.
  intros page. subst page. unfold entriesPage. simpl.
  split; [|split; [|split; [|split]]].
  - intros [->| ->]; [|destruct pageNum]; apply jsSlice_0_0.
  - by intros [->| ->].
  - intros ->. destruct pageNum as [p|]; simpl; [|apply jsSlice_0_0].
    rewrite Z.mul_0_r, Z.add_0_r. apply jsSlice_0_0.
  - intros ->. destruct pageSize as [s|]; simpl; [|apply jsSlice_0_0].
    unfold jsSlice.
    replace ((0 - 1) * s + s) with 0 by lia.
    rewrite (bool_decide_eq_false_2 (0 < 0)) by lia.
    case_bool_decide.
    + replace (Z.to_nat _) with 0%nat by lia. done.
    + replace (Z.to_nat (0 `min` _ - _)) with 0%nat by lia. done.
  - intros size -> -> Hneg. simpl. unfold jsSlice.
    replace ((1 - 1) * size) with 0 by lia.
    rewrite (bool_decide_eq_false_2 (0 < 0)) by lia.
    rewrite bool_decide_eq_true_2 by lia.
    replace (Z.to_nat (0 `min` _)) with 0%nat by lia. rewrite drop_0.
    f_equal. lia.
Qed.

Lemma pagination_edges_witness :
  EntriesPage.data (entriesPage [sampleEntry "e1" HIGH] None (Some 10)) = []
  ∧ Pagination.totalPages
      (EntriesPage.pagination
         (entriesPage [sampleEntry "e1" HIGH] (Some 1) (Some 0))) = None
  ∧ EntriesPage.data (entriesPage [sampleEntry "e1" HIGH] (Some 1) (Some 0)) = []
  ∧ EntriesPage.data (entriesPage [sampleEntry "e1" HIGH] (Some 0) (Some 10)) = []
  ∧ EntriesPage.data
      (entriesPage [sampleEntry "e1" HIGH; sampleEntry "e2" LOW]
         (Some 1) (Some (-1)))
    = take (2 - Z.to_nat (- -1)) [sampleEntry "e1" HIGH; sampleEntry "e2" LOW].
Proof.
  split; [|split; [|split; [|split]]].
  - destruct (pagination_edges [sampleEntry "e1" HIGH] None (Some 10))
      as (H & _). apply H. by left.
  - destruct (pagination_edges [sampleEntry "e1" HIGH] (Some 1) (Some 0))
      as (_ & H & _). apply H. by right.
  - destruct (pagination_edges [sampleEntry "e1" HIGH] (Some 1) (Some 0))
      as (_ & _ & H & _). apply H. reflexivity.
  - destruct (pagination_edges [sampleEntry "e1" HIGH] (Some 0) (Some 10))
      as (_ & _ & _ & H & _). apply H. reflexivity.
  - destruct (pagination_edges [sampleEntry "e1" HIGH; sampleEntry "e2" LOW]
                (Some 1) (Some (-1))) as (_ & _ & _ & _ & H).
    apply (H (-1)).
    + reflexivity.
    + reflexivity.
    + lia.
Defined.

Lemma split_nonempty (sep : Ascii.ascii) (s : string) : split sep s ≠ [].
Proof.
  destruct s as [|c s]; simpl; [done|].
  destruct (Ascii.eqb c sep); [done|]. by destruct (split sep s).
Qed.

(** [split] undoes [join]: the parts, put together with the separator
    between them, are the string. *)
Lemma split_concat (sep : Ascii.ascii) (s : string) :
  String.concat (String sep "") (split sep s) = s.
Proof.
  induction s as [|c s IH]; [done|]. cbn [split].
  pose proof (split_nonempty sep s) as Hne.
  destruct (split sep s) as [|x xs]; [done|]. clear Hne.
  destruct (Ascii.eqb c sep) eqn:Hc.
  - apply Ascii.eqb_eq in Hc as ->.
    change (String.concat (String sep "") ("" :: x :: xs))
      with (String sep (String.concat (String sep "") (x :: xs))).
    by rewrite IH.
  - destruct xs as [|y ys].
    + simpl in *. by rewrite IH.
    + change (String.concat (String sep "") (String c x :: y :: ys))
        with (String c (String.concat (String sep "") (x :: y :: ys))).
      by rewrite IH.
Qed.

Lemma split_sep_free (sep : Ascii.ascii) (s : string) :
  Forall (λ part, sep ∉ String.list_ascii_of_string part) (split sep s).
Proof.
  induction s as [|c s IH]; cbn [split].
  - apply Forall_singleton. simpl. apply not_elem_of_nil.
  - destruct (Ascii.eqb c sep) eqn:Hc.
    + apply Forall_cons. split; [|done]. simpl. apply not_elem_of_nil.
    + apply Ascii.eqb_neq in Hc.
      destruct (split sep s) as [|x xs].
      * apply Forall_singleton. simpl.
        rewrite not_elem_of_cons. split; [done|apply not_elem_of_nil].
      * apply Forall_cons in IH as [Hx Hxs].
        apply Forall_cons. split; [|done]. simpl.
        rewrite not_elem_of_cons. split; [done|done].
Qed.

(** X26: which sections the full view holds.  Without an [include]
    parameter the entries, the metadata and the attachments are all
    present.  With one, it is cut at its commas (the parts joined by
    commas give it back, and no part holds a comma), and a section is
    present exactly when its name is one of the parts; the base fields and
    the computed counts are there in any case. *)
Theorem include_selects (id : string) (view include : option string)
    (pageNum pageSize : option Z) (reports : gmap string Report.t)
    (report : Report.t) :
  DataStore.getReport id reports = Some report →
  view ≠ Some "summary" →
  ∃ v parts,
    getReport id view include pageNum pageSize reports = GetFull v
    ∧ FullView.version v = Report.version report
    ∧ FullView.computed v = computedFields report
    ∧ (match include with
       | None => parts = []
       | Some names =>
           if decide (names = "") then parts = []
           else String.concat "," parts = names
       end)
    ∧ Forall (λ part, comma ∉ String.list_ascii_of_string part) parts
    ∧ (is_Some (FullView.entries v) ↔ parts = [] ∨ "entries" ∈ parts)
    ∧ (is_Some (FullView.metadata v) ↔ parts = [] ∨ "metadata" ∈ parts)
    ∧ (is_Some (FullView.attachments v) ↔ parts = [] ∨ "attachments" ∈ parts).
Proof.
  intros Hget Hview. unfold getReport. rewrite Hget.
  rewrite bool_decide_eq_false_2 by done.
  eexists. exists (if truthy include then split comma (default "" include) else []).
  split; [reflexivity|]. simpl. split; [done|]. split; [done|].
  split.
  { destruct include as [names|]; simpl; [|done].
    destruct (decide (names = "")) as [->|Hne]; [done|].
    rewrite bool_decide_eq_true_2 by done. apply split_concat. }
  split.
  { destruct (truthy include); [apply split_sep_free|apply Forall_nil_2]. }
  set (parts := if truthy include then _ else _).
  assert (∀ name (A : Type) (x : A),
            is_Some (if bool_decide (length parts = 0%nat)
                        || bool_decide (name ∈ parts)
                     then Some x else None)
            ↔ parts = [] ∨ name ∈ parts) as H.
  { intros name A x. destruct parts as [|p ps]; simpl.
    - split; [by left|by eexists].
    - case_bool_decide.
      + split; [by right|by eexists].
      + split; [by intros [? ?]|]. by intros [?|?]. }
  split; [apply H|]. split; apply H.
Qed.

Lemma include_selects_witness :
  ∃ v parts,
    getReport "r1" None (Some "metadata,attachments") (Some 1) (Some 10)
      {["r1" := sampleReport DRAFT 1 []]} = GetFull v
    ∧ FullView.version v = Report.version (sampleReport DRAFT 1 [])
    ∧ FullView.computed v = computedFields (sampleReport DRAFT 1 [])
    ∧ (if decide ("metadata,attachments" = "") then parts = []
       else String.concat "," parts = "metadata,attachments")
    ∧ Forall (λ part, comma ∉ String.list_ascii_of_string part) parts
    ∧ (is_Some (FullView.entries v) ↔ parts = [] ∨ "entries" ∈ parts)
    ∧ (is_Some (FullView.metadata v) ↔ parts = [] ∨ "metadata" ∈ parts)
    ∧ (is_Some (FullView.attachments v) ↔ parts = [] ∨ "attachments" ∈ parts).
Proof.
  apply (include_selects "r1" None (Some "metadata,attachments") (Some 1)
           (Some 10) {["r1" := sampleReport DRAFT 1 []]}
           (sampleReport DRAFT 1 [])).
  - reflexivity.
  - intros E. discriminate E.
Defined.

(** A report is read with the parts its [include] names: here the
    metadata and the attachments, not the entries. *)
Example include_metadata_attachments :
  match getReport "r1" None (Some "metadata,attachments") (Some 1) (Some 10)
          {["r1" := sampleReport DRAFT 1 []]} with
  | GetFull v =>
      FullView.entries v = None
      ∧ FullView.metadata v = Some sampleMetadata
      ∧ FullView.attachments v = Some []
  | _ => False
  end.
Proof. done. Qed.

(** ** Task queue: one driver *)

Lemma driverCount_cons (tm : Timer) (ts : list Timer) :
  driverCount (tm :: ts)
  = ((if isDriver (callback tm) then 1 else 0) + driverCount ts)%nat.
Proof.
  unfold driverCount. rewrite filter_cons.
  destruct (isDriver (callback tm)); by case_decide.
Qed.

Lemma driverCount_schedule (tm : Timer) (ts : list Timer) :
  driverCount (schedule tm ts) = driverCount (tm :: ts).
Proof.
  induction ts as [|x ts IH]; simpl; [done|].
  case_bool_decide; [done|].
  rewrite !driverCount_cons in *. rewrite IH. lia.
Qed.

Lemma inFlight_driverCount (ts : list Timer) :
  (length (inFlight ts) ≤ driverCount ts)%nat.
Proof.
  induction ts as [|tm ts IH]; simpl; [done|].
  rewrite driverCount_cons. destruct (callback tm); simpl; lia.
Qed.

Lemma one_driver_processQueue (q : AsyncTaskQueue) :
  wf q → driverCount (timers q) = 0%nat → one_driver (processQueue q).
Proof.
  intros Hwf H0. unfold one_driver, processQueue.
  destruct (queue q) as [|task rest] eqn:Hq; [done|].
  unfold executeTask. simpl.
  destruct Hwf as (_ & Hlt & _). rewrite Forall_forall in Hlt.
  assert (task < length (objects q))%nat as Htask.
  { apply Hlt. simpl. unfold held. rewrite Hq. left. }
  rewrite list_lookup_alter_eq.
  destruct (lookup_lt_is_Some_2 _ _ Htask) as [t ->]. simpl.
  rewrite driverCount_schedule, driverCount_cons. simpl. lia.
Qed.

Lemma one_driver_processQueue_resume (task : nat) (q : AsyncTaskQueue) :
  wf_with [task] q → processing q = true → driverCount (timers q) = 0%nat →
  one_driver (processQueue_resume task q).
Proof.
  intros Hwf Hp H0. unfold one_driver, processQueue_resume.
  destruct Hwf as (_ & Hlt & _). rewrite Forall_forall in Hlt.
  assert (task < length (objects q))%nat as Htask by (apply Hlt; left).
  destruct (lookup_lt_is_Some_2 _ _ Htask) as [t ->].
  destruct (handlerError t) as [message|]; [case_bool_decide|]; simpl;
    rewrite Hp, !driverCount_schedule, !driverCount_cons; simpl;
    rewrite ?driverCount_schedule, ?driverCount_cons; simpl; lia.
Qed.

Lemma one_driver_step (ev : Event) (q q' : AsyncTaskQueue) :
  wf q → one_driver q → step ev q = Some q' → one_driver q'.
Proof.
  intros Hwf Hone. destruct ev as [|at_ task]; simpl.
  - destruct (timers q) as [|tm rest] eqn:Htm; [done|].
    intros [= <-].
    assert (wf_with (callbackRefs (callback tm))
                    (set_clock (due tm) (set_timers rest q))) as Hwf'.
    { apply (wf_with_frame [] _ q _ Hwf); [|done|by left].
      unfold held; simpl. rewrite Htm. simpl.
      rewrite <- app_assoc. by rewrite Permutation_app_swap_app. }
    unfold one_driver in Hone. rewrite Htm, driverCount_cons in Hone.
    destruct (callback tm) as [task|task|]; simpl in *.
    + destruct (processing q) eqn:Hp; [|lia].
      apply one_driver_processQueue_resume; [done|done|simpl; lia].
    + unfold one_driver. simpl. lia.
    + destruct (processing q) eqn:Hp; [|lia].
      apply one_driver_processQueue; [by eapply wf_with_weaken|simpl; lia].
  - case_bool_decide; [|done]. intros [= <-].
    unfold enqueue. set (q1 := set_queue _ _).
    destruct (processing q) eqn:Hp.
    + replace (processing q1) with true by done. simpl.
      unfold one_driver in *. simpl. by rewrite Hp in *.
    + replace (processing q1) with false by done. simpl.
      assert (wf (enqueue task (set_processing true (set_clock at_ q)))) as Hwf1.
      { apply wf_enqueue.
        by apply (wf_with_frame [] [] q _ Hwf); [|done|by left]. }
      apply one_driver_processQueue.
      * by apply (wf_with_frame [] [] _ _ Hwf1); [|done|by left].
      * unfold one_driver in Hone. by rewrite Hp in Hone.
Qed.

Lemma reachable_one_driver (q : AsyncTaskQueue) : reachable q → one_driver q.
Proof.
  induction 1 as [c|q ev q' Hq IH Hstep]; [done|].
  eapply one_driver_step; [by apply reachable_wf|done|done].
Qed.

(** X27: there is one driver.  In every state the queue can reach, a
    callback of the driver (the continuation of an attempt or the timer for
    the next round) is pending exactly when [processing] is set, and then
    exactly one; so at most one task is being attempted at any time. *)
Theorem single_driver (q : AsyncTaskQueue) :
  reachable q →
  driverCount (timers q) = (if processing q then 1%nat else 0%nat)
  ∧ (length (inFlight (timers q)) ≤ 1)%nat.
Proof.
  intros Hq. pose proof (reachable_one_driver q Hq) as Hone.
  split; [exact Hone|].
  pose proof (inFlight_driverCount (timers q)) as Hle.
  unfold one_driver in Hone. rewrite Hone in Hle.
  destruct (processing q); lia.
Qed.

Lemma single_driver_witness :
  driverCount (timers deadLetteredState)
  = (if processing deadLetteredState then 1%nat else 0%nat)
  ∧ (length (inFlight (timers deadLetteredState)) ≤ 1)%nat.
Proof.
  apply (single_driver deadLetteredState).
  apply deadLetteredState_reachable.
Defined.

(** ** Task queue: an idle driver stays idle *)

Lemma driverCount_0 (ts : list Timer) :
  driverCount ts = 0%nat →
  Forall (λ tm, ∃ task, callback tm = Reinsert task) ts.
Proof.
  induction ts as [|tm ts IH]; [done|].
  rewrite driverCount_cons. intros H. apply Forall_cons.
  destruct (callback tm) as [task|task|]; simpl in *; try lia.
  split; [by exists task|]. apply IH. lia.
Qed.

Lemma settle_reinserts (ts : list Timer) (q : AsyncTaskQueue) :
  timers q = ts →
  Forall (λ tm, ∃ task, callback tm = Reinsert task) ts →
  ∃ q',
    settle (length ts) q = Some q'
    ∧ timers q' = []
    ∧ processing q' = processing q
    ∧ objects q' = objects q
    ∧ deadLetterQueue q' = deadLetterQueue q
    ∧ queue q' = reverse (timerRefs ts) ++ queue q.
Proof.
  revert q. induction ts as [|tm ts IH]; intros q Htm Hall.
  - exists q. simpl. by rewrite Htm.
  - apply Forall_cons in Hall as [[task Hcb] Hall].
    simpl. rewrite !Htm. simpl. rewrite ?Htm, Hcb. simpl.
    destruct (IH (set_queue (task :: queue q)
                    (set_clock (due tm) (set_timers ts q))) eq_refl Hall)
      as (q' & Hs & Ht & Hp & Ho & Hd & Hq).
    exists q'. split; [done|]. split; [done|]. split; [done|].
    split; [done|]. split; [done|].
    rewrite Hq. simpl. rewrite reverse_cons, <- app_assoc. done.
Qed.

(** X28: an idle driver does not start by itself.  In a reachable state
    with [processing] unset, letting all pending timers fire only puts the
    tasks that wait for their retry back into the queue: no task is
    attempted, no task object changes, nothing is dead-lettered and
    [processing] stays unset; the tasks stay queued until the next
    [enqueue]. *)
Theorem idle_driver_stays_idle (q : AsyncTaskQueue) :
  reachable q →
  processing q = false →
  ∃ q',
    settle (length (timers q)) q = Some q'
    ∧ timers q' = []
    ∧ processing q' = false
    ∧ objects q' = objects q
    ∧ deadLetterQueue q' = deadLetterQueue q
    ∧ queue q' = reverse (awaitingRetry (timers q)) ++ queue q.
Proof.
  intros Hq Hp.
  pose proof (reachable_one_driver q Hq) as Hone.
  unfold one_driver in Hone. rewrite Hp in Hone.
  apply driverCount_0 in Hone.
  destruct (settle_reinserts (timers q) q eq_refl Hone)
    as (q' & Hs & Ht & Hp' & Ho & Hd & Hqq).
  exists q'. rewrite Hp' , Hp. do 5 (split; [done|]).
  rewrite Hqq. f_equal. f_equal.
  clear -Hone. induction Hone as [|tm ts [task Hcb] _ IH]; [done|].
  simpl. by rewrite Hcb, IH.
Qed.

Lemma idle_driver_stays_idle_witness :
  ∃ q',
    settle (length (timers stalledState)) stalledState = Some q'
    ∧ timers q' = []
    ∧ processing q' = false
    ∧ objects q' = objects stalledState
    ∧ deadLetterQueue q' = deadLetterQueue stalledState
    ∧ queue q' = reverse (awaitingRetry (timers stalledState))
                 ++ queue stalledState.
Proof.
  apply (idle_driver_stays_idle stalledState).
  - apply (reachable_run [Enqueue 0 (failingTask 2); Fire; Fire] (newQueue 0)).
    + apply reachable_new.
    + reflexivity.
  - reflexivity.
Defined.

(** ** Task queue: the tasks of a creation *)

(** X29: the three tasks of a creation run to completion.  When a report is
    created while the queue is new and idle, the timers then fire six
    times and the queue is idle again: the notification, the cache
    invalidation and the preview have completed, in this order, 500 ms,
    800 ms and 1700 ms after the creation; none was retried, none is
    dead-lettered, and the queue holds none of them any more. *)
Theorem creation_tasks_complete (uuid : string) (user : User.t)
    (body : CreateReportDTO.t) (reports : gmap string Report.t) (c : Z) :
  let result := createReport uuid user body reports (newQueue c) in
  Response.statusCode result.2 = 201 →
  ∃ q,
    settle 6 result.1.2 = Some q
    ∧ (λ t, (Task.type t, Task.status t, Task.attempts t, Task.processedAt t))
        <$> objects q
      = [(SEND_NOTIFICATION, COMPLETED, 0, Some (c + 500));
         (INVALIDATE_CACHE, COMPLETED, 0, Some (c + 500 + 100 + 200));
         (GENERATE_PREVIEW, COMPLETED, 0,
          Some (c + 500 + 100 + 200 + 100 + 800))]
    ∧ held q = []
    ∧ getStatus q = (0%nat, false, 0%nat).
Proof.
  intros result Hok.
  apply createReport_201 in Hok as (t & d & Ht & Hnt & Hd & Hnd).
  subst result. unfold createReport. rewrite Ht, Hd. cbn [truthy].
  rewrite !bool_decide_eq_true_2 by done. cbn [negb orb fst snd].
  eexists. split; [lazy; reflexivity|].
  split; [lazy; reflexivity|]. split; lazy; reflexivity.
Qed.

Lemma creation_tasks_complete_witness :
  ∃ q,
    settle 6 (createReport "r1" sampleUser sampleCreate ∅ (newQueue 0)).1.2
    = Some q
    ∧ (λ t, (Task.type t, Task.status t, Task.attempts t, Task.processedAt t))
        <$> objects q
      = [(SEND_NOTIFICATION, COMPLETED, 0, Some (0 + 500));
         (INVALIDATE_CACHE, COMPLETED, 0, Some (0 + 500 + 100 + 200));
         (GENERATE_PREVIEW, COMPLETED, 0,
          Some (0 + 500 + 100 + 200 + 100 + 800))]
    ∧ held q = []
    ∧ getStatus q = (0%nat, false, 0%nat).
Proof.
  apply (creation_tasks_complete "r1" sampleUser sampleCreate ∅ 0).
  reflexivity.
Defined.

(** ** Task queue: status and counter follow the place of a task *)

Lemma elem_of_inFlight_schedule (x : nat) (tm : Timer) (ts : list Timer) :
  x ∈ inFlight (schedule tm ts) ↔ x ∈ inFlight [tm] ∨ x ∈ inFlight ts.
Proof.
  induction ts as [|y ts IH]; simpl.
  - destruct (callback tm); simpl; rewrite ?elem_of_nil; tauto.
  - simpl in IH. case_bool_decide; simpl.
    + destruct (callback tm), (callback y); simpl;
        rewrite ?elem_of_cons, ?elem_of_nil; tauto.
    + destruct (callback y); simpl; rewrite ?elem_of_cons, IH;
        destruct (callback tm); simpl; rewrite ?elem_of_cons, ?elem_of_nil;
        tauto.
Qed.

Lemma elem_of_awaitingRetry_schedule (x : nat) (tm : Timer) (ts : list Timer) :
  x ∈ awaitingRetry (schedule tm ts)
  ↔ x ∈ awaitingRetry [tm] ∨ x ∈ awaitingRetry ts.
Proof.
  induction ts as [|y ts IH]; simpl.
  - destruct (callback tm); simpl; rewrite ?elem_of_nil; tauto.
  - simpl in IH. case_bool_decide; simpl.
    + destruct (callback tm), (callback y); simpl;
        rewrite ?elem_of_cons, ?elem_of_nil; tauto.
    + destruct (callback y); simpl; rewrite ?elem_of_cons, IH;
        destruct (callback tm); simpl; rewrite ?elem_of_cons, ?elem_of_nil;
        tauto.
Qed.

Lemma inFlight_timerRefs (x : nat) (ts : list Timer) :
  x ∈ inFlight ts → x ∈ timerRefs ts.
Proof.
  induction ts as [|tm ts IH]; simpl; [done|].
  destruct (callback tm); simpl; rewrite ?elem_of_cons; tauto.
Qed.

Lemma awaitingRetry_timerRefs (x : nat) (ts : list Timer) :
  x ∈ awaitingRetry ts → x ∈ timerRefs ts.
Proof.
  induction ts as [|tm ts IH]; simpl; [done|].
  destruct (callback tm); simpl; rewrite ?elem_of_cons; tauto.
Qed.

Lemma place_ext (q q' : AsyncTaskQueue) (task : nat) :
  (task ∈ deadLetterQueue q' ↔ task ∈ deadLetterQueue q) →
  (task ∈ queue q' ↔ task ∈ queue q) →
  (task ∈ inFlight (timers q') ↔ task ∈ inFlight (timers q)) →
  (task ∈ awaitingRetry (timers q') ↔ task ∈ awaitingRetry (timers q)) →
  place q' task = place q task.
Proof.
  intros H1 H2 H3 H4. unfold place.
  repeat (case_decide; try tauto).
Qed.

Lemma place_DeadLettered (q : AsyncTaskQueue) (task : nat) :
  task ∈ deadLetterQueue q → place q task = DeadLettered.
Proof. intros H. unfold place. by rewrite decide_True. Qed.

Lemma place_Queued (q : AsyncTaskQueue) (task : nat) :
  task ∉ deadLetterQueue q → task ∈ queue q → place q task = Queued.
Proof.
  intros H1 H2. unfold place. rewrite decide_False by done.
  by rewrite decide_True.
Qed.

Lemma place_InFlight (q : AsyncTaskQueue) (task : nat) :
  task ∉ deadLetterQueue q → task ∉ queue q →
  task ∈ inFlight (timers q) → place q task = InFlight.
Proof.
  intros H1 H2 H3. unfold place. rewrite !decide_False by done.
  by rewrite decide_True.
Qed.

Lemma place_AwaitingRetry (q : AsyncTaskQueue) (task : nat) :
  task ∉ deadLetterQueue q → task ∉ queue q →
  task ∉ inFlight (timers q) → task ∈ awaitingRetry (timers q) →
  place q task = AwaitingRetry.
Proof.
  intros H1 H2 H3 H4. unfold place. rewrite !decide_False by done.
  by rewrite decide_True.
Qed.

Lemma place_Released (q : AsyncTaskQueue) (task : nat) :
  task ∉ held q → place q task = Released.
Proof.
  unfold held. rewrite !not_elem_of_app. intros (H1 & H2 & H3).
  unfold place. rewrite !decide_False; [done| | | |done]; try done.
  - intros H. by apply awaitingRetry_timerRefs in H.
  - intros H. by apply inFlight_timerRefs in H.
Qed.

(** What [wf_with] says about a reference that is held. *)
Lemma wf_with_held (refs : list nat) (q : AsyncTaskQueue) :
  wf_with refs q →
  NoDup refs ∧ NoDup (queue q) ∧ NoDup (timerRefs (timers q))
  ∧ NoDup (deadLetterQueue q)
  ∧ (∀ x, x ∈ refs → x ∉ held q)
  ∧ (∀ x, x ∈ queue q →
          (x ∉ timerRefs (timers q)) ∧ (x ∉ deadLetterQueue q))
  ∧ (∀ x, x ∈ timerRefs (timers q) → x ∉ deadLetterQueue q)
  ∧ (∀ x, x ∈ refs ++ held q → is_Some (objects q !! x)).
Proof.
  intros (Hnd & Hlt & _).
  apply NoDup_app in Hnd as (Hr & Hrh & Hnd). unfold held in *.
  apply NoDup_app in Hnd as (Hq & Hqh & Hnd).
  apply NoDup_app in Hnd as (Ht & Hth & Hd).
  split; [done|]. split; [done|]. split; [done|]. split; [done|].
  split; [done|]. split; [|split; [done|]].
  - intros x Hx. split; intros Hin; apply (Hqh x Hx), elem_of_app.
    + by left.
    + by right.
  - intros x Hx. apply lookup_lt_is_Some_2.
    rewrite Forall_forall in Hlt. by apply Hlt.
Qed.

Lemma consistent_update (q q' : AsyncTaskQueue) (task : nat) :
  (∀ task0 t0, task0 ≠ task → objects q !! task0 = Some t0 →
               consistent (place q task0) t0) →
  (∀ task0, task0 ≠ task →
            objects q' !! task0 = objects q !! task0
            ∧ place q' task0 = place q task0) →
  (∀ t, objects q' !! task = Some t → consistent (place q' task) t) →
  consistent_state q'.
Proof.
  intros Hc Hother Hthis task0 t0 Ht0.
  destruct (decide (task0 = task)) as [->|Hne]; [by apply Hthis|].
  destruct (Hother task0 Hne) as [E1 E2]. rewrite E2. apply Hc; [done|].
  by rewrite <- E1.
Qed.

Lemma inFlight_schedule_Poll (x : nat) (d : Z) (ts : list Timer) :
  x ∈ inFlight (schedule (mkTimer d Poll) ts) ↔ x ∈ inFlight ts.
Proof.
  rewrite elem_of_inFlight_schedule. simpl. rewrite elem_of_nil. tauto.
Qed.

Lemma awaitingRetry_schedule_Poll (x : nat) (d : Z) (ts : list Timer) :
  x ∈ awaitingRetry (schedule (mkTimer d Poll) ts) ↔ x ∈ awaitingRetry ts.
Proof.
  rewrite elem_of_awaitingRetry_schedule. simpl. rewrite elem_of_nil. tauto.
Qed.

Lemma inFlight_schedule_Reinsert (x task : nat) (d : Z) (ts : list Timer) :
  x ∈ inFlight (schedule (mkTimer d (Reinsert task)) ts) ↔ x ∈ inFlight ts.
Proof.
  rewrite elem_of_inFlight_schedule. simpl. rewrite elem_of_nil. tauto.
Qed.

Lemma awaitingRetry_schedule_Reinsert (x task : nat) (d : Z) (ts : list Timer) :
  x ∈ awaitingRetry (schedule (mkTimer d (Reinsert task)) ts)
  ↔ x = task ∨ x ∈ awaitingRetry ts.
Proof.
  rewrite elem_of_awaitingRetry_schedule. simpl.
  rewrite elem_of_cons, elem_of_nil. tauto.
Qed.

Lemma inFlight_schedule_HandlerDone (x task : nat) (d : Z) (ts : list Timer) :
  x ∈ inFlight (schedule (mkTimer d (HandlerDone task)) ts)
  ↔ x = task ∨ x ∈ inFlight ts.
Proof.
  rewrite elem_of_inFlight_schedule. simpl.
  rewrite elem_of_cons, elem_of_nil. tauto.
Qed.

Lemma awaitingRetry_schedule_HandlerDone (x task : nat) (d : Z) (ts : list Timer) :
  x ∈ awaitingRetry (schedule (mkTimer d (HandlerDone task)) ts)
  ↔ x ∈ awaitingRetry ts.
Proof.
  rewrite elem_of_awaitingRetry_schedule. simpl. rewrite elem_of_nil. tauto.
Qed.

Lemma consistent_processQueue (q : AsyncTaskQueue) :
  wf q → consistent_state q → consistent_state (processQueue q).
Proof.
  intros Hwf Hc. unfold processQueue.
  destruct (queue q) as [|task rest] eqn:Hq.
  { intros task0 t0 Ht0. rewrite (place_ext q); [by apply Hc|done..]. }
  destruct (wf_with_held [] q Hwf)
    as (_ & Hndq & Hndt & _ & _ & Hqd & Htd & Hobj).
  rewrite Hq in Hndq, Hqd. apply NoDup_cons in Hndq as [Hnotin _].
  destruct (Hqd task) as [Htt Htdl]; [left|].
  destruct (Hobj task) as [t Ht].
  { simpl. unfold held. rewrite Hq. left. }
  unfold executeTask. simpl. rewrite list_lookup_alter_eq, Ht. simpl.
  apply (consistent_update q _ task); [by intros; apply Hc| |].
  - intros task0 Hne. simpl. split; [by apply list_lookup_alter_ne|].
    apply place_ext; simpl.
    + done.
    + rewrite Hq, elem_of_cons. split; [by right|]. by intros [?|?].
    + rewrite inFlight_schedule_HandlerDone. tauto.
    + by rewrite awaitingRetry_schedule_HandlerDone.
  - simpl. rewrite list_lookup_alter_eq, Ht. simpl. intros t' [= <-].
    rewrite place_InFlight; simpl; [|done|done|].
    + split; [done|].
      assert (consistent (place q task) t) as Hct by (by apply Hc).
      rewrite place_Queued in Hct; [by destruct Hct|done|rewrite Hq; left].
    + apply inFlight_schedule_HandlerDone. by left.
Qed.

Lemma consistent_processQueue_resume (task : nat) (t : Task.t)
    (q : AsyncTaskQueue) :
  wf_with [task] q →
  objects q !! task = Some t →
  Task.attempts t < Task.maxAttempts t →
  (∀ task0 t0, task0 ≠ task → objects q !! task0 = Some t0 →
               consistent (place q task0) t0) →
  consistent_state (processQueue_resume task q).
Proof.
  intros Hwf Ht Hlt Hc.
  destruct (wf_with_held [task] q Hwf) as (_ & _ & _ & _ & Hr & _).
  assert (task ∉ held q) as Hnh by (apply Hr; left).
  unfold held in Hnh. rewrite !not_elem_of_app in Hnh.
  destruct Hnh as (Hnq & Hnt & Hnd).
  unfold processQueue_resume. rewrite Ht.
  destruct (handlerError t) as [message|].
  - case_bool_decide as Hge.
    + apply (consistent_update q _ task Hc).
      * intros task0 Hne. simpl.
        split; [by rewrite !list_lookup_alter_ne by done|].
        apply place_ext; simpl.
        -- rewrite elem_of_app, list_elem_of_singleton. tauto.
        -- done.
        -- apply inFlight_schedule_Poll.
        -- apply awaitingRetry_schedule_Poll.
      * simpl. rewrite !list_lookup_alter_eq, Ht. simpl. intros t' [= <-].
        rewrite place_DeadLettered.
        -- simpl. split; [done|lia].
        -- simpl. apply elem_of_app. right. left.
    + apply (consistent_update q _ task Hc).
      * intros task0 Hne. simpl.
        split; [by rewrite !list_lookup_alter_ne by done|].
        apply place_ext; simpl.
        -- done.
        -- done.
        -- rewrite inFlight_schedule_Poll. apply inFlight_schedule_Reinsert.
        -- rewrite awaitingRetry_schedule_Poll, awaitingRetry_schedule_Reinsert.
           tauto.
      * simpl. rewrite !list_lookup_alter_eq, Ht. simpl. intros t' [= <-].
        rewrite place_AwaitingRetry; simpl.
        -- split; [done|lia].
        -- done.
        -- done.
        -- rewrite inFlight_schedule_Poll, inFlight_schedule_Reinsert.
           intros Hin. by apply Hnt, inFlight_timerRefs.
        -- rewrite awaitingRetry_schedule_Poll, awaitingRetry_schedule_Reinsert.
           by left.
  - apply (consistent_update q _ task Hc).
    + intros task0 Hne. simpl.
      split; [by rewrite !list_lookup_alter_ne by done|].
      apply place_ext; simpl.
      * done.
      * done.
      * apply inFlight_schedule_Poll.
      * apply awaitingRetry_schedule_Poll.
    + simpl. rewrite !list_lookup_alter_eq, Ht. simpl. intros t' [= <-].
      rewrite place_Released; [done|].
      rewrite held_setTimeout. unfold held. simpl.
      rewrite !not_elem_of_app. done.
Qed.

Lemma wf_allocate (task : Task.t) (q : AsyncTaskQueue) :
  wf q →
  wf (set_queue (queue q ++ [length (objects q)])
                (set_objects (objects q ++ [task]) q)).
Proof.
  intros (Hnd & Hlt & Hdl).
  set (q1 := set_queue _ _).
  assert (held q1 ≡ₚ length (objects q) :: held q) as E.
  { unfold held; simpl. rewrite <- app_assoc. simpl.
    by rewrite <- Permutation_middle. }
  simpl in Hnd, Hlt. split; [|split]; simpl.
  - rewrite E. apply NoDup_cons. split; [|done].
    intros Hin. rewrite Forall_forall in Hlt. apply Hlt in Hin. lia.
  - rewrite E. apply Forall_cons. rewrite length_app. simpl. split; [lia|].
    eapply Forall_impl; [exact Hlt|]. simpl. lia.
  - eapply Forall_impl; [exact Hdl|]. simpl.
    intros task' (t & Ht & Hst). exists t. split; [|done].
    by apply lookup_app_l_Some.
Qed.

Lemma consistent_enqueue (task : Task.t) (q : AsyncTaskQueue) :
  wf q → consistent_state q → freshTask task →
  consistent_state (enqueue task q).
Proof.
  intros Hwf Hc [Hst Hlt]. unfold enqueue.
  pose proof (wf_allocate task q Hwf) as Hwf1.
  set (q1 := set_queue _ _) in *.
  assert (consistent_state q1) as Hc1.
  { destruct Hwf as (_ & Hbound & _). rewrite Forall_forall in Hbound.
    apply (consistent_update q _ (length (objects q)));
      [by intros; apply Hc| |].
    - intros task0 Hne. simpl. split.
      + destruct (decide (task0 < length (objects q))%nat) as [Hl|Hl].
        * by apply lookup_app_l.
        * rewrite lookup_ge_None_2 by (rewrite length_app; simpl; lia).
          symmetry. apply lookup_ge_None_2. lia.
      + apply place_ext; simpl; [done| |done|done].
        rewrite elem_of_app, list_elem_of_singleton. tauto.
    - simpl. rewrite lookup_app_r by done. rewrite Nat.sub_diag. simpl.
      intros t [= <-]. rewrite place_Queued; simpl.
      + split; [by left|done].
      + intros Hin. assert (length (objects q) < length (objects q))%nat; [|lia].
        apply Hbound. simpl. unfold held. rewrite !elem_of_app. tauto.
      + apply elem_of_app. right. left. }
  destruct (negb (processing q1)); [by apply consistent_processQueue|done].
Qed.

Lemma consistent_step (ev : Event) (q q' : AsyncTaskQueue) :
  wf q → consistent_state q → freshEvent ev → step ev q = Some q' →
  consistent_state q'.
Proof.
  intros Hwf Hc Hev. destruct ev as [|at_ task]; simpl.
  - destruct (timers q) as [|tm rest] eqn:Htm; [done|].
    intros [= <-].
    assert (wf_with (callbackRefs (callback tm))
                    (set_clock (due tm) (set_timers rest q))) as Hwf'.
    { apply (wf_with_frame [] _ q _ Hwf); [|done|by left].
      unfold held; simpl. rewrite Htm. simpl.
      rewrite <- app_assoc. by rewrite Permutation_app_swap_app. }
    destruct (wf_with_held [] q Hwf)
      as (_ & _ & Hndt & _ & _ & Hqd & Htd & Hobj).
    rewrite Htm in Hndt, Hqd, Htd. simpl in Hndt, Hqd, Htd, Hobj.
    destruct (callback tm) as [task|task|] eqn:Hcb; simpl in *.
    + apply NoDup_cons in Hndt as [Hnt _].
      assert (task ∉ deadLetterQueue q) as Hnd by (apply Htd; left).
      assert (task ∉ queue q) as Hnq.
      { intros Hin. apply Hqd in Hin as [Hin _]. apply Hin. left. }
      destruct (Hobj task) as [t Ht].
      { unfold held. rewrite Htm. simpl. rewrite Hcb. simpl.
        rewrite elem_of_app, elem_of_cons. tauto. }
      assert (consistent InFlight t) as [_ Hlt].
      { rewrite <- (place_InFlight q task); [by apply Hc|done|done|].
        rewrite Htm. simpl. rewrite Hcb. left. }
      apply (consistent_processQueue_resume task t); [done|done|done|].
      intros task0 t0 Hne Ht0. simpl in Ht0.
      rewrite (place_ext q); [by apply Hc|done|done| |]; simpl; rewrite Htm;
        simpl; rewrite Hcb; [|done].
      rewrite elem_of_cons. tauto.
    + apply NoDup_cons in Hndt as [Hnt _].
      assert (task ∉ deadLetterQueue q) as Hnd by (apply Htd; left).
      assert (task ∉ queue q) as Hnq.
      { intros Hin. apply Hqd in Hin as [Hin _]. apply Hin. left. }
      apply (consistent_update q _ task); [by intros; apply Hc| |].
      * intros task0 Hne. simpl. split; [done|].
        apply place_ext; simpl; rewrite ?Htm; simpl; rewrite ?Hcb;
          rewrite ?elem_of_cons; tauto.
      * simpl. intros t Ht.
        assert (consistent AwaitingRetry t) as [Hst Hlt].
        { rewrite <- (place_AwaitingRetry q task); [by apply Hc|done|done| |].
          - rewrite Htm. simpl. rewrite Hcb. intros Hin.
            by apply Hnt, inFlight_timerRefs.
          - rewrite Htm. simpl. rewrite Hcb. left. }
        rewrite place_Queued; simpl; [|done|left].
        split; [by right|done].
    + apply consistent_processQueue; [done|].
      intros task0 t0 Ht0. simpl in Ht0.
      rewrite (place_ext q); [by apply Hc|done|done| |]; simpl; rewrite Htm;
        simpl; by rewrite Hcb.
  - case_bool_decide; [|done]. intros [= <-].
    apply consistent_enqueue; [| |done].
    + by apply (wf_with_frame [] [] q _ Hwf); [|done|by left].
    + intros task0 t0 Ht0. simpl in Ht0.
      rewrite (place_ext q); [by apply Hc|done..].
Qed.

Lemma consistent_run (evs : list Event) (q q' : AsyncTaskQueue) :
  wf q → consistent_state q → Forall freshEvent evs →
  run evs q = Some q' → consistent_state q'.
Proof.
  revert q. induction evs as [|ev evs IH]; simpl; intros q Hwf Hc Hevs.
  - by intros [= <-].
  - apply Forall_cons in Hevs as [Hev Hevs].
    destruct (step ev q) as [q1|] eqn:Hstep; [|done]. simpl.
    apply IH; [by eapply wf_step|by eapply consistent_step|done].
Qed.

(** X30: whatever tasks are enqueued and however far the timers have run,
    the status and the attempt counter of every task object follow from
    where the queue holds it: a task in [queue] is PENDING or FAILED, the
    task whose handler is running is PROCESSING, a task waiting for its
    retry timer is FAILED, each of these with attempts left; a task in the
    dead-letter queue is DEAD_LETTER with its attempts used up exactly; a
    task the queue holds nowhere is COMPLETED.  The tasks enqueued are new
    ones: PENDING, with fewer attempts than [maxAttempts]. *)
Theorem status_follows_place (evs : list Event) (c : Z) (q : AsyncTaskQueue)
    (task : nat) (t : Task.t) :
  Forall freshEvent evs →
  run evs (newQueue c) = Some q →
  objects q !! task = Some t →
  consistent (place q task) t.
Proof.
  intros Hevs Hrun. revert task t.
  apply (consistent_run evs (newQueue c)); [apply wf_newQueue| |done|done].
  intros task t Ht. simpl in Ht. by rewrite lookup_nil in Ht.
Qed.

Lemma status_follows_place_witness :
  place stalledState 0 = AwaitingRetry
  ∧ consistent (place stalledState 0)
      (Task.mk "t1" INVALIDATE_CACHE JsNull FAILED 1 2 0 None
         (Some "Cannot read properties of null (reading 'cacheKey')")).
Proof.
  split; [reflexivity|].
  apply (status_follows_place
           [Enqueue 0 (failingTask 2); Fire; Fire] 0 stalledState 0%nat).
  - repeat constructor.
  - reflexivity.
  - reflexivity.
Defined.
